(** * LoRA patcher: a shallow embedding of
    [invokeai/backend/stable_diffusion/extensions/lora_patcher.py]

    The development follows the source file top-down: Python string
    helpers, the [torch.nn.Module] tree with [get_submodule] and
    [get_parameter], the key resolver [_resolve_lora_key], the tensor stores
    and the patch loop [_patch_model], and finally the scoped form
    [static_patch_model] with its [finally] block. *)

From Stdlib Require Import ZArith Ascii.
From stdpp Require Import gmap strings list fin_maps.

Local Open Scope Z_scope.

(** ** Python string helpers *)

Module PyStr.

(** [c in s] for a one-character needle. *)
Fixpoint contains (c : ascii) (s : string) : bool :=
  match s with
  | EmptyString => false
  | String a r => if Ascii.eqb a c then true else contains c r
  end.

(** [s.startswith(p)] *)
Fixpoint startswith (p s : string) : bool :=
  match p, s with
  | EmptyString, _ => true
  | String a p', String b s' => if Ascii.eqb a b then startswith p' s' else false
  | String _ _, EmptyString => false
  end.

(** [s[n:]] *)
Fixpoint drop (n : nat) (s : string) : string :=
  match n, s with
  | O, _ => s
  | S n', String _ r => drop n' r
  | S _, EmptyString => EmptyString
  end.

(** [s.split(sep)] for a one-character separator: never empty, empty
    pieces are kept. *)
Fixpoint split (sep : ascii) (s : string) : list string :=
  match s with
  | EmptyString => [EmptyString]
  | String a r =>
      if Ascii.eqb a sep then EmptyString :: split sep r
      else match split sep r with
           | h :: t => String a h :: t
           | [] => [String a EmptyString]
           end
  end.

(** [s.lstrip(c)]: every leading occurrence of [c] is removed. *)
Fixpoint lstrip (c : ascii) (s : string) : string :=
  match s with
  | EmptyString => EmptyString
  | String a r => if Ascii.eqb a c then lstrip c r else s
  end.

(** [s.rpartition(sep)]: [Some (head, tail)] around the last separator,
    [None] when the separator does not occur (Python then returns
    [("", "", s)]). *)
Fixpoint rpartition (sep : ascii) (s : string) : option (string * string) :=
  match s with
  | EmptyString => None
  | String a r =>
      match rpartition sep r with
      | Some (h, t) => Some (String a h, t)
      | None => if Ascii.eqb a sep then Some (EmptyString, r) else None
      end
  end.

(** [sep.join(l)] *)
Fixpoint join (sep : string) (l : list string) : string :=
  match l with
  | [] => EmptyString
  | [x] => x
  | x :: r => x +:+ sep +:+ join sep r
  end.

End PyStr.

(** ** Exceptions and results *)

Inductive PyError : Type :=
| AssertionError          (* a failed [assert] *)
| InvalidPrefix           (* [raise Exception("lora_key with invalid prefix ...")] *)
| AttributeError          (* [get_submodule], [get_parameter], [module.weight] *)
| ShapeError              (* torch's RuntimeError of [reshape] and [copy_] on an element-count mismatch *)
| TypeError               (* subscripting [None] *)
| KeyError                (* a missing dict key *)
| IndexError.             (* [pop] from an empty list *)

Inductive result (A : Type) : Type :=
| Ok (a : A)
| Err (e : PyError).
Arguments Ok {A} a.
Arguments Err {A} e.

(** ** The module tree of [torch.nn.Module]

    A module owns named parameters and named sub-modules.  Parameters are
    tensor objects: the tree stores their addresses in the parameter store,
    so two names may refer to one tensor (tied weights).  The patcher never
    changes the tree, only the tensors. *)

Definition loc := nat.

#[warnings="-register-all"]
Inductive Module : Type :=
| Mod (parameters : list (string * loc)) (modules : list (string * Module)).

Definition _parameters (m : Module) : list (string * loc) :=
  match m with Mod ps _ => ps end.

Definition _modules (m : Module) : list (string * Module) :=
  match m with Mod _ ms => ms end.

(** First binding of a name in a dict given by its items. *)
Fixpoint assoc {A : Type} (k : string) (l : list (string * A)) : option A :=
  match l with
  | [] => None
  | (k', v) :: r => if decide (k = k') then Some v else assoc k r
  end.

(** What [getattr(mod, item)] finds on a module: [Module.__getattr__] looks
    in [_parameters] first, then in [_modules]. *)
Inductive Attr : Type :=
| AParam (p : loc)
| AModule (m : Module).

Definition getattr (m : Module) (item : string) : option Attr :=
  match assoc item (_parameters m) with
  | Some p => Some (AParam p)
  | None => match assoc item (_modules m) with
            | Some c => Some (AModule c)
            | None => None
            end
  end.

(** The loop of [torch.nn.Module.get_submodule] over the atoms of the
    target: each atom must be an attribute and that attribute a module. *)
Fixpoint walk (m : Module) (atoms : list string) : result Module :=
  match atoms with
  | [] => Ok m
  | item :: rest =>
      match getattr m item with
      | Some (AModule c) => walk c rest
      | _ => Err AttributeError
      end
  end.

(** [torch.nn.Module.get_submodule]: the empty target is the module itself,
    any other target is split on dots and walked. *)
Definition get_submodule (m : Module) (target : string) : result Module :=
  if decide (target = "") then Ok m
  else walk m (PyStr.split "." target).

(** [torch.nn.Module.get_parameter]: the target is partitioned at its last
    dot into a module path and a parameter name. *)
Definition get_parameter (m : Module) (target : string) : result loc :=
  let '(module_path, param_name) :=
    match PyStr.rpartition "." target with
    | Some (h, t) => (h, t)
    | None => ("", target)
    end in
  match get_submodule m module_path with
  | Err e => Err e
  | Ok md =>
      match getattr md param_name with
      | Some (AParam p) => Ok p
      | _ => Err AttributeError
      end
  end.

(** ** [LoRAPatcherExt._resolve_lora_key] *)

(** The [while len(key_parts) > 0] loop.  [next :: rest] is [key_parts]
    before the [pop(0)] that both branches perform. *)
Fixpoint resolve_loop (module : Module) (module_key submodule_name : string)
    (key_parts : list string) : Module * string * string :=
  match key_parts with
  | [] => (module, module_key, submodule_name)
  | next :: rest =>
      match get_submodule module submodule_name with
      | Ok m' =>
          resolve_loop m' (module_key +:+ "." +:+ submodule_name) next rest
      | Err _ =>
          resolve_loop module module_key (submodule_name +:+ "_" +:+ next) rest
      end
  end.

Definition _resolve_lora_key (model : Module) (lora_key prefix : string)
  : result (string * Module) :=
  if PyStr.contains "." lora_key then Err AssertionError
  else if negb (PyStr.startswith prefix lora_key) then Err InvalidPrefix
  else
    match PyStr.split "_" (PyStr.drop (String.length prefix) lora_key) with
    | [] => Err IndexError (* unreachable: [split] never returns an empty list *)
    | submodule_name :: key_parts =>
        let '(module, module_key, submodule_name) :=
          resolve_loop model "" submodule_name key_parts in
        match get_submodule module submodule_name with
        | Err e => Err e
        | Ok module =>
            Ok (PyStr.lstrip "." (module_key +:+ "." +:+ submodule_name), module)
        end
    end.

(** *** The resolution algorithm in the words of the specification

    "Strip the prefix, split the remainder on underscores, greedily descend:
    a resolved accumulated token opens a new accumulated token from the next
    raw token, a failed resolution extends the current accumulated token
    with an underscore and the next raw token; after all tokens are
    consumed the final accumulated token is resolved by one final mandatory
    descent."  [spec_descend] returns the path of resolved tokens and the
    module reached. *)
Fixpoint spec_descend (m : Module) (accumulated : string) (tokens : list string)
  : result (list string * Module) :=
  match tokens with
  | [] =>
      match get_submodule m accumulated with
      | Ok leaf => Ok ([accumulated], leaf)
      | Err e => Err e
      end
  | next :: rest =>
      match get_submodule m accumulated with
      | Ok child =>
          match spec_descend child next rest with
          | Ok (path, leaf) => Ok (accumulated :: path, leaf)
          | Err e => Err e
          end
      | Err _ => spec_descend m (accumulated +:+ "_" +:+ next) rest
      end
  end.

Definition spec_path (model : Module) (key prefix : string)
  : result (list string * Module) :=
  match PyStr.split "_" (PyStr.drop (String.length prefix) key) with
  | [] => Err IndexError
  | first :: rest => spec_descend model first rest
  end.

(** "The canonical key is the dot-joined path with the leading dot
    stripped": every resolved token is appended behind a dot and the one
    dot in front is dropped, which is the path joined by dots. *)
Definition spec_resolve (model : Module) (key prefix : string)
  : result (string * Module) :=
  match spec_path model key prefix with
  | Ok (path, leaf) => Ok (PyStr.join "." path, leaf)
  | Err e => Err e
  end.

(** ** Tensors

    What the patcher uses of torch's tensors: shape, dtype and device, the
    elements, and the operations [to], [reshape], [*=], [+=] and [copy_].
    Before a layer is used its tensors are moved to the device of
    [module.weight] (line 119); torch's error for operands on different
    devices is not modelled. *)

Inductive DType : Type := Float16 | BFloat16 | Float32 | Float64.

Inductive Device : Type := CPU | CUDA (index : nat).

Global Instance DType_eq_dec : EqDecision DType.
Proof. solve_decision. Defined.

Global Instance Device_eq_dec : EqDecision Device.
Proof. solve_decision. Defined.

(** The arithmetic of tensor elements and of Python floats.  [radd], [rmul]
    and [rdiv] are the exact operations and [cast d] rounds into the dtype
    [d]; a machine operation at dtype [d] is the exact one followed by
    [cast d].  [r_is_zero] is Python truthiness of a float ([x != 0]). *)
Class Scalar (R : Type) : Type := {
  rone : R;
  radd : R → R → R;
  rmul : R → R → R;
  rdiv : R → R → R;
  r_of_Z : Z → R;
  r_is_zero : R → bool;
  cast : DType → R → R;
}.

Section Model.

Context {R : Type} `{!Scalar R}.

(** Python float arithmetic (binary64). *)
Definition py_mul (a b : R) : R := cast Float64 (rmul a b).
Definition py_div (a b : R) : R := cast Float64 (rdiv a b).

(** A tensor: its elements in row-major order.  [viewable] says whether
    [reshape] gives a view of the tensor's memory, as it does for every
    contiguous tensor, or has to copy the elements, as it does for a
    transposed matrix. *)
Record Tensor : Type := mkTensor {
  shape : list nat;
  dtype : DType;
  device : Device;
  data : list R;
  viewable : bool;
}.

Global Instance Tensor_inhabited : Inhabited Tensor :=
  populate (mkTensor [] Float32 CPU [] true).

Definition numel_of (shp : list nat) : nat := foldr Nat.mul 1%nat shp.

Definition with_data (t : Tensor) (d : list R) : Tensor :=
  mkTensor (shape t) (dtype t) (device t) d (viewable t).

(** [t.to(dtype=d)]: the tensor itself when it already has that dtype. *)
Definition to_dtype (d : DType) (t : Tensor) : Tensor :=
  if decide (dtype t = d) then t
  else mkTensor (shape t) d (device t) (map (cast d) (data t)) (viewable t).

(** [t.to(device=dev)] *)
Definition to_device (dev : Device) (t : Tensor) : Tensor :=
  mkTensor (shape t) (dtype t) dev (data t) (viewable t).

(** [t.detach().to(device=TorchDevice.CPU_DEVICE, copy=True)] *)
Definition detach_to_cpu (t : Tensor) : Tensor := to_device CPU t.

(** [t.reshape(shp)]: the same elements in the new shape; torch raises
    when the element counts differ.  The result shares the memory of [t]
    when [t] is [viewable] and is a new tensor otherwise, which is what
    [shares] tells the in-place operation that follows. *)
Definition reshape (t : Tensor) (shp : list nat) : result Tensor :=
  if decide (numel_of (shape t) = numel_of shp)
  then Ok (mkTensor shp (dtype t) (device t) (data t) true)
  else Err ShapeError.

Definition shares (t : Tensor) (shp : list nat) : bool :=
  bool_decide (shp = shape t) || viewable t.

(** [t *= k] for a Python float [k], in place. *)
Definition imul (t : Tensor) (k : R) : Tensor :=
  with_data t (map (λ x, cast (dtype t) (rmul x k)) (data t)).

(** Broadcasting of row-major [elems] of shape [src] to the shape [dst]
    of the same length: a source dimension is the destination's or 1. *)
Fixpoint chunks (n : nat) (count : nat) (l : list R) : list (list R) :=
  match count with
  | O => []
  | S c => take n l :: chunks n c (drop n l)
  end.

Fixpoint broadcast (src dst : list nat) (elems : list R) : option (list R) :=
  match src, dst with
  | [], [] => Some elems
  | s :: src', d :: dst' =>
      if decide (s = d) then
        (λ rows, concat rows) <$> mapM (broadcast src' dst') (chunks (numel_of src') s elems)
      else if decide (s = 1%nat) then
        (λ row, concat (replicate d row)) <$> broadcast src' dst' elems
      else None
  | _, _ => None
  end.

(** The elements of [src] as an in-place operation on a tensor of shape
    [dst] reads them: as they are when the shapes agree, broadcast when
    [src] has no more dimensions and each is the destination's or 1, and
    not at all otherwise (torch raises). *)
Definition expand (dst : list nat) (src : Tensor) : option (list R) :=
  if decide (shape src = dst) then Some (data src)
  else if decide (length (shape src) ≤ length dst)%nat then
    broadcast (replicate (length dst - length (shape src)) 1%nat ++ shape src)
              dst (data src)
  else None.

(** [t += x] in place: the elements of [x], broadcast to the shape of
    [t], are added and the sums rounded into the dtype of [t]. *)
Definition iadd (t x : Tensor) : result Tensor :=
  match expand (shape t) x with
  | Some elems =>
      Ok (with_data t (zip_with (λ a b, cast (dtype t) (radd a b)) (data t) elems))
  | None => Err ShapeError
  end.

(** [dst.copy_(src)]: the elements of [src], converted to the dtype of
    [dst] and broadcast to its shape, overwrite those of [dst]. *)
Definition copy_ (dst src : Tensor) : result Tensor :=
  match expand (shape dst) (to_dtype (dtype dst) src) with
  | Some elems => Ok (with_data dst elems)
  | None => Err ShapeError
  end.

(** ** The tensor stores

    [params] holds the parameter tensors of the host model, [lora_tensors]
    the tensors that the LoRA layers own, both addressed by [loc]; an
    address outside a store reads as the empty tensor.  [created] holds
    the tensors that the last call of [get_parameters] made, by parameter
    name: they are new objects, reachable through the returned dict
    only. *)
Record State : Type := mkState {
  params : gmap loc Tensor;
  lora_tensors : gmap loc Tensor;
  created : gmap string Tensor;
}.

Definition set_param (p : loc) (t : Tensor) (s : State) : State :=
  mkState (<[p := t]> (params s)) (lora_tensors s) (created s).

Definition set_lora_tensor (d : loc) (t : Tensor) (s : State) : State :=
  mkState (params s) (<[d := t]> (lora_tensors s)) (created s).

Definition set_created (m : gmap string Tensor) (s : State) : State :=
  mkState (params s) (lora_tensors s) m.

(** ** LoRA layers

    Modelled from the spec: the LoRA layer classes
    ([invokeai.backend.lora]) are not part of the source file.  The
    specification gives a layer "a rank (positive integer or absent), an
    optional alpha scalar" and a method that "provides, given a target
    module, the fully-materialized per-parameter delta contribution(s)",
    plus "device/precision staging operations". *)

(** Modelled from the spec: what [get_parameters] provides for a
    parameter.  It is either a tensor that the layer owns and hands out
    as it is ([Own], a full weight or a bias, say), or a tensor that the
    call makes from tensors of the layer ([Product], the product of the
    up and down matrices, say); the second is a new object at every
    call. *)
Inductive Delta : Type :=
| Own (d : loc)
| Product (inputs : list loc) (f : list Tensor → Tensor).

(** Modelled from the spec: a LoRA layer.  [tensors] lists the tensors
    the layer owns, which is what its [to] acts on, and [get_parameters]
    names, for a target module, the delta of each parameter. *)
Record LoRALayer : Type := mkLayer {
  alpha : option R;
  rank : option Z;
  tensors : list loc;
  get_parameters : Module → list (string * Delta);
}.

(** The dict that [get_parameters] returns: under a name the layer's own
    tensor, or a tensor the call has made, which is then in [created]. *)
Inductive Given : Type :=
| Stored (d : loc)
| Made (name : string).

Definition given (item : string * Delta) : Given :=
  match item.2 with
  | Own d => Stored d
  | Product _ _ => Made item.1
  end.

(** The tensors that a call of [get_parameters] makes, from the LoRA
    store as it is at the call (line 124, after the staging). *)
Definition materialize (items : list (string * Delta)) (lora : gmap loc Tensor)
  : gmap string Tensor :=
  list_to_map
    (omap (λ item : string * Delta,
             match item.2 with
             | Own _ => None
             | Product inputs f => Some (item.1, f ((λ l, lora !!! l) <$> inputs))
             end) items).

(** The tensor that [lora_param_weight] is bound to. *)
Definition given_tensor (g : Given) (s : State) : Tensor :=
  match g with
  | Stored d => lora_tensors s !!! d
  | Made name => created s !!! name
  end.

(** [LoRAModelRaw]: [layers] is the dict of layers in insertion order. *)
Record LoRAModelRaw : Type := mkLoRA {
  layers : list (string * LoRALayer);
}.

(** [layer.to(device=dev)] and [layer.to(dtype=d)] *)
Definition layer_to_device (layer : LoRALayer) (dev : Device) (s : State) : State :=
  foldl (λ s l, set_lora_tensor l (to_device dev (lora_tensors s !!! l)) s)
        s (tensors layer).

Definition layer_to_dtype (layer : LoRALayer) (d : DType) (s : State) : State :=
  foldl (λ s l, set_lora_tensor l (to_dtype d (lora_tensors s !!! l)) s)
        s (tensors layer).

(** Truthiness of [layer.alpha] (an optional float) and [layer.rank] (an
    optional int). *)
Definition truthy_alpha (a : option R) : bool :=
  match a with Some x => negb (r_is_zero x) | None => false end.

Definition truthy_rank (r : option Z) : bool :=
  match r with Some n => negb (n =? 0) | None => false end.

(** [layer.alpha / layer.rank if (layer.alpha and layer.rank) else 1.0] *)
Definition layer_scale (layer : LoRALayer) : R :=
  match alpha layer, rank layer with
  | Some a, Some r =>
      if truthy_alpha (Some a) && truthy_rank (Some r)
      then py_div a (r_of_Z r)
      else rone
  | _, _ => rone
  end.

End Model.

Arguments Tensor R : clear implicits.
Arguments State R : clear implicits.
Arguments Delta R : clear implicits.
Arguments LoRALayer R : clear implicits.
Arguments LoRAModelRaw R : clear implicits.

(** ** Statements that read and write the stores, and may raise

    A Python statement is a function from the stores to a result and the
    stores it leaves behind; after an exception the stores stay as they
    were when it was raised. *)

Section Patcher.

Context {R : Type} `{!Scalar R}.

Definition Stmt (A : Type) : Type := State R → result A * State R.

Definition ret {A : Type} (a : A) : Stmt A := λ s, (Ok a, s).

Definition lift {A : Type} (r : result A) : Stmt A := λ s, (r, s).

Definition bind {A B : Type} (m : Stmt A) (k : A → Stmt B) : Stmt B :=
  λ s, match m s with
       | (Ok a, s') => k a s'
       | (Err e, s') => (Err e, s')
       end.

Definition gets {A : Type} (f : State R → A) : Stmt A := λ s, (Ok (f s), s).

Definition modify (f : State R → State R) : Stmt unit := λ s, (Ok tt, f s).

Notation "'let*' x ':=' m 'in' k" := (bind m (λ x, k))
  (at level 10, x pattern, m at level 100, k at level 200).

(** [for x in xs: body], the loop's local variables in [acc]. *)
Fixpoint for_each {A B : Type} (body : A → B → Stmt B) (xs : list A) (acc : B)
  : Stmt B :=
  match xs with
  | [] => ret acc
  | x :: rest => let* acc' := body x acc in for_each body rest acc'
  end.

(** The bookkeeping of a session: [modified_cached_weights] (a set) and
    [modified_weights] (a dict, in insertion order). *)
Definition Book : Type := gset string * list (string * Tensor R).

(** Lines 129-135: save the original weight on the first touch. *)
Definition save_original (cached_weights : gmap string (Tensor R))
    (param_key : string) (module_param : Tensor R) (book : Book) : Book :=
  let '(modified_cached_weights, modified_weights) := book in
  if decide ((param_key ∉ modified_cached_weights)
             ∧ assoc param_key modified_weights = None) then
    if decide (is_Some (cached_weights !! param_key)) then
      ({[param_key]} ∪ modified_cached_weights, modified_weights)
    else
      (modified_cached_weights,
       modified_weights ++ [(param_key, detach_to_cpu module_param)])
  else book.

(** Line 141 as the stores see it: [*=] writes the tensor that
    [lora_param_weight] is bound to.  That is the layer's own tensor when
    the dict gave that tensor and it was not reshaped or [reshape] gave a
    view of it; it is a new tensor when [reshape] copied.  A tensor that
    [get_parameters] made is reachable through this dict entry only, and
    what is written to it is gone with it. *)
Definition scale_in_place (g : Given) (shp : list nat)
    (lora_param_weight scaled : Tensor R) (s : State R) : State R :=
  match g with
  | Stored d =>
      if shares lora_param_weight shp
      then set_lora_tensor d (with_data lora_param_weight (data scaled)) s
      else s
  | Made _ => s
  end.

(** Lines 128-142: save the original, reconcile the shape, scale the
    delta and add it.  [g] is what the dict of [get_parameters] holds for
    the parameter and [scale] is [lora_weight * layer_scale]. *)
Definition patch_tensor (cached_weights : gmap string (Tensor R))
    (param_key : string) (p : loc) (g : Given) (dtype_ : DType) (scale : R)
    (book : Book) : Stmt Book :=
  let* module_param := gets (λ s, params s !!! p) in
  let book := save_original cached_weights param_key module_param book in
  let* lora_param_weight := gets (given_tensor g) in
  let* view :=
    lift (if decide (shape module_param ≠ shape lora_param_weight)
          then reshape lora_param_weight (shape module_param)
          else Ok lora_param_weight) in
  let scaled := imul view scale in
  let* _ := modify (scale_in_place g (shape module_param) lora_param_weight scaled) in
  let* patched := lift (iadd module_param (to_dtype dtype_ scaled)) in
  let* _ := modify (set_param p patched) in
  ret book.

(** Lines 125-142: the body of the loop over
    [layer.get_parameters(module).items()]. *)
Definition patch_param (cached_weights : gmap string (Tensor R))
    (module_key : string) (module : Module) (dtype_ : DType) (scale : R)
    (item : string * Delta R) (book : Book) : Stmt Book :=
  let param_name := item.1 in
  let param_key := module_key +:+ "." +:+ param_name in
  let* p := lift (get_parameter module param_name) in
  patch_tensor cached_weights param_key p (given item) dtype_ scale book.

(** [module.weight] as far as [.device] and [.dtype] can be read off it. *)
Definition module_weight (module : Module) : result loc :=
  match getattr module "weight" with
  | Some (AParam w) => Ok w
  | _ => Err AttributeError
  end.

(** Lines 96-144: the body of the loop over [lora.layers.items()]. *)
Definition patch_layer (model : Module) (prefix : string)
    (cached_weights : gmap string (Tensor R)) (lora_weight : R)
    (item : string * LoRALayer R) (book : Book) : Stmt Book :=
  let '(layer_key, layer) := item in
  if negb (PyStr.startswith prefix layer_key) then ret book
  else
    let* (module_key, module) := lift (_resolve_lora_key model layer_key prefix) in
    let* w := lift (module_weight module) in
    let* device_ := gets (λ s, device (params s !!! w)) in
    let* dtype_ := gets (λ s, dtype (params s !!! w)) in
    let scale := py_mul lora_weight (layer_scale layer) in
    let* _ := modify (layer_to_device layer device_) in
    let* _ := modify (layer_to_dtype layer Float32) in
    let items := get_parameters layer module in
    let* _ := modify (λ s, set_created (materialize items (lora_tensors s)) s) in
    let* book := for_each (patch_param cached_weights module_key module dtype_ scale)
                          items book in
    let* _ := modify (layer_to_device layer CPU) in
    ret book.

(** Lines 93-95: the loop over the (LoRA, weight) pairs. *)
Definition patch_lora (model : Module) (prefix : string)
    (cached_weights : gmap string (Tensor R))
    (item : LoRAModelRaw R * R) (book : Book) : Stmt Book :=
  let '(lora, lora_weight) := item in
  for_each (patch_layer model prefix cached_weights lora_weight) (layers lora) book.

(** [LoRAPatcherExt._patch_model]; the result is the pair
    [(modified_cached_weights, modified_weights)]. *)
Definition _patch_model (model : Module) (prefix : string)
    (loras : list (LoRAModelRaw R * R))
    (cached_weights : option (gmap string (Tensor R))) : Stmt Book :=
  let cached_weights := default ∅ cached_weights in
  for_each (patch_lora model prefix cached_weights) loras (∅, []).

(** [model.get_parameter(param_key).copy_(src)] *)
Definition copy_into (model : Module) (param_key : string) (src : result (Tensor R))
  : Stmt unit :=
  let* p := lift (get_parameter model param_key) in
  let* src := lift src in
  let* param := gets (λ s, params s !!! p) in
  let* restored := lift (copy_ param src) in
  modify (set_param p restored).

(** [cached_weights[param_key]] on the caller's argument, which may still
    be [None]. *)
Definition subscript (cached_weights : option (gmap string (Tensor R)))
    (param_key : string) : result (Tensor R) :=
  match cached_weights with
  | None => Err TypeError
  | Some c => match c !! param_key with
              | Some t => Ok t
              | None => Err KeyError
              end
  end.

(** Lines 66-70: the [finally] block.  A Python set is iterated in an
    order of its own, here that of [elements]. *)
Definition restore (model : Module)
    (cached_weights : option (gmap string (Tensor R)))
    (modified_cached_weights : gset string)
    (modified_weights : list (string * Tensor R)) : Stmt unit :=
  let* _ := for_each (λ param_key _,
               copy_into model param_key (subscript cached_weights param_key))
             (elements modified_cached_weights) tt in
  for_each (λ '(param_key, weight) _, copy_into model param_key (Ok weight))
           modified_weights tt.

(** The body of the [with] block.  It may overwrite the elements of any
    parameter tensor, do anything to the LoRA tensors, and leave normally
    or by an exception; it does not replace or re-shape the parameter
    tensors of the model. *)
Record ScopeBody : Type := mkBody {
  body_data : State R → loc → list R;
  body_lora : State R → gmap loc (Tensor R);
  body_exit : State R → result unit;
}.

Definition run_body (body : ScopeBody) (s : State R) : State R :=
  mkState (map_imap (λ l t, Some (with_data t (body_data body s l))) (params s))
          (body_lora body s) (created s).

(** [LoRAPatcherExt.static_patch_model] used as [with ...: body].  An
    exception of [_patch_model] is raised before the [try] is entered;
    the [finally] block runs on both exits of the body, and an exception
    of its own replaces the body's. *)
Definition static_patch_model (model : Module) (prefix : string)
    (loras : list (LoRAModelRaw R * R))
    (cached_weights : option (gmap string (Tensor R)))
    (body : ScopeBody) : Stmt unit :=
  λ s,
    match _patch_model model prefix loras cached_weights s with
    | (Err e, s1) => (Err e, s1)
    | (Ok (modified_cached_weights, modified_weights), s1) =>
        let s2 := run_body body s1 in
        match restore model cached_weights modified_cached_weights
                      modified_weights s2 with
        | (Err e, s3) => (Err e, s3)
        | (Ok _, s3) => (body_exit body s1, s3)
        end
    end.

End Patcher.

Arguments ScopeBody R : clear implicits.
Arguments Stmt R A : clear implicits.
Arguments Book R : clear implicits.


(** ** The extension object: [LoRAPatcherExt.__init__] and [patch_unet] *)

Section Extension.

Context {R : Type} `{!Scalar R}.

Notation "'let*' x ':=' m 'in' k" := (bind m (λ x, k))
  (at level 10, x pattern, m at level 100, k at level 200).

(** [LoRAField], as far as the loader reads it: the identifier of the LoRA
    model ([lora.lora]) and the patch weight ([lora.weight]). *)
Record LoRAField : Type := mkLoRAField {
  lora : string;
  weight : R;
}.

(** [InvocationContext], as far as the loader uses it:
    [node_context.models.load(identifier).model], which returns the loaded
    LoRA model or raises. *)
Record InvocationContext : Type := mkContext {
  models_load : string → result (LoRAModelRaw R);
}.

Record LoRAPatcherExt : Type := mkExt {
  _loras : list LoRAField;
  _prefix : string;
  _node_context : InvocationContext;
}.

(** Lines 19-28. *)
Definition __init__ (node_context : InvocationContext) (loras : list LoRAField)
    (prefix : string) : LoRAPatcherExt :=
  mkExt loras prefix node_context.

(** Lines 32-38: the generator [_lora_loader()].  Its items are produced
    one by one as the consumer asks for them; an item is the pair
    [(lora_model, lora.weight)] or the exception of the load. *)
Definition _lora_loader (self : LoRAPatcherExt)
  : list (result (LoRAModelRaw R * R)) :=
  map (λ field,
         match models_load (_node_context self) (lora field) with
         | Ok lora_model => Ok (lora_model, weight field)
         | Err e => Err e
         end)
      (_loras self).

(** [_patch_model] on an iterator whose [next] may raise: the loop of line
    93 asks for one item at a time, so an exception of the iterator is
    raised after the items before it have been patched in. *)
Definition _patch_model_iter (model : Module) (prefix : string)
    (loras : list (result (LoRAModelRaw R * R)))
    (cached_weights : option (gmap string (Tensor R))) : Stmt R (Book R) :=
  let cached_weights := default ∅ cached_weights in
  for_each (λ item book,
              let* lora_item := lift item in
              patch_lora model prefix cached_weights lora_item book)
           loras (∅, []).

(** Lines 30-45: [patch_unet] used as [with ext.patch_unet(unet, cached)
    as book: body].  The generator yields the result of [_patch_model] and
    has nothing after its [yield]: nothing is restored when the scope
    ends, on either exit. *)
Definition patch_unet (self : LoRAPatcherExt) (unet : Module)
    (cached_weights : option (gmap string (Tensor R)))
    (body : Book R → ScopeBody R) : Stmt R unit :=
  λ s,
    match _patch_model_iter unet (_prefix self) (_lora_loader self)
                            cached_weights s with
    | (Err e, s1) => (Err e, s1)
    | (Ok book, s1) => (body_exit (body book) s1, run_body (body book) s1)
    end.

End Extension.

Arguments LoRAField R : clear implicits.
Arguments InvocationContext R : clear implicits.
Arguments LoRAPatcherExt R : clear implicits.

(** ** The loops of [_patch_model], unrolled

    Which module a layer key resolves to and which parameter a name
    addresses depend on the module tree only, never on the tensors.  The
    nested loops therefore unroll, for a given model, prefix and list of
    LoRAs, into one flat sequence of steps. *)

Section Plan.

Context {R : Type} `{!Scalar R}.

Notation "'let*' x ':=' m 'in' k" := (bind m (λ x, k))
  (at level 10, x pattern, m at level 100, k at level 200).

Inductive Step : Type :=
| SRaise (e : PyError)
    (* a lookup that fails: the run ends here *)
| SStage (layer : LoRALayer R) (module : Module) (w : loc)
    (* lines 111-124, for a module whose [weight] is at [w] *)
| SParam (param_key : string) (p : loc) (g : Given) (w : loc) (scale : R)
    (* lines 128-142 for the parameter at [p] and the delta [g] *)
| SUnstage (layer : LoRALayer R).
    (* line 144 *)

Definition exec_step (cached_weights : gmap string (Tensor R))
    (st : Step) (book : Book R) : Stmt R (Book R) :=
  match st with
  | SRaise e => lift (Err e)
  | SStage layer module w =>
      let* device_ := gets (λ s, device (params s !!! w)) in
      let* _ := modify (layer_to_device layer device_) in
      let* _ := modify (layer_to_dtype layer Float32) in
      let* _ := modify (λ s, set_created
                               (materialize (get_parameters layer module)
                                            (lora_tensors s)) s) in
      ret book
  | SParam param_key p g w scale =>
      let* dtype_ := gets (λ s, dtype (params s !!! w)) in
      patch_tensor cached_weights param_key p g dtype_ scale book
  | SUnstage layer =>
      let* _ := modify (layer_to_device layer CPU) in
      ret book
  end.

Definition param_step (module_key : string) (module : Module) (w : loc)
    (scale : R) (item : string * Delta R) : Step :=
  match get_parameter module item.1 with
  | Ok p => SParam (module_key +:+ "." +:+ item.1) p (given item) w scale
  | Err e => SRaise e
  end.

Definition layer_plan (model : Module) (prefix : string) (lora_weight : R)
    (item : string * LoRALayer R) : list Step :=
  if negb (PyStr.startswith prefix item.1) then []
  else
    match _resolve_lora_key model item.1 prefix with
    | Err e => [SRaise e]
    | Ok (module_key, module) =>
        match module_weight module with
        | Err e => [SRaise e]
        | Ok w =>
            SStage item.2 module w
            :: map (param_step module_key module w
                      (py_mul lora_weight (layer_scale item.2)))
                   (get_parameters item.2 module)
            ++ [SUnstage item.2]
        end
    end.

Definition lora_plan (model : Module) (prefix : string)
    (item : LoRAModelRaw R * R) : list Step :=
  flat_map (layer_plan model prefix item.2) (layers item.1).

Definition plan (model : Module) (prefix : string)
    (loras : list (LoRAModelRaw R * R)) : list Step :=
  flat_map (lora_plan model prefix) loras.

(** The pairs (canonical parameter key, parameter tensor) that the loops
    visit, in order. *)
Definition step_target (st : Step) : list (string * loc) :=
  match st with
  | SParam param_key p _ _ _ => [(param_key, p)]
  | _ => []
  end.

Definition targets (model : Module) (prefix : string)
    (loras : list (LoRAModelRaw R * R)) : list (string * loc) :=
  flat_map step_target (plan model prefix loras).

End Plan.

Arguments Step R : clear implicits.

(** ** Vocabulary of the statements *)

(** The dotted form [".t1.t2...tn"] that the resolver accumulates. *)
Fixpoint dotted (path : list string) : string :=
  match path with
  | [] => ""
  | t :: rest => "." +:+ t +:+ dotted rest
  end.

(** A path of non-empty, dot-free names. *)
Definition plain_name (t : string) : Prop := t ≠ "" ∧ PyStr.contains "." t = false.

(** The tokens of a plain layer key. *)
Definition plain_tokens (prefix key : string) : Prop :=
  Forall (λ t, t ≠ "") (PyStr.split "_" (PyStr.drop (String.length prefix) key)).

Section Vocabulary.

Context {R : Type} `{!Scalar R}.

(** Two tensors of the same shape, dtype and device, laid out alike:
    they differ in their elements at most. *)
Definition same_meta (t t' : Tensor R) : Prop :=
  shape t = shape t' ∧ dtype t = dtype t' ∧ device t = device t'
  ∧ viewable t = viewable t'.

(** Lines 137-139: the delta as it is multiplied and added, reshaped to
    the parameter's shape when the shapes differ. *)
Definition reconcile (module_param lora_param_weight : Tensor R)
  : result (Tensor R) :=
  if decide (shape module_param ≠ shape lora_param_weight)
  then reshape lora_param_weight (shape module_param)
  else Ok lora_param_weight.

(** A layer key whose tokens behind the prefix are all non-empty, and
    whose layer names its parameters without dots: such keys resolve to
    canonical keys that [get_parameter] finds again from the root. *)
Definition plain_layer (model : Module) (prefix : string)
    (item : string * LoRALayer R) : bool :=
  if negb (PyStr.startswith prefix item.1) then true
  else
    forallb (λ t, negb (bool_decide (t = "")))
            (PyStr.split "_" (PyStr.drop (String.length prefix) item.1))
    && match _resolve_lora_key model item.1 prefix with
       | Ok (_, module) =>
           forallb (λ it, negb (PyStr.contains "." it.1))
                   (get_parameters item.2 module)
       | Err _ => true
       end.

Definition plain_keys (model : Module) (prefix : string)
    (loras : list (LoRAModelRaw R * R)) : bool :=
  forallb (λ it, forallb (plain_layer model prefix) (layers it.1)) loras.

(** The canonical keys are found again: [model.get_parameter], which the
    [finally] block calls with each saved key, gives the tensor that was
    patched under that key. *)
Definition found_again (model : Module) (ts : list (string * loc)) : bool :=
  forallb (λ kp : string * loc,
             match get_parameter model kp.1 with
             | Ok p => bool_decide (p = kp.2)
             | Err _ => false
             end) ts.

(** No two different keys address one tensor (no tied parameters among
    the targets). *)
Definition untied (ts : list (string * loc)) : bool :=
  forallb (λ a, forallb (λ b,
     implb (bool_decide (a.2 = b.2)) (bool_decide (a.1 = b.1))) ts) ts.

(** [cached_weights] as "a read-only copy of the model's state dict": on
    every targeted key it holds, it has the shape, dtype and elements of
    the parameter in the stores [s]. *)
Definition snapshot (cached_weights : option (gmap string (Tensor R)))
    (ts : list (string * loc)) (s : State R) : Prop :=
  Forall (λ kp,
    match default ∅ cached_weights !! kp.1 with
    | Some t => shape t = shape (params s !!! kp.2)
                ∧ dtype t = dtype (params s !!! kp.2)
                ∧ data t = data (params s !!! kp.2)
    | None => True
    end) ts.


(** The two loops of the [finally] block as one loop over the pairs
    (key, source of the copy). *)
Definition copy_loop (model : Module) (items : list (string * result (Tensor R)))
  : Stmt R unit :=
  for_each (λ it _, copy_into model it.1 it.2) items tt.

Definition restore_items (cached_weights : option (gmap string (Tensor R)))
    (mcw : gset string) (mw : list (string * Tensor R))
  : list (string * result (Tensor R)) :=
  map (λ k, (k, subscript cached_weights k)) (elements mcw)
  ++ map (λ kv, (kv.1, Ok kv.2)) mw.

(** A key whose original the session holds: in [modified_cached_weights]
    or in [modified_weights]. *)
Definition saved (k : string) (book : Book R) : Prop :=
  k ∈ book.1 ∨ is_Some (assoc k book.2).

(** The bookkeeping of lines 129-135: a key goes to
    [modified_cached_weights] only if [cached_weights] has it, to
    [modified_weights] only if not, and there at most once. *)
Definition book_inv (cached : gmap string (Tensor R)) (book : Book R) : Prop :=
  (∀ k, k ∈ book.1 → is_Some (cached !! k))
  ∧ (∀ k, is_Some (assoc k book.2) → cached !! k = None)
  ∧ NoDup book.2.*1.

(** The saved values against the stores [s0] the session started from:
    every saved value is the CPU copy of the parameter as it was in [s0],
    and a parameter none of whose keys is saved is still as in [s0]. *)
Definition values_inv (ts : list (string * loc)) (s0 : State R)
    (book : Book R) (s : State R) : Prop :=
  (∀ k v, (k, v) ∈ book.2 →
          ∃ p, (k, p) ∈ ts ∧ v = detach_to_cpu (params s0 !!! p))
  ∧ (∀ p, (∀ k, (k, p) ∈ ts → ¬ saved k book) →
          params s !!! p = params s0 !!! p).

(** Stores whose tensors have the shapes and the layouts of those of
    [s]. *)
Definition same_layout (s s' : State R) : Prop :=
  (∀ p : loc, shape (params s' !!! p) = shape (params s !!! p))
  ∧ (∀ d : loc, shape (lora_tensors s' !!! d) = shape (lora_tensors s !!! d)
                ∧ viewable (lora_tensors s' !!! d)
                  = viewable (lora_tensors s !!! d)).

(** The tensors of the LoRA store that a step multiplies in place (line
    141): the layer's own tensor behind a delta, unless [reshape] has
    copied it.  Shapes and layouts do not change during a run, so they are
    read off the stores [s] the run starts from. *)
Definition step_scales (s : State R) (st : Step R) : list loc :=
  match st with
  | SParam _ p (Stored d) _ _ =>
      if shares (lora_tensors s !!! d) (shape (params s !!! p)) then [d] else []
  | _ => []
  end.

(** The tensors of the LoRA store that a step reads the elements of: the
    inputs of the tensors that [get_parameters] makes, and the layer's own
    tensor behind a delta. *)
Definition step_reads (st : Step R) : list loc :=
  match st with
  | SStage layer module _ =>
      flat_map (λ item : string * Delta R,
                  match item.2 with
                  | Own _ => []
                  | Product inputs _ => inputs
                  end) (get_parameters layer module)
  | SParam _ _ (Stored d) _ _ => [d]
  | _ => []
  end.

(** No step reads a tensor that an earlier step has multiplied in place:
    every delta is a tensor of its own, made by the call or handed out
    once. *)
Fixpoint reads_unscaled (s : State R) (done : list loc) (steps : list (Step R))
  : bool :=
  match steps with
  | [] => true
  | st :: rest =>
      forallb (λ d, bool_decide (d ∉ done)) (step_reads st)
      && reads_unscaled s (step_scales s st ++ done) rest
  end.

(** A tensor [t'] that differs from [t] by staging only: moved between
    devices and possibly cast to float32. *)
Definition staged (t t' : Tensor R) : Prop :=
  shape t' = shape t
  ∧ viewable t' = viewable t
  ∧ ((dtype t' = dtype t ∧ data t' = data t)
     ∨ (dtype t' = Float32 ∧ data t' = map (cast Float32) (data t))).

(** The stores as staging alone leaves them: what a step does to the
    LoRA layers apart from line 141. *)
Definition step_staging (st : Step R) (s : State R) : State R :=
  match st with
  | SStage layer module w =>
      let s1 := layer_to_dtype layer Float32
                  (layer_to_device layer (device (params s !!! w)) s) in
      set_created (materialize (get_parameters layer module) (lora_tensors s1)) s1
  | SUnstage layer => layer_to_device layer CPU s
  | _ => s
  end.

(** Line 142 on the elements: the sum of two tensors' elements, rounded
    into the dtype [dt] of the parameter. *)
Definition vadd_in (dt : DType) (a b : list R) : list R :=
  zip_with (λ x y, cast dt (radd x y)) a b.

(** What [t += x] leaves in [t] for an [x] of the shape of [t]. *)
Definition sum_into (t x : Tensor R) : Tensor R :=
  with_data t (vadd_in (dtype t) (data t) (data x)).

(** [scale * delta] on the elements: each element of the delta times
    [scale], rounded in the dtype of the delta, and converted to the dtype
    [dt] when that is another one. *)
Definition scaled_delta (dt : DType) (scale : R) (delta : Tensor R) : list R :=
  map (λ x, let y := cast (dtype delta) (rmul x scale) in
            if decide (dtype delta = dt) then y else cast dt y)
      (data delta).

(** The contribution of a parameter step, [weight * layer_scale * delta]:
    the elements of the delta that the dict gives, times [scale], in the
    dtype of [module.weight]. *)
Definition contribution (st : Step R) (s : State R) : list (loc * list R) :=
  match st with
  | SParam _ p g w scale =>
      [(p, scaled_delta (dtype (params s !!! w)) scale (given_tensor g s))]
  | _ => []
  end.

(** The contributions of a run, in order, each from the delta as its LoRA
    layer provides it: the LoRA store is followed through the staging of
    the steps, and through nothing else. *)
Fixpoint contributions (steps : list (Step R)) (s : State R)
  : list (loc * list R) :=
  match steps with
  | [] => []
  | st :: rest => contribution st s ++ contributions rest (step_staging st s)
  end.

(** The stores [sa] of a run against the stores [sp] that staging alone
    gives: the LoRA tensors agree except where the run has multiplied in
    place, the made tensors agree, and the parameters have the same
    shapes, dtypes and devices. *)
Definition agree (done : list loc) (sa sp : State R) : Prop :=
  (∀ d : loc, d ∉ done → lora_tensors sa !!! d = lora_tensors sp !!! d)
  ∧ created sa = created sp
  ∧ (∀ p : loc, same_meta (params sa !!! p) (params sp !!! p)).

Definition contributions_at (p : loc) (cs : list (loc * list R)) : list (list R) :=
  flat_map (λ c, if decide (c.1 = p) then [c.2] else []) cs.

End Vocabulary.

(** ** Vocabulary of the further properties *)

Section ExtraVocabulary.

Context {R : Type} `{!Scalar R}.

(** A LoRA spec without the layers whose key does not start with the
    prefix. *)
Definition matching_layers (prefix : string) (lora_model : LoRAModelRaw R)
  : LoRAModelRaw R :=
  mkLoRA (List.filter (λ item, PyStr.startswith prefix item.1) (layers lora_model)).

Definition matching (prefix : string) (loras : list (LoRAModelRaw R * R))
  : list (LoRAModelRaw R * R) :=
  map (λ item, (matching_layers prefix item.1, item.2)) loras.

(** How a statement ended: normally, or with which exception. *)
Definition raised {A : Type} (r : result A) : option PyError :=
  match r with Ok _ => None | Err e => Some e end.

(** A LoRA tensor as line 144 leaves it: on the CPU, and still in the
    float32 of line 120. *)
Definition at_rest (t : Tensor R) : Prop :=
  device t = CPU ∧ dtype t = Float32.

(** A scope body that leaves the elements of the parameters alone. *)
Definition quiet (body : ScopeBody R) : Prop :=
  ∀ (s : State R) (l : loc), body_data body s l = data (params s !!! l).

(** The (model, weight) pairs of the fields whose model loads. *)
Definition loaded (ctx : InvocationContext R) (fields : list (LoRAField R))
  : list (LoRAModelRaw R * R) :=
  flat_map (λ field,
              match models_load ctx (lora field) with
              | Ok lora_model => [(lora_model, weight field)]
              | Err _ => []
              end) fields.

End ExtraVocabulary.
(** ** Integers as floating-point values

    An integer is a value of every floating dtype once it is rounded to
    the significand of that dtype (to nearest, ties to even): float16
    holds every integer up to 2048 and every second one up to 4096.  Sums
    and products are the exact ones, which the operations round into their
    dtype with [cast].  Overflow is left out, and the quotient is that of
    the integers, which is the quotient of the floats when the division
    leaves no remainder. *)
Definition precision (d : DType) : Z :=
  match d with
  | Float16 => 11
  | BFloat16 => 8
  | Float32 => 24
  | Float64 => 53
  end.

Definition round_to (bits : Z) (z : Z) : Z :=
  let drop := Z.log2 (Z.abs z) + 1 - bits in
  if drop <=? 0 then z
  else
    let unit := 2 ^ drop in
    let low := z / unit in
    let rest := z mod unit in
    let half := unit / 2 in
    if rest <? half then low * unit
    else if half <? rest then (low + 1) * unit
    else if Z.even low then low * unit
    else (low + 1) * unit.

Global Instance Z_Scalar : Scalar Z := {|
  rone := 1;
  radd := Z.add;
  rmul := Z.mul;
  rdiv := Z.div;
  r_of_Z := λ z, z;
  r_is_zero := λ z, z =? 0;
  cast := λ d z, round_to (precision d) z;
|}.

(** ** A small model and LoRA for examples

    The model of the specification's scenario: a module [foo.bar_baz] with
    a [weight] of shape [[2; 2]], all zero. *)
Module Scenario.

Definition zeros22 : Tensor Z := mkTensor [2%nat; 2%nat] Float32 CPU [0; 0; 0; 0] true.
Definition ones22 : Tensor Z := mkTensor [2%nat; 2%nat] Float16 CPU [1; 1; 1; 1] true.

Definition bar_baz : Module := Mod [("weight", 0%nat)] [].
Definition foo : Module := Mod [] [("bar_baz", bar_baz)].
Definition model : Module := Mod [] [("foo", foo)].

Definition layer : LoRALayer Z :=
  mkLayer (Some 4) (Some 4) [0%nat] (λ _, [("weight", Own 0%nat)]).
Definition lora : LoRAModelRaw Z := mkLoRA [("lora_unet_foo_bar_baz", layer)].

(** A second LoRA for the same module; its delta tensor is at address 1. *)
Definition layer' : LoRALayer Z :=
  mkLayer (Some 4) (Some 4) [1%nat] (λ _, [("weight", Own 1%nat)]).
Definition lora' : LoRAModelRaw Z := mkLoRA [("lora_unet_foo_bar_baz", layer')].

Definition s0 : State Z :=
  mkState {[0%nat := zeros22]} {[0%nat := ones22; 1%nat := ones22]} ∅.

Definition idle : ScopeBody Z :=
  mkBody (λ s l, data (params s !!! l)) (λ s, lora_tensors s) (λ _, Ok tt).

(** An accurate and a stale [cached_weights] for the scenario. *)
Definition key : string := "foo.bar_baz.weight".
Definition accurate_cache : option (gmap string (Tensor Z)) :=
  Some {[key := zeros22]}.

(** The same LoRA with a doubled underscore in its layer key. *)
Definition lora_empty_token : LoRAModelRaw Z :=
  mkLoRA [("lora_unet_foo__bar_baz", layer)].



(** Layers for the cases of the layer scale. *)
Definition scaled_layer : LoRALayer Z := mkLayer (Some 8) (Some 4) [] (λ _, []).
Definition zero_alpha_layer : LoRALayer Z := mkLayer (Some 0) (Some 4) [] (λ _, []).

(** The scenario of the specification: a parameter of shape [[2; 8]], a
    delta of 16 elements, and a delta of 15. *)
Definition param28 : Tensor Z := mkTensor [2%nat; 8%nat] Float32 CPU (replicate 16 0) true.
Definition delta16 : Tensor Z := mkTensor [16%nat] Float32 CPU (replicate 16 1) true.
Definition delta15 : Tensor Z := mkTensor [15%nat] Float32 CPU (replicate 15 1) true.
Definition s_shapes : State Z :=
  mkState {[0%nat := param28]} {[0%nat := delta16; 1%nat := delta15]} ∅.

(** A layer that makes its delta when asked: the element-wise product of
    its two tensors, a new tensor at every call. *)
Definition times (ts : list (Tensor Z)) : Tensor Z :=
  match ts with
  | [a; b] => with_data a (zip_with Z.mul (data a) (data b))
  | _ => inhabitant
  end.
Definition product_layer : LoRALayer Z :=
  mkLayer (Some 4) (Some 4) [0%nat; 1%nat]
          (λ _, [("weight", Product [0%nat; 1%nat] times)]).
Definition product_lora : LoRAModelRaw Z :=
  mkLoRA [("lora_unet_foo_bar_baz", product_layer)].

(** A layer that hands out its own tensor, of four elements in a row and
    laid out so that [reshape] has to copy it. *)
Definition row4 : Tensor Z := mkTensor [4%nat] Float32 CPU [1; 1; 1; 1] false.
Definition copied_layer : LoRALayer Z :=
  mkLayer (Some 4) (Some 4) [2%nat] (λ _, [("weight", Own 2%nat)]).
Definition copied_lora : LoRAModelRaw Z :=
  mkLoRA [("lora_unet_foo_bar_baz", copied_layer)].
Definition s_row : State Z :=
  mkState {[0%nat := zeros22]} {[2%nat := row4]} ∅.

(** A float16 weight that holds 2048, where float16 has no odd numbers. *)
Definition half22 : Tensor Z :=
  mkTensor [2%nat; 2%nat] Float16 CPU [2048; 2048; 2048; 2048] true.
Definition s_half : State Z :=
  mkState {[0%nat := half22]} {[0%nat := ones22; 1%nat := ones22]} ∅.

End Scenario.


(** A second scenario: a model with a module that no LoRA targets, a
    module weight on a CUDA device, a LoRA with a layer for another
    prefix, and an invocation context that knows two LoRA models. *)
Module Deployment.

Import Scenario.

Definition ones22_f32 : Tensor Z := mkTensor [2%nat; 2%nat] Float32 CPU [1; 1; 1; 1] true.

Definition other : Module := Mod [("weight", 5%nat)] [].
Definition wide_model : Module := Mod [] [("foo", foo); ("other", other)].
Definition s_wide : State Z :=
  mkState {[0%nat := zeros22; 5%nat := ones22_f32]}
          {[0%nat := ones22; 1%nat := ones22]} ∅.

Definition param28_cuda : Tensor Z :=
  mkTensor [2%nat; 8%nat] Float16 (CUDA 0) (replicate 16 0) true.
Definition delta15_f16 : Tensor Z := mkTensor [15%nat] Float16 CPU (replicate 15 1) true.
Definition s_cuda : State Z :=
  mkState {[0%nat := param28_cuda]} {[1%nat := delta15_f16]} ∅.

Definition mixed : LoRAModelRaw Z :=
  mkLoRA [("lora_te_foo", layer'); ("lora_unet_foo_bar_baz", layer)].

Definition ctx : InvocationContext Z :=
  mkContext (λ identifier,
               if decide (identifier = "first") then Ok lora
               else if decide (identifier = "second") then Ok lora'
               else Err KeyError).

Definition first_field : LoRAField Z := mkLoRAField "first" 3.
Definition second_field : LoRAField Z := mkLoRAField "second" 5.
Definition missing_field : LoRAField Z := mkLoRAField "missing" 1.

End Deployment.
(** * Properties *)

(** ** Strings *)

Section StringFacts.

Lemma app_nil_l (s : string) : "" +:+ s = s.
Proof. reflexivity. Qed.

Lemma app_cons (a : ascii) (s t : string) : String a s +:+ t = String a (s +:+ t).
Proof. reflexivity. Qed.

Lemma app_nil_r (s : string) : s +:+ "" = s.
Proof. induction s as [|a s IH]; [done|]. by rewrite app_cons, IH. Qed.

Lemma app_assoc (s t u : string) : (s +:+ t) +:+ u = s +:+ t +:+ u.
Proof. induction s as [|a s IH]; [done|]. by rewrite !app_cons, IH. Qed.

Lemma contains_app (c : ascii) (s t : string) :
  PyStr.contains c (s +:+ t) = PyStr.contains c s || PyStr.contains c t.
Proof.
  induction s as [|a s IH]; [done|].
  rewrite app_cons. simpl. by destruct (Ascii.eqb a c).
Qed.

Lemma dotted_join (path : list string) :
  path ≠ [] → dotted path = "." +:+ PyStr.join "." path.
Proof.
  induction path as [|t [|t' rest] IH]; intros Hne; [done| |].
  - simpl. by rewrite app_nil_r.
  - change (dotted (t :: t' :: rest)) with ("." +:+ t +:+ dotted (t' :: rest)).
    rewrite IH by done. reflexivity.
Qed.

Lemma lstrip_dotted (path : list string) :
  path ≠ [] →
  PyStr.lstrip "." (dotted path) = PyStr.lstrip "." (PyStr.join "." path).
Proof. intros Hne. by rewrite dotted_join. Qed.

End StringFacts.

(** ** The key resolver *)

Section Resolver.

(** The loop of the source against the descent of the specification:
    what the loop leaves for the final descent is what the descent
    returns. *)
Lemma resolve_loop_descend (tokens : list string) :
  ∀ (m : Module) (mk acc : string),
    match resolve_loop m mk acc tokens with
    | (m', mk', name) =>
        match get_submodule m' name with
        | Ok leaf =>
            ∃ path, path ≠ []
              ∧ spec_descend m acc tokens = Ok (path, leaf)
              ∧ mk' +:+ "." +:+ name = mk +:+ dotted path
        | Err e => spec_descend m acc tokens = Err e
        end
    end.
Proof.
  induction tokens as [|next rest IH]; intros m mk acc; simpl.
  - destruct (get_submodule m acc) as [leaf|e] eqn:Hg; [|done].
    exists [acc]. split; [done|]. split; [done|].
    simpl. by rewrite app_nil_r.
  - destruct (get_submodule m acc) as [child|e] eqn:Hg.
    + specialize (IH child (mk +:+ "." +:+ acc) next).
      destruct (resolve_loop child (mk +:+ "." +:+ acc) next rest)
        as [[m' mk'] name].
      destruct (get_submodule m' name) as [leaf|e'].
      * destruct IH as (path & Hne & -> & Hk).
        exists (acc :: path). split; [done|]. split; [done|].
        rewrite Hk. simpl. by rewrite !app_assoc.
      * by rewrite IH.
    + apply IH.
Qed.

End Resolver.

(** ** Canonical keys are found again from the root

    [_patch_model] reaches a parameter from the resolved module by its
    name; the [finally] block reaches it from the root by the canonical
    key.  For plain keys the two lookups agree. *)

Section Keys.

Implicit Types (s t : string) (c sep : ascii).

Lemma contains_drop c (n : nat) s :
  PyStr.contains c s = false → PyStr.contains c (PyStr.drop n s) = false.
Proof.
  revert s. induction n as [|n IH]; intros [|a s]; simpl; try done.
  destruct (Ascii.eqb a c); [done|]. apply IH.
Qed.

Lemma split_no_sep sep s : PyStr.contains sep s = false → PyStr.split sep s = [s].
Proof.
  induction s as [|a s IH]; simpl; [done|].
  destruct (Ascii.eqb a sep); [done|]. intros H. by rewrite IH.
Qed.

Lemma split_app_sep sep s t :
  PyStr.contains sep s = false →
  PyStr.split sep (s +:+ String sep t) = s :: PyStr.split sep t.
Proof.
  induction s as [|a s IH]; intros H.
  - rewrite app_nil_l. simpl. by rewrite Ascii.eqb_refl.
  - simpl in H. destruct (Ascii.eqb a sep) eqn:Ha; [done|].
    rewrite app_cons. simpl. by rewrite Ha, IH.
Qed.

(** No piece of a split contains a character that the string lacks. *)
Lemma split_pieces c sep s :
  PyStr.contains c s = false →
  Forall (λ t, PyStr.contains c t = false) (PyStr.split sep s).
Proof.
  induction s as [|a s IH]; simpl; [by repeat constructor|].
  destruct (Ascii.eqb a c) eqn:Hac; [done|]. intros H.
  specialize (IH H).
  destruct (Ascii.eqb a sep).
  - by constructor.
  - destruct (PyStr.split sep s) as [|h r]; [by repeat constructor; simpl; rewrite Hac|].
    inversion IH; subst. constructor; [|done]. simpl. by rewrite Hac.
Qed.

Lemma rpartition_none sep s :
  PyStr.contains sep s = false → PyStr.rpartition sep s = None.
Proof.
  induction s as [|a s IH]; simpl; [done|].
  destruct (Ascii.eqb a sep); [done|]. intros H. by rewrite IH.
Qed.

Lemma rpartition_app sep s t :
  PyStr.contains sep t = false →
  PyStr.rpartition sep (s +:+ String sep t) = Some (s, t).
Proof.
  intros Ht. induction s as [|a s IH].
  - rewrite app_nil_l. simpl. by rewrite rpartition_none, Ascii.eqb_refl.
  - rewrite app_cons. simpl. by rewrite IH.
Qed.

Lemma lstrip_plain c s :
  s ≠ "" → PyStr.contains c s = false → ∀ t, PyStr.lstrip c (s +:+ t) = s +:+ t.
Proof.
  destruct s as [|a s]; [done|]. simpl.
  destruct (Ascii.eqb a c) eqn:Ha; [done|]. intros _ _ t.
  by rewrite app_cons.
Qed.

Lemma join_cons_app (t : string) (path : list string) :
  ∃ u, PyStr.join "." (t :: path) = t +:+ u.
Proof.
  destruct path as [|t' path].
  - exists "". simpl. by rewrite app_nil_r.
  - by eexists.
Qed.

Lemma join_nonempty (path : list string) :
  Forall plain_name path → path ≠ [] → PyStr.join "." path ≠ "".
Proof.
  destruct path as [|t path]; [done|]. intros Hall _.
  inversion Hall as [|? ? [Ht _] _]; subst.
  destruct (join_cons_app t path) as [u ->].
  destruct t; [done|]. by rewrite app_cons.
Qed.

Lemma split_join (path : list string) :
  Forall plain_name path → path ≠ [] →
  PyStr.split "." (PyStr.join "." path) = path.
Proof.
  induction path as [|t [|t' rest] IH]; intros Hall Hne; [done| |].
  - inversion Hall as [|? ? [_ Ht] _]; subst. by apply split_no_sep.
  - inversion Hall as [|? ? [_ Ht] Hrest]; subst.
    change (PyStr.join "." (t :: t' :: rest))
      with (t +:+ String "." (PyStr.join "." (t' :: rest))).
    rewrite split_app_sep by done. by rewrite IH.
Qed.

Lemma get_submodule_plain (m : Module) (name : string) :
  plain_name name → get_submodule m name = walk m [name].
Proof.
  intros [Hne Hdot]. unfold get_submodule.
  rewrite decide_False by done. by rewrite split_no_sep.
Qed.

Lemma walk_app (m : Module) (xs ys : list string) :
  walk m (xs ++ ys)
  = match walk m xs with Ok m' => walk m' ys | Err e => Err e end.
Proof.
  revert m. induction xs as [|x xs IH]; intros m; [done|]. simpl.
  destruct (getattr m x) as [[p|c]|]; auto.
Qed.

Lemma plain_name_extend (acc next : string) :
  plain_name acc → PyStr.contains "." next = false →
  plain_name (acc +:+ "_" +:+ next).
Proof.
  intros [Hne Hdot] Hnext. split.
  - destruct acc; [done|]. by rewrite app_cons.
  - rewrite !contains_app, Hdot, Hnext. reflexivity.
Qed.

(** The path of a successful descent over plain tokens is a path of plain
    names that [walk] follows from the starting module. *)
Lemma spec_descend_plain (tokens : list string) :
  ∀ (m : Module) (acc : string) (path : list string) (leaf : Module),
    plain_name acc →
    Forall plain_name tokens →
    spec_descend m acc tokens = Ok (path, leaf) →
    Forall plain_name path ∧ path ≠ [] ∧ walk m path = Ok leaf.
Proof.
  induction tokens as [|next rest IH]; intros m acc path leaf Hacc Htok; simpl.
  - rewrite get_submodule_plain by done.
    destruct (walk m [acc]) as [leaf'|e] eqn:Hw; [|done].
    intros ?; simplify_eq. split; [by apply Forall_singleton|]. by split.
  - inversion Htok as [|? ? Hnext Hrest]; subst.
    rewrite get_submodule_plain by done.
    destruct (walk m [acc]) as [child|e] eqn:Hw.
    + destruct (spec_descend child next rest) as [[path' leaf']|e] eqn:Hd; [|done].
      intros ?; simplify_eq.
      destruct (IH child next path' leaf Hnext Hrest Hd) as (Hall & _ & Hwalk).
      split; [by constructor|]. split; [done|].
      change (acc :: path') with ([acc] ++ path').
      by rewrite walk_app, Hw.
    + apply IH; [|done]. apply plain_name_extend; [done|apply Hnext].
Qed.

(** What [_resolve_lora_key] returns for a plain key: the dot-joined path
    of plain names from the root to the module. *)
Lemma resolve_plain (model : Module) (key prefix mk : string) (module : Module) :
  plain_tokens prefix key →
  _resolve_lora_key model key prefix = Ok (mk, module) →
  ∃ path, Forall plain_name path ∧ path ≠ []
          ∧ mk = PyStr.join "." path ∧ walk model path = Ok module.
Proof.
  intros Htok Hres.
  destruct (PyStr.contains "." key) eqn:Hdot.
  { unfold _resolve_lora_key in Hres. by rewrite Hdot in Hres. }
  destruct (PyStr.startswith prefix key) eqn:Hpre; cycle 1.
  { unfold _resolve_lora_key in Hres. by rewrite Hdot, Hpre in Hres. }
  pose proof (split_pieces "." "_" _ (contains_drop "." (String.length prefix) key Hdot))
    as Hdots.
  assert (Forall plain_name
            (PyStr.split "_" (PyStr.drop (String.length prefix) key))) as Hplain.
  { unfold plain_tokens in Htok. rewrite Forall_forall in *.
    intros t Ht. split; auto. }
  unfold _resolve_lora_key in Hres. rewrite Hdot, Hpre in Hres. simpl in Hres.
  destruct (PyStr.split "_" (PyStr.drop (String.length prefix) key))
    as [|first rest] eqn:Hs; [done|].
  inversion Hplain as [|? ? Hfirst Hrest]; subst.
  pose proof (resolve_loop_descend rest model "" first) as H.
  destruct (resolve_loop model "" first rest) as [[m' mk'] name].
  destruct (get_submodule m' name) as [leaf|e]; [|done].
  destruct H as (path & Hne & Hd & Hk). simplify_eq.
  destruct (spec_descend_plain rest model first path module Hfirst Hrest Hd)
    as (Hall & _ & Hwalk).
  exists path. split; [done|]. split; [done|]. split; [|done].
  rewrite Hk, app_nil_l, dotted_join by done.
  destruct path as [|t path]; [done|].
  inversion Hall as [|? ? [Ht Htd] _]; subst.
  destruct (join_cons_app t path) as [u ->].
  change ("." +:+ t +:+ u) with (String "." (t +:+ u)).
  simpl. by apply lstrip_plain.
Qed.

(** The parameter a layer's name addresses in the resolved module is the
    parameter the canonical key addresses in the model. *)
Lemma canonical_key_coherent (model module : Module) (key prefix mk name : string) :
  plain_tokens prefix key →
  _resolve_lora_key model key prefix = Ok (mk, module) →
  PyStr.contains "." name = false →
  get_parameter model (mk +:+ "." +:+ name) = get_parameter module name.
Proof.
  intros Htok Hres Hname.
  destruct (resolve_plain model key prefix mk module Htok Hres)
    as (path & Hall & Hne & -> & Hwalk).
  unfold get_parameter.
  change (PyStr.join "." path +:+ "." +:+ name)
    with (PyStr.join "." path +:+ String "." name).
  rewrite rpartition_app, rpartition_none by done.
  unfold get_submodule at 2. rewrite decide_True by done.
  unfold get_submodule. rewrite decide_False by (by apply join_nonempty).
  by rewrite split_join, Hwalk.
Qed.

End Keys.

(** ** The run of [_patch_model] as a flat sequence of steps *)

Section Flatten.

Context {R : Type} `{!Scalar R}.

Implicit Types (s : State R) (book : Book R) (t : Tensor R).

Lemma same_meta_trans t1 t2 t3 :
  same_meta t1 t2 → same_meta t2 t3 → same_meta t1 t3.
Proof. intros (?&?&?&?) (?&?&?&?). repeat split; congruence. Qed.

Lemma for_each_app {A B : Type} (body : A → B → Stmt R B) (xs ys : list A) :
  ∀ (acc : B) s,
    for_each body (xs ++ ys) acc s
    = bind (for_each body xs acc) (for_each body ys) s.
Proof.
  induction xs as [|x xs IH]; intros acc s; [reflexivity|].
  simpl. unfold bind. destruct (body x acc s) as [[acc'|e] s']; [|done].
  rewrite IH. reflexivity.
Qed.

Lemma for_each_cons {A B : Type} (body : A → B → Stmt R B) (x : A) (xs : list A)
    (acc : B) s :
  for_each body (x :: xs) acc s
  = match body x acc s with
    | (Ok acc', s') => for_each body xs acc' s'
    | (Err e, s') => (Err e, s')
    end.
Proof. reflexivity. Qed.

Lemma for_each_ext {A B : Type} (f g : A → B → Stmt R B) (xs : list A) :
  (∀ x acc s, f x acc s = g x acc s) →
  ∀ acc s, for_each f xs acc s = for_each g xs acc s.
Proof.
  intros Hfg. induction xs as [|x xs IH]; intros acc s; [done|].
  simpl. unfold bind. rewrite Hfg. destruct (g x acc s) as [[acc'|e] s']; [|done].
  apply IH.
Qed.

Lemma for_each_flat_map {A B C : Type} (f : A → list C)
    (outer : A → B → Stmt R B) (inner : C → B → Stmt R B) (xs : list A) :
  (∀ x acc s, outer x acc s = for_each inner (f x) acc s) →
  ∀ acc s, for_each outer xs acc s = for_each inner (flat_map f xs) acc s.
Proof.
  intros Hout. induction xs as [|x xs IH]; intros acc s; [done|].
  simpl. rewrite for_each_app. unfold bind. rewrite Hout.
  destruct (for_each inner (f x) acc s) as [[acc'|e] s']; [|done].
  apply IH.
Qed.

(** *** The staging operations touch the LoRA store only *)

Lemma layer_to_device_params layer dev s :
  params (layer_to_device layer dev s) = params s.
Proof.
  unfold layer_to_device. generalize (tensors layer) as ls.
  intros ls. revert s. induction ls as [|l ls IH]; intros s; [done|].
  simpl. by rewrite IH.
Qed.

Lemma layer_to_dtype_params layer d s :
  params (layer_to_dtype layer d s) = params s.
Proof.
  unfold layer_to_dtype. generalize (tensors layer) as ls.
  intros ls. revert s. induction ls as [|l ls IH]; intros s; [done|].
  simpl. by rewrite IH.
Qed.

Lemma step_staging_params (st : Step R) s :
  params (step_staging st s) = params s.
Proof.
  destruct st as [e|layer module w|key p g w sc|layer]; simpl; [done| |done|].
  - by rewrite layer_to_dtype_params, layer_to_device_params.
  - by rewrite layer_to_device_params.
Qed.

(** The staging steps do nothing else. *)
Lemma exec_stage cached layer module (w : loc) book s :
  exec_step cached (SStage layer module w) book s
  = (Ok book, step_staging (SStage layer module w) s).
Proof. reflexivity. Qed.

Lemma exec_unstage cached layer book s :
  exec_step cached (SUnstage layer) book s
  = (Ok book, step_staging (SUnstage layer) s).
Proof. reflexivity. Qed.

(** *** [patch_tensor], statement by statement *)

Lemma scale_in_place_params (g : Given) shp (t scaled : Tensor R) s :
  params (scale_in_place g shp t scaled s) = params s.
Proof. unfold scale_in_place. destruct g; [|done]. by destruct (shares _ _). Qed.

Lemma reconcile_shape (mp lw view : Tensor R) :
  reconcile mp lw = Ok view →
  shape view = shape mp ∧ dtype view = dtype lw ∧ data view = data lw.
Proof.
  unfold reconcile, reshape. intros H.
  destruct (decide (shape mp ≠ shape lw)) as [Hne|Heq].
  - destruct (decide _); [|done]. by simplify_eq.
  - simplify_eq. split; [|done]. symmetry. by apply dec_stable.
Qed.

Lemma to_dtype_shape (d : DType) (t : Tensor R) : shape (to_dtype d t) = shape t.
Proof. unfold to_dtype. by destruct (decide _). Qed.

Lemma expand_same_shape (t : Tensor R) : expand (shape t) t = Some (data t).
Proof. unfold expand. by rewrite decide_True. Qed.

(** [+=] with an operand of the shape of the destination does not raise. *)
Lemma iadd_same_shape (t x : Tensor R) :
  shape x = shape t → iadd t x = Ok (sum_into t x).
Proof. intros Hs. unfold iadd. by rewrite <- Hs, expand_same_shape. Qed.

Lemma patch_tensor_unfold cached key p g dt sc book s :
  patch_tensor cached key p g dt sc book s
  = match reconcile (params s !!! p) (given_tensor g s) with
    | Err e => (Err e, s)
    | Ok view =>
        (Ok (save_original cached key (params s !!! p) book),
         set_param p (sum_into (params s !!! p) (to_dtype dt (imul view sc)))
           (scale_in_place g (shape (params s !!! p)) (given_tensor g s)
                           (imul view sc) s))
    end.
Proof.
  unfold patch_tensor. unfold bind at 1. unfold gets at 1.
  unfold bind at 1. unfold gets at 1.
  unfold bind at 1. unfold lift at 1. fold (reconcile (params s !!! p) (given_tensor g s)).
  destruct (reconcile _ _) as [view|e] eqn:Hv; [|done].
  apply reconcile_shape in Hv as (Hs & _ & _).
  unfold bind at 1. unfold modify at 1.
  unfold bind at 1. unfold lift at 1.
  rewrite iadd_same_shape; [done|].
  by rewrite to_dtype_shape.
Qed.

Lemma exec_param cached (k : string) (p : loc) (g : Given) (w : loc) sc book s :
  exec_step cached (SParam k p g w sc) book s
  = patch_tensor cached k p g (dtype (params s !!! w)) sc book s.
Proof. reflexivity. Qed.

(** *** Every step keeps the shape, dtype and device of every parameter *)

Lemma exec_step_meta cached st book s (l : loc) :
  same_meta (params (exec_step cached st book s).2 !!! l) (params s !!! l).
Proof.
  destruct st as [e|layer module w|key p g w sc|layer].
  - done.
  - rewrite exec_stage. cbn [snd]. by rewrite step_staging_params.
  - simpl. unfold bind at 1. unfold gets at 1. rewrite patch_tensor_unfold.
    destruct (reconcile _ _) as [view|e]; [|done]. cbn [snd].
    unfold set_param. cbn [params]. rewrite scale_in_place_params.
    destruct (decide (p = l)) as [->|Hne].
    + by rewrite lookup_total_insert_eq.
    + by rewrite lookup_total_insert_ne.
  - rewrite exec_unstage. cbn [snd]. by rewrite step_staging_params.
Qed.

Lemma exec_meta cached (steps : list (Step R)) :
  ∀ book s (l : loc),
    same_meta (params (for_each (exec_step cached) steps book s).2 !!! l)
              (params s !!! l).
Proof.
  induction steps as [|st steps IH]; intros book s l; [done|].
  simpl. unfold bind.
  pose proof (exec_step_meta cached st book s l) as Hst.
  destruct (exec_step cached st book s) as [[book'|e] s']; simpl in *; [|done].
  eapply same_meta_trans; [apply IH|done].
Qed.

(** *** The nested loops are the run of the plan *)

Lemma patch_params_plan cached mk module w sc (items : list (string * Delta R)) :
  ∀ book s,
    for_each (patch_param cached mk module (dtype (params s !!! w)) sc) items book s
    = for_each (exec_step cached) (map (param_step mk module w sc) items) book s.
Proof.
  induction items as [|[name d] items IH]; intros book s; [reflexivity|].
  cbn [for_each map].
  assert (patch_param cached mk module (dtype (params s !!! w)) sc (name, d) book s
          = exec_step cached (param_step mk module w sc (name, d)) book s) as Hst.
  { unfold patch_param, param_step. simpl.
    unfold bind at 1. unfold lift at 1.
    by destruct (get_parameter module name). }
  unfold bind. rewrite Hst.
  pose proof (exec_step_meta cached (param_step mk module w sc (name, d)) book s w)
    as (_ & Hdt & _).
  destruct (exec_step cached _ book s) as [[book'|e] s']; simpl in *; [|done].
  rewrite <- Hdt. apply IH.
Qed.

Lemma patch_layer_plan model prefix cached lora_weight
    (item : string * LoRALayer R) book s :
  patch_layer model prefix cached lora_weight item book s
  = for_each (exec_step cached) (layer_plan model prefix lora_weight item) book s.
Proof.
  destruct item as [key layer]. unfold patch_layer, layer_plan. simpl.
  destruct (negb (PyStr.startswith prefix key)); [done|].
  unfold bind at 1. unfold lift at 1.
  destruct (_resolve_lora_key model key prefix) as [[mk module]|e]; [|done].
  unfold bind at 1. unfold lift at 1.
  destruct (module_weight module) as [w|e]; [|done].
  rewrite for_each_cons.
  set (s1 := step_staging (SStage layer module w) s).
  assert (params s1 = params s) as Hp.
  { unfold s1. simpl. by rewrite layer_to_dtype_params, layer_to_device_params. }
  change (exec_step cached (SStage layer module w) book s) with (Ok book, s1).
  cbv iota beta. rewrite for_each_app.
  unfold bind, gets, modify, ret. fold s1.
  rewrite <- patch_params_plan. rewrite Hp.
  change (set_created _ _) with s1.
  by destruct (for_each _ _ book s1) as [[book'|e] s'].
Qed.

Lemma patch_model_plan model prefix loras cached_weights s :
  _patch_model model prefix loras cached_weights s
  = for_each (exec_step (default ∅ cached_weights))
             (plan model prefix loras) (∅, []) s.
Proof.
  unfold _patch_model, plan.
  apply for_each_flat_map. intros [lora w] acc s'.
  unfold patch_lora, lora_plan. simpl.
  apply for_each_flat_map. intros item acc' s''.
  apply patch_layer_plan.
Qed.

End Flatten.

Section Abort.

Context {R : Type} `{!Scalar R}.

(** An exception inside the loops ends the whole of [_patch_model]: when
    the steps before a step succeed and that step raises, [_patch_model]
    raises the same exception and leaves the stores as that step left
    them.  There is no rollback of the earlier steps. *)
Lemma patch_model_aborts (model : Module) (prefix : string)
    (loras : list (LoRAModelRaw R * R))
    (cached_weights : option (gmap string (Tensor R)))
    (before after : list (Step R)) (st : Step R) (s0 s s' : State R)
    (book : Book R) (e : PyError) :
  plan model prefix loras = before ++ st :: after →
  for_each (exec_step (default ∅ cached_weights)) before (∅, []) s0 = (Ok book, s) →
  exec_step (default ∅ cached_weights) st book s = (Err e, s') →
  _patch_model model prefix loras cached_weights s0 = (Err e, s').
Proof.
  intros Hplan Hbefore Hst.
  rewrite patch_model_plan, Hplan, for_each_app. unfold bind.
  by rewrite Hbefore, for_each_cons, Hst.
Qed.

End Abort.

(** ** The [finally] block and the scope body *)

Section Restore.

Context {R : Type} `{!Scalar R}.

Implicit Types (s : State R) (t : Tensor R).

Lemma tensor_eq t t' : same_meta t t' → data t = data t' → t = t'.
Proof. destruct t, t'. intros (?&?&?&?) ?. simpl in *. by subst. Qed.

Lemma copy_meta (dst src restored : Tensor R) :
  copy_ dst src = Ok restored → same_meta restored dst.
Proof.
  unfold copy_. intros H. by case_match; simplify_eq.
Qed.


(** A copy between tensors of one shape and dtype is exact. *)
Lemma copy_exact (dst src : Tensor R) :
  shape src = shape dst → dtype src = dtype dst →
  copy_ dst src = Ok (with_data dst (data src)).
Proof.
  intros Hs Hd. unfold copy_, to_dtype.
  rewrite decide_True by done. unfold expand. by rewrite decide_True.
Qed.

Lemma copy_into_unfold model key (src : result (Tensor R)) s :
  copy_into model key src s
  = match get_parameter model key with
    | Err e => (Err e, s)
    | Ok p =>
        match src with
        | Err e => (Err e, s)
        | Ok t =>
            match copy_ (params s !!! p) t with
            | Err e => (Err e, s)
            | Ok restored => (Ok tt, set_param p restored s)
            end
        end
    end.
Proof.
  unfold copy_into, bind, lift, gets, modify.
  destruct (get_parameter model key); [|done].
  destruct src; [|done]. by destruct (copy_ _ _).
Qed.

Lemma copy_into_meta model key (src : result (Tensor R)) s (l : loc) :
  same_meta (params (copy_into model key src s).2 !!! l) (params s !!! l).
Proof.
  rewrite copy_into_unfold.
  destruct (get_parameter model key) as [p|]; [|done].
  destruct src as [t|]; [|done].
  destruct (copy_ _ _) as [restored|] eqn:Hc; [|done]. simpl.
  destruct (decide (p = l)) as [->|Hne].
  - rewrite lookup_total_insert_eq. by eapply copy_meta.
  - by rewrite lookup_total_insert_ne.
Qed.

Lemma for_each_map {A B C : Type} (f : A → C) (g : C → B → Stmt R B) (xs : list A) :
  ∀ acc s, for_each (λ x, g (f x)) xs acc s = for_each g (map f xs) acc s.
Proof.
  induction xs as [|x xs IH]; intros acc s; [reflexivity|].
  cbn [for_each map]. unfold bind. destruct (g (f x) acc s) as [[acc'|e] s']; [|done].
  apply IH.
Qed.

Lemma restore_copy_loop model cached_weights mcw mw s :
  restore model cached_weights mcw mw s
  = copy_loop model (restore_items cached_weights mcw mw) s.
Proof.
  unfold restore, copy_loop, restore_items.
  rewrite for_each_app. unfold bind.
  rewrite <- (for_each_map (λ k, (k, subscript cached_weights k))
                (λ it _, copy_into model it.1 it.2)).
  simpl.
  destruct (for_each _ (elements mcw) tt s) as [[[]|e] s']; [|done].
  rewrite <- (for_each_map (λ kv : string * Tensor R, (kv.1, Ok kv.2))
                (λ it _, copy_into model it.1 it.2)).
  apply for_each_ext. by intros [k v] [] s''.
Qed.

Lemma copy_loop_meta model items :
  ∀ s (l : loc),
    same_meta (params (copy_loop model items s).2 !!! l) (params s !!! l).
Proof.
  unfold copy_loop.
  induction items as [|[k src] items IH]; intros s l; [done|].
  rewrite for_each_cons.
  pose proof (copy_into_meta model k src s l) as Hst. simpl.
  destruct (copy_into model k src s) as [[[]|e] s']; simpl in *; [|done].
  eapply same_meta_trans; [apply IH|done].
Qed.

Lemma restore_meta model cached_weights mcw mw s (l : loc) :
  same_meta (params (restore model cached_weights mcw mw s).2 !!! l)
            (params s !!! l).
Proof. rewrite restore_copy_loop. apply copy_loop_meta. Qed.

Lemma run_body_lookup (body : ScopeBody R) s (l : loc) :
  params (run_body body s) !!! l
  = match params s !! l with
    | Some t => with_data t (body_data body s l)
    | None => inhabitant
    end.
Proof.
  unfold run_body. simpl. rewrite lookup_total_alt, map_lookup_imap.
  by destruct (params s !! l).
Qed.

Lemma run_body_meta (body : ScopeBody R) s (l : loc) :
  same_meta (params (run_body body s) !!! l) (params s !!! l).
Proof.
  rewrite run_body_lookup. rewrite (lookup_total_alt (params s)).
  by destruct (params s !! l).
Qed.

Lemma patch_model_meta model prefix loras cached_weights s (l : loc) :
  same_meta (params (_patch_model model prefix loras cached_weights s).2 !!! l)
            (params s !!! l).
Proof. rewrite patch_model_plan. apply exec_meta. Qed.

Lemma static_patch_model_meta model prefix loras cached_weights body s (l : loc) :
  same_meta
    (params (static_patch_model model prefix loras cached_weights body s).2 !!! l)
    (params s !!! l).
Proof.
  unfold static_patch_model.
  pose proof (patch_model_meta model prefix loras cached_weights s l) as H1.
  destruct (_patch_model model prefix loras cached_weights s)
    as [[[mcw mw]|e] s1]; simpl in *; [|done].
  pose proof (restore_meta model cached_weights mcw mw (run_body body s1) l) as H3.
  pose proof (run_body_meta body s1 l) as H2.
  destruct (restore model cached_weights mcw mw (run_body body s1))
    as [[[]|e] s3]; simpl in *;
    (eapply same_meta_trans; [exact H3|];
     eapply same_meta_trans; [exact H2|exact H1]).
Qed.

End Restore.

(** ** The bookkeeping along a run *)

Section Bookkeeping.

Context {R : Type} `{!Scalar R}.

Implicit Types (s : State R) (book : Book R) (t v : Tensor R) (k : string)
  (mw : list (string * Tensor R)) (mcw : gset string)
  (cached : gmap string (Tensor R)).

(** *** Association lists *)

Lemma assoc_app {A : Type} k (l : list (string * A)) k' (x : A) :
  assoc k (l ++ [(k', x)])
  = match assoc k l with
    | Some y => Some y
    | None => if decide (k = k') then Some x else None
    end.
Proof.
  induction l as [|[k0 y] l IH]; simpl; [done|].
  by destruct (decide (k = k0)).
Qed.

Lemma assoc_Some_elem {A : Type} k (l : list (string * A)) (x : A) :
  assoc k l = Some x → (k, x) ∈ l.
Proof.
  induction l as [|[k0 y] l IH]; simpl; [done|].
  destruct (decide (k = k0)) as [->|Hne].
  - intros ?; simplify_eq. by left.
  - intros H. right. by apply IH.
Qed.

Lemma assoc_None_fst {A : Type} k (l : list (string * A)) :
  assoc k l = None ↔ k ∉ l.*1.
Proof.
  induction l as [|[k0 y] l IH]; simpl.
  - split; [intros _; apply not_elem_of_nil|done].
  - rewrite not_elem_of_cons. destruct (decide (k = k0)) as [->|Hne].
    + split; [done|]. by intros [? _].
    + rewrite IH. split; [by intros ?; split|by intros [_ ?]].
Qed.

Lemma elem_assoc_is_Some {A : Type} k (l : list (string * A)) (x : A) :
  (k, x) ∈ l → is_Some (assoc k l).
Proof.
  intros Hin. destruct (assoc k l) eqn:Ha; [done|].
  apply assoc_None_fst in Ha. exfalso. apply Ha.
  apply list_elem_of_fmap. by exists (k, x).
Qed.

(** *** [save_original] by cases *)

Lemma save_original_saved cached k t book :
  saved k book → save_original cached k t book = book.
Proof.
  destruct book as [mcw mw]. unfold saved, save_original. simpl.
  intros Hs. rewrite decide_False; [done|].
  intros [Hn Ha]. destruct Hs as [?|Hs]; [done|]. rewrite Ha in Hs. by destruct Hs.
Qed.

Lemma save_original_cached cached k t mcw mw :
  ¬ saved k (mcw, mw) → is_Some (cached !! k) →
  save_original cached k t (mcw, mw) = ({[k]} ∪ mcw, mw).
Proof.
  unfold saved, save_original. simpl. intros Hs Hc.
  rewrite decide_True.
  - by rewrite decide_True.
  - split; [naive_solver|].
    destruct (assoc k mw) eqn:Ha; [|done]. exfalso. apply Hs. right. by eexists.
Qed.

Lemma save_original_fresh cached k t mcw mw :
  ¬ saved k (mcw, mw) → cached !! k = None →
  save_original cached k t (mcw, mw) = (mcw, mw ++ [(k, detach_to_cpu t)]).
Proof.
  unfold saved, save_original. simpl. intros Hs Hc.
  rewrite decide_True.
  - rewrite decide_False; [done|]. rewrite Hc. by intros [? ?].
  - split; [naive_solver|].
    destruct (assoc k mw) eqn:Ha; [|done]. exfalso. apply Hs. right. by eexists.
Qed.

Lemma saved_dec k book : saved k book ∨ ¬ saved k book.
Proof.
  unfold saved. destruct (decide (k ∈ book.1)); [by left; left|].
  destruct (assoc k book.2) eqn:Ha.
  - left. right. by eexists.
  - right. intros [?|[? ?]]; done.
Qed.

Lemma save_original_saves cached k t book : saved k (save_original cached k t book).
Proof.
  destruct (saved_dec k book) as [Hs|Hs].
  - by rewrite save_original_saved.
  - destruct book as [mcw mw]. destruct (cached !! k) eqn:Hc.
    + rewrite save_original_cached by done. left. simpl. set_solver.
    + rewrite save_original_fresh by done. right. simpl.
      rewrite assoc_app. destruct (assoc k mw); [done|].
      by rewrite decide_True.
Qed.

Lemma save_original_mono cached k k' t book :
  saved k' book → saved k' (save_original cached k t book).
Proof.
  intros Hk'. destruct (saved_dec k book) as [Hs|Hs].
  - by rewrite save_original_saved.
  - destruct book as [mcw mw]. destruct Hk' as [Hk'|[v Hk']]; cbn [fst snd] in *.
    + destruct (cached !! k) eqn:Hc.
      * rewrite save_original_cached by done. left. simpl. set_solver.
      * rewrite save_original_fresh by done. by left.
    + destruct (cached !! k) eqn:Hc.
      * rewrite save_original_cached by done. right. by eexists.
      * rewrite save_original_fresh by done. right. simpl.
        rewrite assoc_app, Hk'. by eexists.
Qed.

Lemma save_original_only cached k k' t book :
  saved k' (save_original cached k t book) → saved k' book ∨ k' = k.
Proof.
  destruct (saved_dec k book) as [Hs|Hs].
  - rewrite save_original_saved by done. by left.
  - destruct book as [mcw mw]. destruct (cached !! k) eqn:Hc.
    + rewrite save_original_cached by done. intros [Hin|Hin]; cbn [fst snd] in *.
      * apply elem_of_union in Hin as [->%elem_of_singleton|?]; [by right|].
        left. by left.
      * left. by right.
    + rewrite save_original_fresh by done. intros [Hin|Hin]; cbn [fst snd] in *.
      * left. by left.
      * rewrite assoc_app in Hin. destruct (assoc k' mw) eqn:Ha.
        -- left. right. simpl. by rewrite Ha.
        -- destruct (decide (k' = k)); [by right|]. by destruct Hin.
Qed.

Lemma save_original_inv cached k t book :
  book_inv cached book → book_inv cached (save_original cached k t book).
Proof.
  intros (Hc & Hf & Hnd). destruct (saved_dec k book) as [Hs|Hs].
  { by rewrite save_original_saved. }
  destruct book as [mcw mw]. cbn [fst snd] in *.
  destruct (cached !! k) eqn:Hck.
  - rewrite save_original_cached by done. split; [|done]. simpl.
    intros k' [->%elem_of_singleton|?]%elem_of_union; [by rewrite Hck|auto].
  - rewrite save_original_fresh by done. split; [done|]. simpl. split.
    + intros k'. rewrite assoc_app. destruct (assoc k' mw) eqn:Ha.
      * intros _. apply Hf. by rewrite Ha.
      * destruct (decide (k' = k)) as [->|]; [done|]. by intros [? ?].
    + rewrite fmap_app. apply NoDup_app. split; [done|]. split.
      * intros k' Hin Hk'. apply list_elem_of_singleton in Hk'.
        cbn [fst] in Hk'. subst k'. apply Hs. right. simpl. destruct (assoc k mw) eqn:Ha; [done|].
        by apply assoc_None_fst in Ha.
      * simpl. apply NoDup_singleton.
Qed.

(** *** One step *)

Lemma exec_step_ok cached (st : Step R) book s book' s' :
  exec_step cached st book s = (Ok book', s') →
  match st with
  | SParam k p d w sc =>
      book' = save_original cached k (params s !!! p) book
      ∧ ∀ l, l ≠ p → params s' !!! l = params s !!! l
  | _ => book' = book ∧ params s' = params s
  end.
Proof.
  destruct st as [e|layer module w|k p d w sc|layer].
  - done.
  - rewrite exec_stage. intros ?; simplify_eq.
    by rewrite step_staging_params.
  - simpl. unfold bind at 1. unfold gets at 1. rewrite patch_tensor_unfold.
    destruct (reconcile _ _) as [view|e]; [|done].
    intros ?; simplify_eq. split; [done|]. intros l Hne.
    unfold set_param. cbn [params]. rewrite scale_in_place_params.
    by rewrite lookup_total_insert_ne.
  - rewrite exec_unstage. intros ?; simplify_eq.
    by rewrite step_staging_params.
Qed.

(** *** The whole run: what is saved, where, and how often *)

Lemma exec_book cached (steps : list (Step R)) :
  ∀ book s book' s',
    for_each (exec_step cached) steps book s = (Ok book', s') →
    book_inv cached book →
    book_inv cached book'
    ∧ (∀ k, saved k book → saved k book')
    ∧ (∀ k p, (k, p) ∈ flat_map step_target steps → saved k book')
    ∧ (∀ k, saved k book' →
            saved k book ∨ ∃ p, (k, p) ∈ flat_map step_target steps).
Proof.
  induction steps as [|st steps IH]; intros book s book' s' Hrun Hinv.
  - simpl in Hrun. unfold ret in Hrun. simplify_eq.
    split; [done|]. split; [done|]. split; [|by left].
    by intros k p ?%elem_of_nil.
  - rewrite for_each_cons in Hrun.
    destruct (exec_step cached st book s) as [[book1|e] s1] eqn:Hst; [|done].
    apply exec_step_ok in Hst.
    assert (book_inv cached book1
            ∧ (∀ k, saved k book → saved k book1)
            ∧ (∀ k p, (k, p) ∈ step_target st → saved k book1)
            ∧ (∀ k, saved k book1 → saved k book ∨ ∃ p, (k, p) ∈ step_target st))
      as (Hinv1 & Hmono1 & Hnew1 & Hold1).
    { destruct st as [e|layer module w|k p d w sc|layer]; cbn [fst snd] in *;
        try (destruct Hst as [-> _]; split; [done|]; split; [done|];
             split; [by intros ? ? ?%elem_of_nil|by left]).
      destruct Hst as [-> _].
      split; [by apply save_original_inv|].
      split; [intros k'; apply save_original_mono|].
      split.
      - intros k' p' [?|?%elem_of_nil]%elem_of_cons; [|done]. simplify_eq.
        apply save_original_saves.
      - intros k' [?| ->]%save_original_only; [by left|].
        right. exists p. by left. }
    destruct (IH book1 s1 book' s' Hrun Hinv1) as (Hinv' & Hmono & Hnew & Hold).
    split; [done|]. split; [auto|]. split.
    + intros k p. simpl. rewrite elem_of_app. intros [Hin|Hin]; [|eauto].
      apply Hmono. eauto.
    + intros k Hk. destruct (Hold k Hk) as [Hk1|(p & Hin)].
      * destruct (Hold1 k Hk1) as [?|(p & Hin)]; [by left|].
        right. exists p. simpl. rewrite elem_of_app. by left.
      * right. exists p. simpl. rewrite elem_of_app. by right.
Qed.

End Bookkeeping.

(** ** The saved values along a run, and what the copies restore *)

Section Values.

Context {R : Type} `{!Scalar R}.

Implicit Types (s : State R) (book : Book R) (t v : Tensor R) (k : string)
  (cached : gmap string (Tensor R)) (ts : list (string * loc)).

Lemma untied_spec ts k k' (p : loc) :
  untied ts = true → (k, p) ∈ ts → (k', p) ∈ ts → k = k'.
Proof.
  unfold untied. rewrite forallb_forall. intros Hall Hk Hk'.
  apply list_elem_of_In in Hk, Hk'.
  specialize (Hall _ Hk). rewrite forallb_forall in Hall.
  specialize (Hall _ Hk'). simpl in Hall.
  rewrite bool_decide_eq_true_2 in Hall by done.
  by apply bool_decide_eq_true_1 in Hall.
Qed.

Lemma exec_values cached ts (s0 : State R) (steps : list (Step R)) :
  untied ts = true →
  ∀ book s book' s',
    (∀ kp, kp ∈ flat_map step_target steps → kp ∈ ts) →
    for_each (exec_step cached) steps book s = (Ok book', s') →
    values_inv ts s0 book s →
    values_inv ts s0 book' s'.
Proof.
  intros Hunt.
  induction steps as [|st steps IH]; intros book s book' s' Hts Hrun Hinv.
  { simpl in Hrun. unfold ret in Hrun. by simplify_eq. }
  rewrite for_each_cons in Hrun.
  destruct (exec_step cached st book s) as [[book1|e] s1] eqn:Hst; [|done].
  apply exec_step_ok in Hst.
  apply (IH book1 s1 book' s'); [|done|].
  { intros kp Hin. apply Hts. simpl. rewrite elem_of_app. by right. }
  destruct st as [e|layer module w|k p d w sc|layer];
    try (destruct Hst as [-> Hp]; destruct Hinv as [Hv Hu]; split; [done|];
         intros p' Hp'; rewrite Hp; by apply Hu).
  destruct Hst as [-> Hother]. destruct Hinv as [Hv Hu].
  assert ((k, p) ∈ ts) as Hkp.
  { apply Hts. simpl. by left. }
  split.
  - intros k' v Hin.
    destruct (saved_dec k book) as [Hs|Hs].
    { rewrite save_original_saved in Hin by done. by apply Hv. }
    destruct book as [mcw mw]. destruct (cached !! k) eqn:Hc.
    { rewrite save_original_cached in Hin by done. by apply Hv. }
    rewrite save_original_fresh in Hin by done. cbn [snd] in Hin.
    apply elem_of_app in Hin as [Hin|Hin]; [by apply Hv|].
    apply list_elem_of_singleton in Hin. simplify_eq.
    exists p. split; [done|]. f_equal. apply Hu.
    intros k' Hk'. by rewrite <- (untied_spec ts k k' p).
  - intros p' Hp'. destruct (decide (p' = p)) as [->|Hne].
    + exfalso. apply (Hp' k Hkp). apply save_original_saves.
    + rewrite Hother by done. apply Hu. intros k' Hk' Hs.
      apply (Hp' k' Hk'). by apply save_original_mono.
Qed.

(** *** The copies of the [finally] block *)



Lemma copy_loop_cons model (k : string) (src : result (Tensor R)) items s :
  copy_loop model ((k, src) :: items) s
  = match copy_into model k src s with
    | (Ok _, s') => copy_loop model items s'
    | (Err e, s') => (Err e, s')
    end.
Proof.
  unfold copy_loop. rewrite for_each_cons. simpl.
  by destruct (copy_into model k src s) as [[[]|e] s'].
Qed.

(** The loop succeeds when every key is found and every source has the
    shape of its destination. *)
Lemma copy_loop_ok model (items : list (string * result (Tensor R))) :
  ∀ s,
    (∀ k src, (k, src) ∈ items →
       ∃ p t, get_parameter model k = Ok p ∧ src = Ok t
              ∧ shape t = shape (params s !!! p)) →
    ∃ s', copy_loop model items s = (Ok tt, s').
Proof.
  induction items as [|[k src] items IH]; intros s Hall.
  { by eexists. }
  rewrite copy_loop_cons.
  destruct (Hall k src) as (p & t & Hp & -> & Hshape); [by left|].
  assert (∃ restored, copy_ (params s !!! p) t = Ok restored) as [restored Hcopy].
  { unfold copy_, expand. rewrite to_dtype_shape.
    rewrite decide_True by done. by eexists. }
  pose proof (copy_into_meta model k (Ok t) s) as Hmeta.
  rewrite copy_into_unfold, Hp, Hcopy in Hmeta |- *.
  apply IH. intros k' src' Hin.
  destruct (Hall k' src') as (p' & t' & Hp' & -> & Hshape'); [by right|].
  exists p', t'. split; [done|]. split; [done|].
  destruct (Hmeta p') as (Hsh & _). cbn [snd] in Hsh. by rewrite Hsh.
Qed.


(** What the loop leaves at a parameter [p] when every item that addresses
    [p] copies a tensor with the shape, dtype and elements of [orig]. *)
Lemma copy_loop_exact model (p : loc) (orig : Tensor R)
    (items : list (string * result (Tensor R))) :
  ∀ s s',
    copy_loop model items s = (Ok tt, s') →
    same_meta (params s !!! p) orig →
    (∀ k src, (k, src) ∈ items → get_parameter model k = Ok p →
       ∃ t, src = Ok t ∧ shape t = shape orig ∧ dtype t = dtype orig
            ∧ data t = data orig) →
    (params s' !!! p = params s !!! p ∨ params s' !!! p = orig)
    ∧ ((∃ k src, (k, src) ∈ items ∧ get_parameter model k = Ok p) →
       params s' !!! p = orig).
Proof.
  induction items as [|[k src] items IH]; intros s s' Hrun Hmeta Hsame.
  { unfold copy_loop in Hrun. simpl in Hrun. unfold ret in Hrun. simplify_eq.
    split; [by left|]. by intros (k & src & ?%elem_of_nil & _). }
  rewrite copy_loop_cons, copy_into_unfold in Hrun.
  destruct (get_parameter model k) as [p1|e] eqn:Hp1; [|done].
  destruct src as [t1|e]; [|done].
  destruct (copy_ (params s !!! p1) t1) as [restored|e] eqn:Hcopy; [|done].
  destruct (decide (p1 = p)) as [->|Hne].
  - destruct (Hsame k (Ok t1)) as (t & Ht & Hshape & Hdtype & Hdata);
      [by left|done|]. simplify_eq.
    destruct Hmeta as (Hs & Hd & Hdev & Hlay).
    rewrite copy_exact in Hcopy by congruence. simplify_eq.
    assert (with_data (params s !!! p) (data t) = orig) as Horig.
    { apply tensor_eq; [by repeat split|done]. }
    destruct (IH _ _ Hrun) as [Hor _].
    { simpl. rewrite lookup_total_insert_eq, Horig. done. }
    { intros k' src' Hin. apply Hsame. by right. }
    simpl in Hor. rewrite lookup_total_insert_eq, Horig in Hor.
    assert (params s' !!! p = orig) as -> by (by destruct Hor).
    split; [by right|done].
  - destruct (IH _ _ Hrun) as [Hor Hex].
    { simpl. by rewrite lookup_total_insert_ne. }
    { intros k' src' Hin. apply Hsame. by right. }
    simpl in Hor. rewrite lookup_total_insert_ne in Hor by done.
    split; [done|]. intros (k' & src' & Hin & Hp').
    apply Hex. apply elem_of_cons in Hin as [?|Hin]; [|by eauto].
    simplify_eq. congruence.
Qed.


End Values.

(** ** The targets of a plan *)

Section PlanFacts.

Context {R : Type} `{!Scalar R}.

Implicit Types (model : Module) (prefix : string)
  (loras : list (LoRAModelRaw R * R)).

Lemma elem_of_flat_map {A B : Type} (f : A → list B) (l : list A) (y : B) :
  y ∈ flat_map f l ↔ ∃ x, x ∈ l ∧ y ∈ f x.
Proof.
  rewrite list_elem_of_In, in_flat_map.
  split; intros (x & Hx & Hy); exists x; by rewrite ?list_elem_of_In in *.
Qed.

(** Every parameter step comes from a layer of a LoRA, through the module
    its key resolves to and a name the layer provides for that module. *)
Lemma plan_param_origin model prefix loras (k : string) (p : loc) (g : Given)
    (w : loc) (sc : R) :
  SParam k p g w sc ∈ plan model prefix loras →
  ∃ lora (lora_weight : R) layer_key layer mk module name (delta : Delta R),
    (lora, lora_weight) ∈ loras
    ∧ (layer_key, layer) ∈ layers lora
    ∧ PyStr.startswith prefix layer_key = true
    ∧ _resolve_lora_key model layer_key prefix = Ok (mk, module)
    ∧ (name, delta) ∈ get_parameters layer module
    ∧ g = given (name, delta)
    ∧ get_parameter module name = Ok p
    ∧ k = mk +:+ "." +:+ name
    ∧ sc = py_mul lora_weight (layer_scale layer).
Proof.
  unfold plan. intros Hst.
  apply elem_of_flat_map in Hst as ([lora lw] & Hlora & Hst).
  unfold lora_plan in Hst. cbn [fst snd] in Hst.
  apply elem_of_flat_map in Hst as ([layer_key layer] & Hlayer & Hst).
  unfold layer_plan in Hst. cbn [fst snd] in Hst.
  destruct (PyStr.startswith prefix layer_key) eqn:Hpre; simpl in Hst;
    [|by apply elem_of_nil in Hst].
  destruct (_resolve_lora_key model layer_key prefix) as [[mk module]|e] eqn:Hres;
    cycle 1.
  { by apply list_elem_of_singleton in Hst. }
  destruct (module_weight module) as [w'|e]; cycle 1.
  { by apply list_elem_of_singleton in Hst. }
  apply elem_of_cons in Hst as [?|Hst]; [done|].
  apply elem_of_app in Hst as [Hst|Hst]; cycle 1.
  { by apply list_elem_of_singleton in Hst. }
  apply list_elem_of_fmap in Hst as ([name d'] & Heq & Hitem).
  unfold param_step in Heq. cbn [fst snd] in Heq.
  destruct (get_parameter module name) as [p'|e] eqn:Hp; [|done].
  simplify_eq.
  by exists lora, lw, layer_key, layer, mk, module, name, d'.
Qed.

Lemma targets_origin model prefix loras (k : string) (p : loc) :
  (k, p) ∈ targets model prefix loras →
  ∃ lora (lora_weight : R) layer_key layer mk module name (d : Delta R),
    (lora, lora_weight) ∈ loras
    ∧ (layer_key, layer) ∈ layers lora
    ∧ PyStr.startswith prefix layer_key = true
    ∧ _resolve_lora_key model layer_key prefix = Ok (mk, module)
    ∧ (name, d) ∈ get_parameters layer module
    ∧ get_parameter module name = Ok p
    ∧ k = mk +:+ "." +:+ name.
Proof.
  unfold targets. rewrite elem_of_flat_map.
  intros ([e|layer module w|k' p' g w sc|layer] & Hst & Hk);
    try (by apply elem_of_nil in Hk).
  apply list_elem_of_singleton in Hk. simplify_eq.
  destruct (plan_param_origin _ _ _ _ _ _ _ _ Hst)
    as (lora & lw & layer_key & layer & mk & module & name & d
        & Hlora & Hlayer & Hpre & Hres & Hitem & _ & Hp & Hkey & _).
  by exists lora, lw, layer_key, layer, mk, module, name, d.
Qed.

(** For plain keys, the canonical key of every target addresses the
    target from the root of the model. *)
Lemma found_again_spec model (ts : list (string * loc)) (k : string) (p : loc) :
  found_again model ts = true → (k, p) ∈ ts → get_parameter model k = Ok p.
Proof.
  unfold found_again. rewrite forallb_forall. intros Hall Hin.
  apply list_elem_of_In in Hin. specialize (Hall _ Hin). cbn [fst snd] in Hall.
  destruct (get_parameter model k) as [p'|e]; [|done].
  by apply bool_decide_eq_true_1 in Hall as ->.
Qed.

Lemma targets_coherent model prefix loras (k : string) (p : loc) :
  plain_keys model prefix loras = true →
  (k, p) ∈ targets model prefix loras →
  get_parameter model k = Ok p.
Proof.
  intros Hplain Hin.
  destruct (targets_origin model prefix loras k p Hin)
    as (lora & lw & layer_key & layer & mk & module & name & d
        & Hlora & Hlayer & Hpre & Hres & Hitem & Hp & ->).
  unfold plain_keys in Hplain. rewrite forallb_forall in Hplain.
  apply list_elem_of_In in Hlora. specialize (Hplain _ Hlora).
  cbn [fst] in Hplain. rewrite forallb_forall in Hplain.
  apply list_elem_of_In in Hlayer. specialize (Hplain _ Hlayer).
  unfold plain_layer in Hplain. cbn [fst snd] in Hplain.
  rewrite Hpre, Hres in Hplain. simpl in Hplain.
  apply andb_true_iff in Hplain as [Htok Hnames].
  rewrite <- Hp. apply (canonical_key_coherent model module layer_key prefix).
  - unfold plain_tokens. rewrite Forall_forall. intros t Ht.
    rewrite forallb_forall in Htok. apply list_elem_of_In in Ht.
    specialize (Htok _ Ht). apply negb_true_iff in Htok.
    by apply bool_decide_eq_false_1 in Htok.
  - done.
  - rewrite forallb_forall in Hnames. apply list_elem_of_In in Hitem.
    specialize (Hnames _ Hitem). by apply negb_true_iff in Hnames.
Qed.

(** Plain keys are found again. *)
Lemma plain_keys_found_again model prefix loras :
  plain_keys model prefix loras = true →
  found_again model (targets model prefix loras) = true.
Proof.
  intros Hplain. unfold found_again. rewrite forallb_forall.
  intros [k p] Hin%list_elem_of_In. cbn [fst snd].
  rewrite (targets_coherent model prefix loras k p Hplain Hin).
  by apply bool_decide_eq_true_2.
Qed.

End PlanFacts.

(** ** A whole session: patch, scope body, restoration *)

Section Session.

Context {R : Type} `{!Scalar R}.

Implicit Types (model : Module) (prefix : string)
  (loras : list (LoRAModelRaw R * R))
  (cached_weights : option (gmap string (Tensor R)))
  (mcw : gset string) (mw : list (string * Tensor R)) (s : State R).

Lemma restore_items_elem cached_weights mcw mw (k : string)
    (src : result (Tensor R)) :
  (k, src) ∈ restore_items cached_weights mcw mw
  ↔ (k ∈ mcw ∧ src = subscript cached_weights k)
    ∨ (∃ v, (k, v) ∈ mw ∧ src = Ok v).
Proof.
  unfold restore_items. rewrite elem_of_app, !list_elem_of_fmap. split.
  - intros [(k' & Heq & Hin)|([k' v] & Heq & Hin)]; simplify_eq.
    + left. split; [|done]. by apply elem_of_elements.
    + right. by exists v.
  - intros [[Hin ->]|(v & Hin & ->)].
    + left. exists k. split; [done|]. by apply elem_of_elements.
    + right. by exists (k, v).
Qed.

Lemma subscript_cached cached_weights (k : string) (t : Tensor R) :
  default ∅ cached_weights !! k = Some t → subscript cached_weights k = Ok t.
Proof.
  destruct cached_weights as [c|]; simpl; [by intros ->|].
  by rewrite lookup_empty.
Qed.

Lemma book_inv_empty (cached : gmap string (Tensor R)) : book_inv cached (∅, []).
Proof.
  split; [by intros k ?%not_elem_of_empty|].
  split; [by intros k [? ?]|]. simpl. apply NoDup_nil_2.
Qed.

Lemma values_inv_empty (ts : list (string * loc)) s : values_inv ts s (∅, []) s.
Proof. split; [by intros k v ?%elem_of_nil|done]. Qed.

(** The bookkeeping a successful [_patch_model] returns. *)
Lemma patch_model_book model prefix loras cached_weights s0 mcw mw s1 :
  _patch_model model prefix loras cached_weights s0 = (Ok (mcw, mw), s1) →
  book_inv (default ∅ cached_weights) (mcw, mw)
  ∧ (∀ k p, (k, p) ∈ targets model prefix loras → saved k (mcw, mw))
  ∧ (∀ k, saved k (mcw, mw) → ∃ p, (k, p) ∈ targets model prefix loras).
Proof.
  rewrite patch_model_plan. intros Hrun.
  destruct (exec_book _ _ _ _ _ _ Hrun (book_inv_empty _))
    as (Hinv & _ & Hnew & Hold).
  split; [done|]. split; [done|].
  intros k Hk. destruct (Hold k Hk) as [[Hin|[v Hin]]|?]; [| |done].
  - by apply not_elem_of_empty in Hin.
  - done.
Qed.

Lemma patch_model_values model prefix loras cached_weights s0 mcw mw s1 :
  untied (targets model prefix loras) = true →
  _patch_model model prefix loras cached_weights s0 = (Ok (mcw, mw), s1) →
  values_inv (targets model prefix loras) s0 (mcw, mw) s1.
Proof.
  rewrite patch_model_plan. intros Hunt Hrun.
  eapply exec_values; [done| |exact Hrun|apply values_inv_empty]. done.
Qed.

(** Restoration after a successful patch, from any stores whose parameter
    tensors kept their shape, dtype and device. *)
Lemma session_restore model prefix loras cached_weights s0 mcw mw s1 s2 :
  found_again model (targets model prefix loras) = true →
  untied (targets model prefix loras) = true →
  snapshot cached_weights (targets model prefix loras) s0 →
  _patch_model model prefix loras cached_weights s0 = (Ok (mcw, mw), s1) →
  (∀ l : loc, same_meta (params s2 !!! l) (params s1 !!! l)) →
  ∃ s3, restore model cached_weights mcw mw s2 = (Ok tt, s3)
        ∧ ∀ k p, (k, p) ∈ targets model prefix loras →
                 params s3 !!! p = params s0 !!! p.
Proof.
  intros Hplain Hunt Hsnap Hrun Hbody.
  destruct (patch_model_book _ _ _ _ _ _ _ _ Hrun)
    as ((Hcached & Hfresh & Hnd) & Hsaved & Htarget).
  destruct (patch_model_values _ _ _ _ _ _ _ _ Hunt Hrun) as [Hvalues _].
  assert (∀ l : loc, same_meta (params s2 !!! l) (params s0 !!! l)) as Hmeta.
  { intros l. eapply same_meta_trans; [apply Hbody|].
    pose proof (patch_model_meta model prefix loras cached_weights s0 l) as H.
    by rewrite Hrun in H. }
  (* every item of the [finally] block copies an original *)
  assert (∀ k src, (k, src) ∈ restore_items cached_weights mcw mw →
            ∃ p t, (k, p) ∈ targets model prefix loras ∧ src = Ok t
                   ∧ shape t = shape (params s0 !!! p)
                   ∧ dtype t = dtype (params s0 !!! p)
                   ∧ data t = data (params s0 !!! p)) as Hitems.
  { intros k src [[Hin ->]|(v & Hin & ->)]%restore_items_elem.
    - destruct (Htarget k) as [p Hp]; [by left|].
      destruct (Hcached k Hin) as [t Ht].
      exists p, t. split; [done|]. split; [by apply subscript_cached|].
      unfold snapshot in Hsnap. rewrite Forall_forall in Hsnap.
      specialize (Hsnap _ Hp). cbn [fst snd] in Hsnap. rewrite Ht in Hsnap.
      by destruct Hsnap as (? & ? & ?).
    - destruct (Hvalues k v Hin) as (p & Hp & ->). by exists p, (detach_to_cpu (params s0 !!! p)). }
  rewrite restore_copy_loop.
  destruct (copy_loop_ok model (restore_items cached_weights mcw mw) s2)
    as [s3 Hrestore].
  { intros k src Hin. destruct (Hitems k src Hin) as (p & t & Hp & -> & Hs & _).
    exists p, t. split; [by apply (found_again_spec model _ k p Hplain)|].
    split; [done|]. destruct (Hmeta p) as (-> & _). done. }
  exists s3. split; [done|]. intros k p Hkp.
  pose proof (found_again_spec model _ k p Hplain Hkp) as Hk.
  eapply (copy_loop_exact model p (params s0 !!! p)); [exact Hrestore|apply Hmeta| |].
  - intros k' src' Hin Hk'.
    destruct (Hitems k' src' Hin) as (p' & t & Hp' & -> & Hs & Hd & Hdata).
    pose proof (found_again_spec model _ k' p' Hplain Hp') as Hk''.
    assert (p' = p) as -> by congruence. by exists t.
  - destruct (Hsaved k p Hkp) as [Hin|[v Hin]]; cbn [fst snd] in Hin.
    + exists k, (subscript cached_weights k). split; [|done].
      apply restore_items_elem. by left.
    + exists k, (Ok v). split; [|done].
      apply restore_items_elem. right. exists v. split; [|done].
      by apply assoc_Some_elem.
Qed.

End Session.

(** ** What a run does to the LoRA store *)

Section LoraStore.

Context {R : Type} `{!Scalar R}.

Implicit Types (s : State R) (t : Tensor R) (d l : loc).

(** *** Staging a layer, tensor by tensor *)

Lemma stage_loop_frame (f : Tensor R → Tensor R) (ls : list loc) l :
  l ∉ ls →
  ∀ s, lora_tensors
         (foldl (λ s l, set_lora_tensor l (f (lora_tensors s !!! l)) s) s ls) !!! l
       = lora_tensors s !!! l.
Proof.
  induction ls as [|x ls IH]; intros Hl s; [done|].
  apply not_elem_of_cons in Hl as [Hne Hl]. simpl. rewrite IH by done.
  simpl. by rewrite lookup_total_insert_ne.
Qed.

Lemma stage_loop_keep (P : Tensor R → Prop) (f : Tensor R → Tensor R)
    (ls : list loc) l :
  (∀ t, P t → P (f t)) →
  ∀ s, P (lora_tensors s !!! l) →
       P (lora_tensors
            (foldl (λ s l, set_lora_tensor l (f (lora_tensors s !!! l)) s) s ls) !!! l).
Proof.
  intros Hf. induction ls as [|x ls IH]; intros s Hs; [done|].
  simpl. apply IH. simpl.
  destruct (decide (x = l)) as [->|Hne].
  - rewrite lookup_total_insert_eq. by apply Hf.
  - by rewrite lookup_total_insert_ne.
Qed.

Lemma stage_loop_at (P : Tensor R → Prop) (f : Tensor R → Tensor R)
    (ls : list loc) l :
  (∀ t, P (f t)) → l ∈ ls →
  ∀ s, P (lora_tensors
            (foldl (λ s l, set_lora_tensor l (f (lora_tensors s !!! l)) s) s ls) !!! l).
Proof.
  intros Hf. induction ls as [|x ls IH]; intros Hl s; [by apply elem_of_nil in Hl|].
  simpl. destruct (decide (x = l)) as [->|Hne].
  - apply stage_loop_keep; [by intros t _|]. simpl.
    rewrite lookup_total_insert_eq. apply Hf.
  - apply IH. apply elem_of_cons in Hl as [?|?]; [by subst|done].
Qed.

Lemma staged_refl t : staged t t.
Proof. split; [done|]. split; [done|]. by left. Qed.

Lemma staged_to_device t t' (dev : Device) :
  staged t t' → staged t (to_device dev t').
Proof. done. Qed.

Lemma staged_to_float32 t t' : staged t t' → staged t (to_dtype Float32 t').
Proof.
  intros (Hs & Hv & Hd). unfold to_dtype.
  destruct (decide (dtype t' = Float32)) as [Heq|Hne]; [done|].
  split; [done|]. split; [done|]. right. simpl. split; [done|].
  destruct Hd as [[_ ->]|[? _]]; done.
Qed.

Lemma layer_to_device_staged layer (dev : Device) s t d :
  staged t (lora_tensors s !!! d) →
  staged t (lora_tensors (layer_to_device layer dev s) !!! d).
Proof.
  apply (stage_loop_keep (staged t)). intros t'. apply staged_to_device.
Qed.

Lemma layer_to_dtype_staged layer s t d :
  staged t (lora_tensors s !!! d) →
  staged t (lora_tensors (layer_to_dtype layer Float32 s) !!! d).
Proof.
  apply (stage_loop_keep (staged t)). intros t'. apply staged_to_float32.
Qed.

Lemma step_staging_staged (st : Step R) s t d :
  staged t (lora_tensors s !!! d) →
  staged t (lora_tensors (step_staging st s) !!! d).
Proof.
  intros Hs. destruct st as [e|layer module w|k p g w sc|layer]; simpl; [done| |done|].
  - by apply layer_to_dtype_staged, layer_to_device_staged.
  - by apply layer_to_device_staged.
Qed.

(** *** Shapes and layouts do not change *)

Lemma same_layout_refl s : same_layout s s.
Proof. by split. Qed.

Lemma same_layout_trans s1 s2 s3 :
  same_layout s1 s2 → same_layout s2 s3 → same_layout s1 s3.
Proof.
  intros [Hp Hl] [Hp' Hl']. split.
  - intros p. by rewrite Hp', Hp.
  - intros d. destruct (Hl d) as [<- <-]. apply Hl'.
Qed.

Lemma scale_in_place_lora_meta (g : Given) shp (t scaled : Tensor R) s d :
  (∀ d', g = Stored d' → t = lora_tensors s !!! d') →
  same_meta (lora_tensors (scale_in_place g shp t scaled s) !!! d)
            (lora_tensors s !!! d).
Proof.
  intros Hg. unfold scale_in_place. destruct g as [d'|name]; [|done].
  destruct (shares t shp); [|done]. simpl.
  destruct (decide (d' = d)) as [->|Hne].
  - rewrite lookup_total_insert_eq. by rewrite (Hg d).
  - by rewrite lookup_total_insert_ne.
Qed.

Lemma exec_step_lora_meta cached (st : Step R) (book : Book R) s d :
  shape (lora_tensors (exec_step cached st book s).2 !!! d)
  = shape (lora_tensors s !!! d)
  ∧ viewable (lora_tensors (exec_step cached st book s).2 !!! d)
    = viewable (lora_tensors s !!! d).
Proof.
  assert (∀ t t', staged t t' → shape t' = shape t ∧ viewable t' = viewable t)
    as Hstaged by (by intros t t' (? & ? & _)).
  destruct st as [e|layer module w|k p g w sc|layer].
  - done.
  - rewrite exec_stage. cbn [snd].
    apply Hstaged, step_staging_staged, staged_refl.
  - rewrite exec_param, patch_tensor_unfold.
    destruct (reconcile _ _) as [view|e]; [|done]. cbn [snd].
    unfold set_param. cbn [lora_tensors].
    destruct (scale_in_place_lora_meta g (shape (params s !!! p))
                (given_tensor g s) (imul view sc) s d) as (? & _ & _ & ?); [|done].
    by intros d' ->.
  - rewrite exec_unstage. cbn [snd].
    apply Hstaged, step_staging_staged, staged_refl.
Qed.

Lemma exec_step_layout cached (st : Step R) (book : Book R) s :
  same_layout s (exec_step cached st book s).2.
Proof.
  split.
  - intros p. by destruct (exec_step_meta cached st book s p) as (-> & _).
  - intros d. apply exec_step_lora_meta.
Qed.

Lemma step_scales_layout s s' (st : Step R) :
  same_layout s s' → step_scales s' st = step_scales s st.
Proof.
  intros [Hp Hl]. destruct st as [e|layer module w|k p g w sc|layer]; try done.
  destruct g as [d|name]; [|done]. simpl. unfold shares.
  destruct (Hl d) as [-> ->]. by rewrite Hp.
Qed.

(** *** A tensor that is not multiplied in place is staged at most *)

Lemma exec_step_staged cached (st : Step R) (book : Book R) s0 s t d :
  same_layout s0 s →
  d ∉ step_scales s0 st →
  staged t (lora_tensors s !!! d) →
  staged t (lora_tensors (exec_step cached st book s).2 !!! d).
Proof.
  intros Hlay Hd Hs. rewrite <- (step_scales_layout s0 s st Hlay) in Hd.
  destruct st as [e|layer module w|k p g w sc|layer].
  - done.
  - rewrite exec_stage. by apply step_staging_staged.
  - rewrite exec_param, patch_tensor_unfold.
    destruct (reconcile _ _) as [view|e]; [|done]. cbn [snd].
    unfold set_param. cbn [lora_tensors]. unfold scale_in_place.
    destruct g as [d'|name]; [|done]. simpl in Hd. cbn [given_tensor].
    destruct (shares _ _); [|done]. simpl.
    rewrite lookup_total_insert_ne; [done|].
    intros ->. apply Hd. by left.
  - rewrite exec_unstage. by apply step_staging_staged.
Qed.

Lemma exec_staged cached (steps : list (Step R)) s0 t d :
  d ∉ flat_map (step_scales s0) steps →
  ∀ (book : Book R) s,
    same_layout s0 s →
    staged t (lora_tensors s !!! d) →
    staged t (lora_tensors (for_each (exec_step cached) steps book s).2 !!! d).
Proof.
  induction steps as [|st steps IH]; intros Hd book s Hlay Hs; [done|].
  simpl in Hd. rewrite elem_of_app in Hd.
  rewrite for_each_cons.
  pose proof (exec_step_staged cached st book s0 s t d Hlay) as Hst.
  pose proof (exec_step_layout cached st book s) as Hnext.
  destruct (exec_step cached st book s) as [[book'|e] s']; cbn [snd] in *.
  - apply IH; [tauto| |tauto]. by eapply same_layout_trans.
  - tauto.
Qed.

End LoraStore.

(** ** The patched values: the contributions, added in order *)

Section Sum.

Context {R : Type} `{!Scalar R}.

Implicit Types (s : State R) (t : Tensor R) (d l p : loc) (sc : R).

Lemma stage_loop_agree (f : Tensor R → Tensor R) (ls : list loc) d :
  ∀ sa sp,
    lora_tensors sa !!! d = lora_tensors sp !!! d →
    lora_tensors
      (foldl (λ s l, set_lora_tensor l (f (lora_tensors s !!! l)) s) sa ls) !!! d
    = lora_tensors
        (foldl (λ s l, set_lora_tensor l (f (lora_tensors s !!! l)) s) sp ls) !!! d.
Proof.
  induction ls as [|l ls IH]; intros sa sp Heq; [done|].
  simpl. apply IH. simpl.
  destruct (decide (l = d)) as [->|Hne].
  - by rewrite !lookup_total_insert_eq, Heq.
  - by rewrite !lookup_total_insert_ne.
Qed.

Lemma materialize_ext (items : list (string * Delta R))
    (m1 m2 : gmap loc (Tensor R)) :
  (∀ d, d ∈ flat_map (λ item : string * Delta R,
                        match item.2 with
                        | Own _ => []
                        | Product inputs _ => inputs
                        end) items →
        m1 !!! d = m2 !!! d) →
  materialize items m1 = materialize items m2.
Proof.
  intros Heq. unfold materialize. f_equal.
  induction items as [|[name [d|inputs f]] items IH]; [done| |].
  - simpl. apply IH. intros d' Hd'. by apply Heq.
  - simpl. f_equal.
    + do 2 f_equal. apply list_fmap_ext. intros i d Hd.
      apply Heq. simpl. rewrite elem_of_app. left.
      by eapply list_elem_of_lookup_2.
    + apply IH. intros d Hd. apply Heq. simpl. rewrite elem_of_app. by right.
Qed.

(** Lines 137-142 compute the scaled delta. *)
Lemma scaled_view (mp delta view : Tensor R) (dt : DType) sc :
  reconcile mp delta = Ok view →
  data (to_dtype dt (imul view sc)) = scaled_delta dt sc delta.
Proof.
  intros (_ & Hdt & Hdata)%reconcile_shape.
  unfold scaled_delta, to_dtype, imul. cbn [dtype with_data]. rewrite Hdt.
  destruct (decide (dtype delta = dt)) as [Heq|Hne]; simpl.
  - by rewrite Hdata.
  - by rewrite Hdata, map_map.
Qed.

Lemma scale_in_place_created (g : Given) shp (t scaled : Tensor R) s :
  created (scale_in_place g shp t scaled s) = created s.
Proof. unfold scale_in_place. destruct g; [|done]. by destruct (shares _ _). Qed.

(** Staging does the same to stores that agree. *)
Lemma step_staging_agree (st : Step R) (done : list loc) sa sp :
  (∀ d, d ∈ step_reads st → d ∉ done) →
  agree done sa sp →
  agree done (step_staging st sa) (step_staging st sp).
Proof.
  intros Hreads (Hlora & Hcreated & Hparams).
  destruct st as [e|layer module w|k p g w sc|layer]; [done| |done|].
  - assert (∀ d, d ∉ done →
              lora_tensors (layer_to_dtype layer Float32
                 (layer_to_device layer (device (params sa !!! w)) sa)) !!! d
              = lora_tensors (layer_to_dtype layer Float32
                 (layer_to_device layer (device (params sp !!! w)) sp)) !!! d)
      as Hstaged.
    { intros d Hd. destruct (Hparams w) as (_ & _ & -> & _).
      unfold layer_to_dtype. apply stage_loop_agree.
      unfold layer_to_device. apply stage_loop_agree. by apply Hlora. }
    split; [|split].
    + intros d Hd. by apply Hstaged.
    + simpl. apply materialize_ext. intros d Hd. apply Hstaged.
      by apply Hreads.
    + intros p. by rewrite !step_staging_params.
  - split; [|split].
    + intros d Hd. simpl. unfold layer_to_device. apply stage_loop_agree.
      by apply Hlora.
    + simpl. unfold layer_to_device.
      clear Hreads Hlora Hparams. revert sa sp Hcreated.
      induction (tensors layer) as [|l ls IH]; intros sa sp Hc; [done|].
      simpl. by apply IH.
    + intros p. by rewrite !step_staging_params.
Qed.

Lemma contributions_at_app p (a b : list (loc * list R)) :
  contributions_at p (a ++ b) = contributions_at p a ++ contributions_at p b.
Proof. unfold contributions_at. apply flat_map_app. Qed.

(** One step: the stores still agree, and the parameter has gained the
    step's contribution. *)
Lemma exec_step_sum cached (st : Step R) s0 (done : list loc)
    (book book1 : Book R) sa sp sa1 p :
  same_layout s0 sa →
  (∀ d, d ∈ step_reads st → d ∉ done) →
  agree done sa sp →
  exec_step cached st book sa = (Ok book1, sa1) →
  agree (step_scales s0 st ++ done) sa1 (step_staging st sp)
  ∧ data (params sa1 !!! p)
    = fold_left (vadd_in (dtype (params sa !!! p)))
                (contributions_at p (contribution st sp))
                (data (params sa !!! p)).
Proof.
  intros Hlay Hreads Hagree Hst.
  rewrite <- (step_scales_layout s0 sa st Hlay).
  destruct st as [e|layer module w|k p' g w sc|layer].
  - done.
  - rewrite exec_stage in Hst. simplify_eq. split.
    + by apply step_staging_agree.
    + by rewrite step_staging_params.
  - rewrite exec_param, patch_tensor_unfold in Hst.
    destruct Hagree as (Hlora & Hcreated & Hparams).
    assert (given_tensor g sa = given_tensor g sp) as Hgiven.
    { destruct g as [d|name]; simpl; [|by rewrite Hcreated].
      apply Hlora, Hreads. simpl. by left. }
    destruct (Hparams w) as (_ & Hdtype & _).
    cbn [contribution step_staging]. rewrite <- Hgiven, <- Hdtype.
    destruct (reconcile _ _) as [view|e] eqn:Hview; [|done].
    rewrite <- (scaled_view _ _ _ (dtype (params sa !!! w)) sc Hview).
    simplify_eq. split.
    + split; [|split].
      * intros d Hd. rewrite elem_of_app in Hd.
        unfold set_param. cbn [lora_tensors]. unfold scale_in_place.
        destruct g as [d'|name]; [|apply Hlora; tauto].
        simpl in Hd. cbn [given_tensor].
        destruct (shares _ _); [|apply Hlora; tauto]. simpl.
        rewrite lookup_total_insert_ne; [apply Hlora; tauto|].
        intros ->. apply Hd. left. by left.
      * unfold set_param. cbn [created]. by rewrite scale_in_place_created.
      * intros l. unfold set_param. cbn [params]. rewrite scale_in_place_params.
        destruct (decide (p' = l)) as [->|Hne].
        -- rewrite lookup_total_insert_eq. apply (Hparams l).
        -- rewrite lookup_total_insert_ne by done. apply Hparams.
    + unfold set_param. cbn [params]. rewrite scale_in_place_params.
      unfold contributions_at. cbn [flat_map fst snd].
      destruct (decide (p' = p)) as [->|Hne].
      * by rewrite lookup_total_insert_eq.
      * by rewrite lookup_total_insert_ne.
  - rewrite exec_unstage in Hst. simplify_eq. split.
    + by apply step_staging_agree.
    + by rewrite step_staging_params.
Qed.

(** The run adds the contributions one after the other, in order, each on
    top of what the earlier ones left, rounding each sum into the dtype of
    the parameter. *)
Lemma exec_sum cached (steps : list (Step R)) s0 p :
  ∀ (done : list loc) (book book' : Book R) sa sp sa',
    same_layout s0 sa →
    reads_unscaled s0 done steps = true →
    agree done sa sp →
    for_each (exec_step cached) steps book sa = (Ok book', sa') →
    data (params sa' !!! p)
    = fold_left (vadd_in (dtype (params sa !!! p)))
                (contributions_at p (contributions steps sp))
                (data (params sa !!! p)).
Proof.
  induction steps as [|st steps IH];
    intros done book book' sa sp sa' Hlay Hreads Hagree Hrun.
  { simpl in Hrun. unfold ret in Hrun. by simplify_eq. }
  rewrite for_each_cons in Hrun.
  destruct (exec_step cached st book sa) as [[book1|e] sa1] eqn:Hst; [|done].
  cbn [reads_unscaled] in Hreads. apply andb_true_iff in Hreads as [Hnow Hlater].
  assert (∀ d, d ∈ step_reads st → d ∉ done) as Hfresh.
  { intros d Hd%list_elem_of_In. rewrite forallb_forall in Hnow.
    specialize (Hnow _ Hd). by apply bool_decide_eq_true_1 in Hnow. }
  destruct (exec_step_sum cached st s0 done book book1 sa sp sa1 p
              Hlay Hfresh Hagree Hst) as [Hagree1 Hdata].
  assert (same_layout s0 sa1) as Hlay1.
  { eapply same_layout_trans; [exact Hlay|].
    pose proof (exec_step_layout cached st book sa) as H. by rewrite Hst in H. }
  rewrite (IH _ _ _ _ _ _ Hlay1 Hlater Hagree1 Hrun).
  pose proof (exec_step_meta cached st book sa p) as (_ & Hdt & _).
  rewrite Hst in Hdt. cbn [snd] in Hdt. rewrite Hdt, Hdata.
  cbn [contributions]. by rewrite contributions_at_app, fold_left_app.
Qed.

End Sum.

(** ** More on the resolver *)

Section ResolverFacts.

Implicit Types (s t : string) (c sep : ascii) (m model : Module).

Lemma split_cons sep s : ∃ first rest, PyStr.split sep s = first :: rest.
Proof.
  destruct s as [|a s]; simpl; [by eexists _, _|].
  destruct (Ascii.eqb a sep); [by eexists _, _|].
  destruct (PyStr.split sep s); by eexists _, _.
Qed.

Lemma walk_error m (atoms : list string) (e : PyError) :
  walk m atoms = Err e → e = AttributeError.
Proof.
  revert m. induction atoms as [|a atoms IH]; intros m; simpl; [done|].
  destruct (getattr m a) as [[p|c]|]; try (by intros ?; simplify_eq).
  apply IH.
Qed.

Lemma get_submodule_error m t (e : PyError) :
  get_submodule m t = Err e → e = AttributeError.
Proof.
  unfold get_submodule. destruct (decide (t = "")); [done|]. apply walk_error.
Qed.

Lemma get_parameter_error m t (e : PyError) :
  get_parameter m t = Err e → e = AttributeError.
Proof.
  unfold get_parameter.
  destruct (match PyStr.rpartition "." t with
            | Some (h, t') => (h, t')
            | None => ("", t)
            end) as [path name].
  destruct (get_submodule m path) as [md|e'] eqn:Hs.
  - destruct (getattr md name) as [[p|c]|]; by intros ?; simplify_eq.
  - intros ?; simplify_eq. by apply get_submodule_error in Hs.
Qed.

Lemma startswith_app (p s : string) : PyStr.startswith p (p +:+ s) = true.
Proof.
  induction p as [|a p IH]; [done|].
  rewrite app_cons. simpl. by rewrite Ascii.eqb_refl.
Qed.

Lemma drop_app (p s : string) : PyStr.drop (String.length p) (p +:+ s) = s.
Proof. induction p as [|a p IH]; [done|]. by rewrite app_cons. Qed.

(** A string that starts with [p] is [p] followed by what [drop] leaves. *)
Lemma startswith_drop (p s : string) :
  PyStr.startswith p s = true → s = p +:+ PyStr.drop (String.length p) s.
Proof.
  revert s. induction p as [|a p IH]; intros [|b s]; simpl; try done.
  destruct (Ascii.eqb a b) eqn:Hab; [|done].
  apply Ascii.eqb_eq in Hab as ->. intros H.
  rewrite app_cons. f_equal. by apply IH.
Qed.

(** The module key is an accumulator: what is in front of it stays in
    front. *)
Lemma resolve_loop_module_key (key_parts : list string) :
  ∀ m (front mk name : string),
    resolve_loop m (front +:+ mk) name key_parts
    = let '(m', mk', name') := resolve_loop m mk name key_parts in
      (m', front +:+ mk', name').
Proof.
  induction key_parts as [|next rest IH]; intros m front mk name; simpl; [done|].
  destruct (get_submodule m name) as [child|e]; [|apply IH].
  rewrite <- IH. by rewrite app_assoc.
Qed.

End ResolverFacts.

(** ** More on the run of [_patch_model] *)

Section PatchFacts.

Context {R : Type} `{!Scalar R}.

Implicit Types (model : Module) (prefix : string)
  (loras : list (LoRAModelRaw R * R))
  (cached : gmap string (Tensor R))
  (cached_weights : option (gmap string (Tensor R)))
  (book : Book R) (s : State R) (e : PyError).

(** *** Which exceptions a run raises *)

Lemma resolve_error_kinds model (key prefix : string) e :
  PyStr.startswith prefix key = true →
  _resolve_lora_key model key prefix = Err e →
  e = AssertionError ∨ e = AttributeError.
Proof.
  unfold _resolve_lora_key. intros ->.
  destruct (PyStr.contains "." key); [by intros ?; left; simplify_eq|]. simpl.
  destruct (split_cons "_" (PyStr.drop (String.length prefix) key))
    as (first & rest & ->).
  destruct (resolve_loop model "" first rest) as [[m mk] name].
  destruct (get_submodule m name) as [leaf|e'] eqn:Hg; [done|].
  intros ?; simplify_eq. right. by apply get_submodule_error in Hg.
Qed.

Lemma plan_raise_kinds model prefix loras e :
  SRaise e ∈ plan model prefix loras →
  e = AssertionError ∨ e = AttributeError.
Proof.
  unfold plan. intros Hst.
  apply elem_of_flat_map in Hst as ([lora_model lw] & _ & Hst).
  unfold lora_plan in Hst. cbn [fst snd] in Hst.
  apply elem_of_flat_map in Hst as ([layer_key layer] & _ & Hst).
  unfold layer_plan in Hst. cbn [fst snd] in Hst.
  destruct (PyStr.startswith prefix layer_key) eqn:Hpre; simpl in Hst;
    [|by apply elem_of_nil in Hst].
  destruct (_resolve_lora_key model layer_key prefix) as [[mk module]|e'] eqn:Hres.
  - destruct (module_weight module) as [w|e''] eqn:Hw.
    + apply elem_of_cons in Hst as [?|Hst]; [done|].
      apply elem_of_app in Hst as [Hst|Hst]; cycle 1.
      { by apply list_elem_of_singleton in Hst. }
      apply list_elem_of_fmap in Hst as ([name d] & Heq & _).
      unfold param_step in Heq. cbn [fst snd] in Heq.
      destruct (get_parameter module name) as [p|e''] eqn:Hp; [done|].
      simplify_eq. right. by apply get_parameter_error in Hp.
    + apply list_elem_of_singleton in Hst. simplify_eq. right.
      unfold module_weight in Hw.
      destruct (getattr module "weight") as [[?|?]|]; by simplify_eq.
  - apply list_elem_of_singleton in Hst. simplify_eq.
    by apply (resolve_error_kinds model layer_key prefix).
Qed.

Lemma exec_step_error cached (st : Step R) book s e s' :
  exec_step cached st book s = (Err e, s') →
  s' = s ∧ (st = SRaise e ∨ (step_target st ≠ [] ∧ e = ShapeError)).
Proof.
  destruct st as [e'|layer module w|k p d w sc|layer]; simpl.
  - unfold lift. intros ?; simplify_eq. split; [done|]. by left.
  - unfold bind, gets, modify, ret. by simpl.
  - unfold bind at 1. unfold gets at 1. rewrite patch_tensor_unfold.
    unfold reconcile, reshape.
    destruct (decide (shape _ ≠ shape _)); [|done].
    destruct (decide (numel_of _ = numel_of _)); [done|].
    intros ?; simplify_eq. split; [done|]. by right.
  - unfold bind, modify, ret. by simpl.
Qed.

Lemma exec_error cached (steps : list (Step R)) :
  ∀ book s e s',
    for_each (exec_step cached) steps book s = (Err e, s') →
    SRaise e ∈ steps ∨ e = ShapeError.
Proof.
  induction steps as [|st steps IH]; intros book s e s' Hrun; [done|].
  rewrite for_each_cons in Hrun.
  destruct (exec_step cached st book s) as [[book1|e1] s1] eqn:Hst.
  - destruct (IH _ _ _ _ Hrun) as [?|?]; [left; by right|by right].
  - simplify_eq. apply exec_step_error in Hst as [_ [->|[_ ->]]].
    + left. by left.
    + by right.
Qed.

Lemma copy_error (dst src : Tensor R) e :
  copy_ dst src = Err e → e = ShapeError.
Proof.
  unfold copy_. intros H. by case_match; simplify_eq.
Qed.

Lemma copy_loop_error model (items : list (string * result (Tensor R))) :
  ∀ s e s',
    copy_loop model items s = (Err e, s') →
    e = AttributeError ∨ e = ShapeError ∨ ∃ k, (k, Err e) ∈ items.
Proof.
  induction items as [|[k src] items IH]; intros s e s' Hrun; [done|].
  rewrite copy_loop_cons, copy_into_unfold in Hrun.
  destruct (get_parameter model k) as [p|e1] eqn:Hp; cycle 1.
  { simplify_eq. left. by apply get_parameter_error in Hp. }
  destruct src as [t|e1]; cycle 1.
  { simplify_eq. right. right. exists k. by left. }
  destruct (copy_ (params s !!! p) t) as [restored|e1] eqn:Hc; cycle 1.
  { simplify_eq. right. left. by apply copy_error in Hc. }
  destruct (IH _ _ _ Hrun) as [?|[?|[k' ?]]]; [by left|by right; left|].
  right. right. exists k'. by right.
Qed.

(** *** Which parameters a run writes *)

Lemma exec_step_frame cached (st : Step R) book s (l : loc) :
  l ∉ (step_target st).*2 →
  params (exec_step cached st book s).2 !!! l = params s !!! l.
Proof.
  intros Hl. destruct st as [e|layer module w|k p d w sc|layer].
  - done.
  - rewrite exec_stage. cbn [snd]. by rewrite step_staging_params.
  - rewrite exec_param, patch_tensor_unfold.
    destruct (reconcile _ _) as [view|e]; [|done]. cbn [snd].
    unfold set_param. cbn [params]. rewrite scale_in_place_params.
    rewrite lookup_total_insert_ne; [done|].
    intros ->. apply Hl. simpl. by left.
  - rewrite exec_unstage. cbn [snd]. by rewrite step_staging_params.
Qed.

Lemma exec_frame cached (steps : list (Step R)) (l : loc) :
  l ∉ (flat_map step_target steps).*2 →
  ∀ book s,
    params (for_each (exec_step cached) steps book s).2 !!! l = params s !!! l.
Proof.
  induction steps as [|st steps IH]; intros Hl book s; [done|].
  simpl in Hl. rewrite fmap_app, elem_of_app in Hl.
  rewrite for_each_cons.
  pose proof (exec_step_frame cached st book s l) as Hst.
  destruct (exec_step cached st book s) as [[book1|e1] s1]; simpl in *.
  - rewrite IH by tauto. apply Hst. tauto.
  - apply Hst. tauto.
Qed.

Lemma copy_loop_frame model (items : list (string * result (Tensor R))) (l : loc) :
  (∀ k src, (k, src) ∈ items → get_parameter model k ≠ Ok l) →
  ∀ s, params (copy_loop model items s).2 !!! l = params s !!! l.
Proof.
  induction items as [|[k src] items IH]; intros Hl s; [done|].
  rewrite copy_loop_cons, copy_into_unfold.
  destruct (get_parameter model k) as [p|e1] eqn:Hp; [|done].
  destruct src as [t|e1]; [|done].
  destruct (copy_ (params s !!! p) t) as [restored|e1]; [|done].
  rewrite IH; [|intros k' src' Hin; apply (Hl k' src'); by right]. simpl.
  rewrite lookup_total_insert_ne; [done|].
  intros ->. by apply (Hl k (Ok t)); [left|].
Qed.

(** *** The bookkeeping does not steer the run *)

Lemma exec_step_book_irrelevant cached (st : Step R) book book' s :
  (exec_step cached st book s).2 = (exec_step cached st book' s).2
  ∧ raised (exec_step cached st book s).1 = raised (exec_step cached st book' s).1.
Proof.
  destruct st as [e|layer module w|k p d w sc|layer]; simpl; try done.
  unfold bind at 1 2 3 4. unfold gets at 1 2 3 4. rewrite !patch_tensor_unfold.
  by destruct (reconcile _ _).
Qed.

Lemma exec_book_irrelevant cached (steps : list (Step R)) :
  ∀ book book' s,
    (for_each (exec_step cached) steps book s).2
    = (for_each (exec_step cached) steps book' s).2
    ∧ raised (for_each (exec_step cached) steps book s).1
      = raised (for_each (exec_step cached) steps book' s).1.
Proof.
  induction steps as [|st steps IH]; intros book book' s; [done|].
  rewrite !for_each_cons.
  destruct (exec_step_book_irrelevant cached st book book' s) as [Hs Hr].
  destruct (exec_step cached st book s) as [[b1|e1] s1],
           (exec_step cached st book' s) as [[b2|e2] s2];
    simpl in *; simplify_eq; [apply IH|done].
Qed.

Lemma plan_app model prefix loras loras' :
  plan model prefix (loras ++ loras')
  = plan model prefix loras ++ plan model prefix loras'.
Proof. unfold plan. apply flat_map_app. Qed.

(** *** Layers that do not match the prefix *)

Lemma flat_map_filter {A B : Type} (f : A → list B) (keep : A → bool)
    (l : list A) :
  (∀ x, keep x = false → f x = []) →
  flat_map f (List.filter keep l) = flat_map f l.
Proof.
  intros Hf. induction l as [|x l IH]; [done|]. simpl.
  destruct (keep x) eqn:Hk; simpl; [by rewrite IH|].
  by rewrite IH, Hf.
Qed.

Lemma plan_matching model prefix loras :
  plan model prefix (matching prefix loras) = plan model prefix loras.
Proof.
  unfold plan, matching. induction loras as [|[lora_model lw] loras IH]; [done|].
  simpl. rewrite IH. f_equal.
  unfold lora_plan, matching_layers. simpl.
  apply flat_map_filter. intros [key layer] Hk.
  unfold layer_plan. cbn [fst snd] in *. by rewrite Hk.
Qed.

End PatchFacts.

(** ** Staging of the LoRA layers, and iterators that raise *)

Section StageFacts.

Context {R : Type} `{!Scalar R}.

Implicit Types (s : State R) (l : loc) (layer : LoRALayer R).

(** *** The parameter loop keeps the shape, dtype and device of every
    LoRA tensor *)

Lemma param_loop_lora_meta cached mk (module : Module) (dt : DType) (sc : R)
    (items : list (string * Delta R)) l :
  ∀ (book : Book R) s,
    same_meta
      (lora_tensors (for_each (patch_param cached mk module dt sc) items book s).2 !!! l)
      (lora_tensors s !!! l).
Proof.
  induction items as [|item items IH]; intros book s; [done|].
  rewrite for_each_cons. unfold patch_param.
  unfold bind at 1. unfold lift at 1.
  destruct (get_parameter module item.1) as [p|e]; [|done].
  rewrite patch_tensor_unfold.
  destruct (reconcile _ _) as [view|e]; [|done].
  eapply same_meta_trans; [apply IH|].
  unfold set_param. cbn [lora_tensors].
  apply scale_in_place_lora_meta. by intros d' ->.
Qed.

(** *** The body of the layer loop, for a layer that is patched *)

Lemma patch_layer_unfold model prefix cached (lora_weight : R) key layer
    (book : Book R) s mk (module : Module) (w : loc) :
  PyStr.startswith prefix key = true →
  _resolve_lora_key model key prefix = Ok (mk, module) →
  module_weight module = Ok w →
  patch_layer model prefix cached lora_weight (key, layer) book s
  = match for_each (patch_param cached mk module (dtype (params s !!! w))
                      (py_mul lora_weight (layer_scale layer)))
                   (get_parameters layer module) book
                   (step_staging (SStage layer module w) s) with
    | (Ok book', s2) => (Ok book', layer_to_device layer CPU s2)
    | (Err e, s2) => (Err e, s2)
    end.
Proof.
  intros Hpre Hres Hw. unfold patch_layer. rewrite Hpre. cbn [negb].
  unfold bind at 1. unfold lift at 1. rewrite Hres.
  unfold bind at 1. unfold lift at 1. rewrite Hw.
  unfold bind, gets, modify, ret.
  by destruct (for_each _ _ book _) as [[book'|e] s2].
Qed.

Lemma patch_layer_skip model prefix cached (lora_weight : R) key layer
    (book : Book R) s :
  PyStr.startswith prefix key = false →
  patch_layer model prefix cached lora_weight (key, layer) book s = (Ok book, s).
Proof. intros Hpre. unfold patch_layer. by rewrite Hpre. Qed.

Lemma patch_layer_ok model prefix cached (lora_weight : R) key layer
    (book book' : Book R) s s' :
  PyStr.startswith prefix key = true →
  patch_layer model prefix cached lora_weight (key, layer) book s = (Ok book', s') →
  ∃ mk module w,
    _resolve_lora_key model key prefix = Ok (mk, module)
    ∧ module_weight module = Ok w.
Proof.
  intros Hpre. unfold patch_layer. rewrite Hpre. cbn [negb].
  unfold bind at 1. unfold lift at 1.
  destruct (_resolve_lora_key model key prefix) as [[mk module]|e]; [|done].
  unfold bind at 1. unfold lift at 1.
  destruct (module_weight module) as [w|e] eqn:Hw; [|done].
  intros _. by exists mk, module, w.
Qed.

Lemma at_rest_to_cpu (t : Tensor R) :
  dtype t = Float32 → at_rest (to_device CPU t).
Proof. by intros Hd. Qed.

Lemma to_float32_dtype (t : Tensor R) : dtype (to_dtype Float32 t) = Float32.
Proof. unfold to_dtype. by destruct (decide _). Qed.

Lemma to_float32_device (t : Tensor R) : device (to_dtype Float32 t) = device t.
Proof. unfold to_dtype. by destruct (decide _). Qed.

(** After lines 119-120 every tensor of the layer is on the device asked
    for, in float32. *)
Lemma stage_layer_at layer (dev : Device) s l :
  l ∈ tensors layer →
  device (lora_tensors (layer_to_dtype layer Float32
                          (layer_to_device layer dev s)) !!! l) = dev
  ∧ dtype (lora_tensors (layer_to_dtype layer Float32
                           (layer_to_device layer dev s)) !!! l) = Float32.
Proof.
  intros Hl. split.
  - unfold layer_to_dtype.
    apply (stage_loop_keep (λ t, device t = dev)).
    { intros t. by rewrite to_float32_device. }
    unfold layer_to_device. by apply (stage_loop_at (λ t, device t = dev)).
  - unfold layer_to_dtype.
    apply (stage_loop_at (λ t, dtype t = Float32)); [|done].
    apply to_float32_dtype.
Qed.

Lemma stage_layer_frame layer (dev : Device) s l :
  l ∉ tensors layer →
  lora_tensors (layer_to_dtype layer Float32 (layer_to_device layer dev s)) !!! l
  = lora_tensors s !!! l.
Proof.
  intros Hl. unfold layer_to_dtype. rewrite stage_loop_frame by done.
  unfold layer_to_device. by rewrite stage_loop_frame.
Qed.

(** A successful pass of the layer loop leaves the layer's tensors at
    rest, and leaves at rest what was. *)
Lemma patch_layer_rest model prefix cached (lora_weight : R) key layer
    (book book' : Book R) s s' :
  patch_layer model prefix cached lora_weight (key, layer) book s = (Ok book', s') →
  (∀ l, at_rest (lora_tensors s !!! l) → at_rest (lora_tensors s' !!! l))
  ∧ (PyStr.startswith prefix key = true →
     ∀ l, l ∈ tensors layer → at_rest (lora_tensors s' !!! l)).
Proof.
  intros Hrun.
  destruct (PyStr.startswith prefix key) eqn:Hpre; cycle 1.
  { rewrite patch_layer_skip in Hrun by done. by simplify_eq. }
  destruct (patch_layer_ok _ _ _ _ _ _ _ _ _ _ Hpre Hrun)
    as (mk & module & w & Hres & Hw).
  rewrite (patch_layer_unfold _ _ _ _ _ _ _ _ _ _ _ Hpre Hres Hw) in Hrun.
  set (s1 := step_staging (SStage layer module w) s) in Hrun.
  assert (lora_tensors s1
          = lora_tensors (layer_to_dtype layer Float32
                            (layer_to_device layer (device (params s !!! w)) s)))
    as Hs1 by reflexivity.
  pose proof (λ l, param_loop_lora_meta cached mk module (dtype (params s !!! w))
                     (py_mul lora_weight (layer_scale layer))
                     (get_parameters layer module) l book s1) as Hmeta.
  destruct (for_each _ _ book s1) as [[book1|e] s2]; [|done].
  simplify_eq. cbn [snd] in Hmeta.
  assert (∀ l, l ∈ tensors layer →
               at_rest (lora_tensors (layer_to_device layer CPU s2) !!! l)) as Hin.
  { intros l Hl. destruct (Hmeta l) as (_ & Hd & _). rewrite Hs1 in Hd.
    destruct (stage_layer_at layer (device (params s !!! w)) s l Hl) as [_ Hf].
    rewrite Hf in Hd.
    unfold layer_to_device.
    apply (stage_loop_at (λ t, dtype t = Float32 → at_rest t)); [|done|].
    - intros t. apply at_rest_to_cpu.
    - apply (stage_loop_keep (λ t, dtype t = Float32)); [done|congruence]. }
  split; [|by intros _].
  intros l Hl. destruct (decide (l ∈ tensors layer)) as [?|Hout]; [by apply Hin|].
  unfold layer_to_device. rewrite stage_loop_frame by done.
  destruct (Hmeta l) as (_ & Hd & Hdev & _).
  rewrite Hs1 in Hd, Hdev. rewrite stage_layer_frame in Hd, Hdev by done.
  destruct Hl as [Hl1 Hl2]. split; congruence.
Qed.

Lemma patch_lora_rest model prefix cached (lora_model : LoRAModelRaw R)
    (lora_weight : R) (book book' : Book R) s s' :
  patch_lora model prefix cached (lora_model, lora_weight) book s = (Ok book', s') →
  (∀ l, at_rest (lora_tensors s !!! l) → at_rest (lora_tensors s' !!! l))
  ∧ (∀ key layer, (key, layer) ∈ layers lora_model →
                  PyStr.startswith prefix key = true →
                  ∀ l, l ∈ tensors layer → at_rest (lora_tensors s' !!! l)).
Proof.
  unfold patch_lora. revert book s.
  induction (layers lora_model) as [|[key layer] ls IH]; intros book s Hrun.
  { unfold for_each, ret in Hrun. simplify_eq.
    split; [done|]. by intros key layer ?%elem_of_nil. }
  rewrite for_each_cons in Hrun.
  destruct (patch_layer model prefix cached lora_weight (key, layer) book s)
    as [[book1|e] s1] eqn:Hlayer; [|done].
  apply patch_layer_rest in Hlayer as [Hkeep Hnew].
  destruct (IH _ _ Hrun) as [Hkeep' Hnew'].
  split; [by intros l ?; apply Hkeep', Hkeep|].
  intros key' layer' [?|Hin]%elem_of_cons Hpre l Hl.
  - simplify_eq. by apply Hkeep', Hnew.
  - by apply (Hnew' key' layer').
Qed.

(** *** [_patch_model] on an iterator that may raise *)

Lemma patch_model_iter_ok model prefix (loras : list (LoRAModelRaw R * R))
    cached_weights s :
  _patch_model_iter model prefix (map Ok loras) cached_weights s
  = _patch_model model prefix loras cached_weights s.
Proof.
  unfold _patch_model_iter, _patch_model.
  generalize (∅ : gset string, [] : list (string * Tensor R)). revert s.
  induction loras as [|item loras IH]; intros s book; [done|].
  cbn [map]. rewrite !for_each_cons. unfold bind at 1. unfold lift at 1.
  destruct (patch_lora _ _ _ item book s) as [[book1|e] s1]; [apply IH|done].
Qed.

Lemma patch_model_iter_raise model prefix (loras : list (LoRAModelRaw R * R))
    (e : PyError) (rest : list (result (LoRAModelRaw R * R))) cached_weights s :
  _patch_model_iter model prefix (map Ok loras ++ Err e :: rest) cached_weights s
  = match _patch_model model prefix loras cached_weights s with
    | (Ok _, s1) => (Err e, s1)
    | (Err e', s1) => (Err e', s1)
    end.
Proof.
  unfold _patch_model_iter, _patch_model.
  generalize (∅ : gset string, [] : list (string * Tensor R)). revert s.
  induction loras as [|item loras IH]; intros s book; [done|].
  cbn [map app]. rewrite !for_each_cons. unfold bind at 1. unfold lift at 1.
  destruct (patch_lora _ _ _ item book s) as [[book1|e1] s1]; [apply IH|done].
Qed.

Lemma lora_loader_loaded (ctx : InvocationContext R) (fields : list (LoRAField R))
    (prefix : string) :
  (∀ field, field ∈ fields → ∃ lora_model, models_load ctx (lora field) = Ok lora_model) →
  _lora_loader (__init__ ctx fields prefix) = map Ok (loaded ctx fields).
Proof.
  unfold _lora_loader, loaded. simpl.
  induction fields as [|field fields IH]; intros Hload; [done|].
  cbn [map flat_map]. rewrite IH; [|intros f Hf; apply Hload; by right].
  destruct (Hload field) as [lora_model ->]; [by left|done].
Qed.

Lemma lora_loader_app (ctx : InvocationContext R)
    (fields fields' : list (LoRAField R)) (prefix : string) :
  _lora_loader (__init__ ctx (fields ++ fields') prefix)
  = _lora_loader (__init__ ctx fields prefix)
    ++ _lora_loader (__init__ ctx fields' prefix).
Proof. unfold _lora_loader. simpl. apply map_app. Qed.

End StageFacts.

(** * The claims *)

Section ClaimsResolver.

(** C10: a LoRA key that contains a dot is rejected by the entry
    assertion of [_resolve_lora_key], before the prefix test and before
    any traversal, whatever the model and the prefix. *)
Theorem resolve_rejects_dotted_key (model : Module) (lora_key prefix : string) :
  PyStr.contains "." lora_key = true →
  _resolve_lora_key model lora_key prefix = Err AssertionError.
Proof. intros Hdot. unfold _resolve_lora_key. by rewrite Hdot. Qed.

(** C5 (amended): for every key that contains no dot and starts with the
    prefix, [_resolve_lora_key] is the greedy descent of the
    specification over the underscore-separated tokens behind the prefix
    (a resolved accumulated token opens a new one, a failed one is
    extended by an underscore and the next token, and the last
    accumulated token is resolved by a final descent whose failure is the
    resolver's); the canonical key is the path joined by dots and
    stripped of all its leading dots. *)
Theorem resolve_lora_key_greedy (model : Module) (lora_key prefix : string) :
  PyStr.contains "." lora_key = false →
  PyStr.startswith prefix lora_key = true →
  _resolve_lora_key model lora_key prefix
  = match spec_path model lora_key prefix with
    | Ok (path, leaf) => Ok (PyStr.lstrip "." (PyStr.join "." path), leaf)
    | Err e => Err e
    end.
Proof.
  intros Hdot Hpre. unfold _resolve_lora_key, spec_path.
  rewrite Hdot, Hpre. simpl negb. cbv iota.
  destruct (PyStr.split "_" (PyStr.drop (String.length prefix) lora_key))
    as [|first rest] eqn:Hs; [done|].
  pose proof (resolve_loop_descend rest model "" first) as H.
  destruct (resolve_loop model "" first rest) as [[m' mk'] name].
  destruct (get_submodule m' name) as [leaf|e].
  - destruct H as (path & Hne & -> & Hk).
    rewrite Hk, app_nil_l. by rewrite lstrip_dotted.
  - by rewrite H.
Qed.

End ClaimsResolver.

Section ClaimsSteps.

Context {R : Type} `{!Scalar R}.

(** C6: the scale of a layer is [alpha / rank] when alpha and rank are
    both present and non-zero, and 1.0 when alpha is absent, rank is
    absent, alpha is zero or rank is zero. *)
Theorem layer_scale_cases (layer : LoRALayer R) :
  (∀ a r, alpha layer = Some a → rank layer = Some r →
          r_is_zero a = false → r ≠ 0 →
          layer_scale layer = py_div a (r_of_Z r))
  ∧ (alpha layer = None ∨ rank layer = None
     ∨ (∃ a, alpha layer = Some a ∧ r_is_zero a = true)
     ∨ rank layer = Some 0 →
     layer_scale layer = rone).
Proof.
  unfold layer_scale, truthy_alpha, truthy_rank. split.
  - intros a r -> -> Ha Hr. rewrite Ha. simpl.
    by apply Z.eqb_neq in Hr as ->.
  - intros [Ha|[Hr|[(a & Ha & Hz)|Hr]]].
    + by rewrite Ha.
    + rewrite Hr. by destruct (alpha layer).
    + rewrite Ha, Hz. by destruct (rank layer).
    + rewrite Hr. destruct (alpha layer); [|done]. simpl.
      by rewrite andb_false_r.
Qed.

(** C7: when the shape of the delta differs from the parameter's, lines
    128-142 reshape the delta to the parameter's shape if the element
    counts agree: [reshape] gives a tensor of the parameter's shape with
    the elements of the delta, and [+=], which raises on an operand that
    does not fit the parameter, adds its scaled elements without error.
    If the element counts differ they raise torch's shape error (the
    specification's ShapeError) and leave every store as it was, so that
    delta is not written, and [_patch_model] as a whole raises that error
    from the stores the earlier steps produced. *)
Theorem reshape_or_shape_error (cached_weights : option (gmap string (Tensor R)))
    (key : string) (p : loc) (g : Given) (dt : DType) (sc : R) (book : Book R)
    (s : State R) :
  let cached := default ∅ cached_weights in
  let module_param := params s !!! p in
  let delta := given_tensor g s in
  shape module_param ≠ shape delta →
  (numel_of (shape delta) = numel_of (shape module_param) →
   ∃ view s',
     reshape delta (shape module_param) = Ok view
     ∧ shape view = shape module_param
     ∧ data view = data delta
     ∧ patch_tensor cached key p g dt sc book s
       = (Ok (save_original cached key module_param book), s')
     ∧ iadd module_param (to_dtype dt (imul view sc)) = Ok (params s' !!! p)
     ∧ data (params s' !!! p)
       = vadd_in (dtype module_param) (data module_param)
                 (data (to_dtype dt (imul view sc))))
  ∧ (numel_of (shape delta) ≠ numel_of (shape module_param) →
     patch_tensor cached key p g dt sc book s = (Err ShapeError, s)
     ∧ ∀ model prefix loras (before after : list (Step R)) (w : loc) s0,
         plan model prefix loras = before ++ SParam key p g w sc :: after →
         for_each (exec_step cached) before (∅, []) s0 = (Ok book, s) →
         _patch_model model prefix loras cached_weights s0 = (Err ShapeError, s)).
Proof.
  intros cached module_param delta Hne.
  assert (numel_of (shape delta) ≠ numel_of (shape module_param) →
          ∀ dt', patch_tensor cached key p g dt' sc book s = (Err ShapeError, s))
    as Hraise.
  { intros Hn dt'. rewrite patch_tensor_unfold.
    fold module_param delta. unfold reconcile, reshape.
    rewrite decide_True by done. by rewrite decide_False. }
  split; intros Hn.
  - assert (reconcile module_param delta
            = Ok (mkTensor (shape module_param) (dtype delta) (device delta)
                           (data delta) true)) as Hview.
    { unfold reconcile, reshape. rewrite decide_True by done.
      by rewrite decide_True. }
    eexists _, _. split.
    { unfold reshape. by rewrite decide_True. }
    split; [done|]. split; [done|].
    rewrite patch_tensor_unfold. fold module_param delta. rewrite Hview.
    split; [reflexivity|]. cbn [params set_param].
    rewrite scale_in_place_params, lookup_total_insert_eq.
    split; [|done]. apply iadd_same_shape. by rewrite to_dtype_shape.
  - split; [by apply Hraise|].
    intros model prefix loras before after w s0 Hplan Hbefore.
    apply (patch_model_aborts model prefix loras cached_weights before after
             (SParam key p g w sc) s0 s s book); [done|done|].
    rewrite exec_param. by apply Hraise.
Qed.

(** C9: applying a patch, restoring, and the scoped form as a whole
    leave the shape, the dtype and the device of every tensor of the
    model's parameter store as they were, on normal and on exceptional
    exits alike: only elements change. *)
Theorem params_meta_preserved (model : Module) (prefix : string)
    (loras : list (LoRAModelRaw R * R))
    (cached_weights : option (gmap string (Tensor R)))
    (mcw : gset string) (mw : list (string * Tensor R))
    (body : ScopeBody R) (s : State R) (l : loc) :
  same_meta (params (_patch_model model prefix loras cached_weights s).2 !!! l)
            (params s !!! l)
  ∧ same_meta (params (restore model cached_weights mcw mw s).2 !!! l)
              (params s !!! l)
  ∧ same_meta
      (params (static_patch_model model prefix loras cached_weights body s).2 !!! l)
      (params s !!! l).
Proof.
  split; [apply patch_model_meta|].
  split; [apply restore_meta|apply static_patch_model_meta].
Qed.

End ClaimsSteps.

Section ClaimsSession.

Context {R : Type} `{!Scalar R}.

Implicit Types (model : Module) (prefix : string)
  (loras : list (LoRAModelRaw R * R))
  (cached_weights : option (gmap string (Tensor R)))
  (mcw : gset string) (mw : list (string * Tensor R)) (s : State R).




End ClaimsSession.

Section ClaimsLora.

Context {R : Type} `{!Scalar R}.

(** C8 (amended): let [d] be a tensor of the LoRA store that no layer
    hands out itself through [get_parameters] for a parameter of its
    shape, or for any parameter if [reshape] can view it.  After
    [_patch_model], on normal and on exceptional exit, it differs from
    what it was by staging only: it has its shape and layout, and its
    elements, cast to float32 if line 120 cast them.  The tensors behind a
    delta that [get_parameters] makes are such tensors, whatever the
    delta. *)
Theorem layer_frame (model : Module) (prefix : string)
    (loras : list (LoRAModelRaw R * R))
    (cached_weights : option (gmap string (Tensor R))) (s : State R) (d : loc) :
  (∀ (k : string) (p w : loc) (scale : R),
     SParam k p (Stored d) w scale ∈ plan model prefix loras →
     shape (params s !!! p) ≠ shape (lora_tensors s !!! d)
     ∧ viewable (lora_tensors s !!! d) = false) →
  staged (lora_tensors s !!! d)
         (lora_tensors (_patch_model model prefix loras cached_weights s).2 !!! d).
Proof.
  intros Hcopy. rewrite patch_model_plan.
  apply (exec_staged _ _ s); [|apply same_layout_refl|apply staged_refl].
  intros Hd. apply elem_of_flat_map in Hd as (st & Hst & Hd).
  destruct st as [e|layer module w|k p g w sc|layer];
    try (by apply elem_of_nil in Hd).
  destruct g as [d'|name]; [|by apply elem_of_nil in Hd]. simpl in Hd.
  destruct (shares _ _) eqn:Hshares; [|by apply elem_of_nil in Hd].
  apply list_elem_of_singleton in Hd as ->.
  destruct (Hcopy k p w sc Hst) as [Hshape Hview].
  unfold shares in Hshares. rewrite Hview, orb_false_r in Hshares.
  by apply bool_decide_eq_true_1 in Hshares.
Qed.

End ClaimsLora.

Section ClaimsSum.

Context {R : Type} `{!Scalar R}.

(** C2 (amended): let no step of the loops read a tensor that an earlier
    step has multiplied in place.  After a successful [_patch_model] the
    elements of every parameter tensor are the original elements with the
    contributions to that tensor added one after the other, in the order
    of the LoRAs, their layers and their parameters, each on top of the
    earlier ones and each sum rounded into the dtype of the parameter;
    each contribution is the delta that the layer provides, in the shape
    of the parameter, multiplied by [weight * layer_scale] (the product
    of two Python floats) in the delta's dtype and cast to the dtype of
    [module.weight]. *)
Theorem patch_model_additive (model : Module) (prefix : string)
    (loras : list (LoRAModelRaw R * R))
    (cached_weights : option (gmap string (Tensor R)))
    (s0 : State R) (book : Book R) (s1 : State R) (p : loc) :
  _patch_model model prefix loras cached_weights s0 = (Ok book, s1) →
  reads_unscaled s0 [] (plan model prefix loras) = true →
  let original := data (params s0 !!! p) in
  let cs := contributions_at p (contributions (plan model prefix loras) s0) in
  data (params s1 !!! p)
  = fold_left (vadd_in (dtype (params s0 !!! p))) cs original
  ∧ ∀ k p' g w scale,
      SParam k p' g w scale ∈ plan model prefix loras →
      ∃ lora lora_weight layer_key layer,
        (lora, lora_weight) ∈ loras
        ∧ (layer_key, layer) ∈ layers lora
        ∧ scale = py_mul lora_weight (layer_scale layer).
Proof.
  intros Hrun Hreads original cs. rewrite patch_model_plan in Hrun. split.
  - apply (exec_sum (default ∅ cached_weights) (plan model prefix loras) s0 p
             [] (∅, []) book s0 s0 s1); [apply same_layout_refl|done| |done].
    split; [done|]. split; [done|]. by intros l.
  - intros k p' g w scale Hst.
    destruct (plan_param_origin _ _ _ _ _ _ _ _ Hst)
      as (lora & lw & layer_key & layer & mk & module & name & delta
          & Hlora & Hlayer & _ & _ & _ & _ & _ & _ & ->).
    by exists lora, lw, layer_key, layer.
Qed.

End ClaimsSum.

(** * Further properties of the code *)

Section ExtrasResolver.

(** X1: the three ways [_resolve_lora_key] ends.  A key with a dot fails
    the assertion; a key without a dot that does not start with the prefix
    raises the invalid-prefix exception; every other key either resolves or
    fails with the [AttributeError] of the final [get_submodule], and with
    no other exception. *)
Theorem resolve_lora_key_outcomes (model : Module) (lora_key prefix : string) :
  (PyStr.contains "." lora_key = true →
   _resolve_lora_key model lora_key prefix = Err AssertionError)
  ∧ (PyStr.contains "." lora_key = false →
     PyStr.startswith prefix lora_key = false →
     _resolve_lora_key model lora_key prefix = Err InvalidPrefix)
  ∧ (PyStr.contains "." lora_key = false →
     PyStr.startswith prefix lora_key = true →
     (∃ module_key module,
        _resolve_lora_key model lora_key prefix = Ok (module_key, module))
     ∨ _resolve_lora_key model lora_key prefix = Err AttributeError).
Proof.
  unfold _resolve_lora_key. split; [by intros ->|]. split.
  - by intros -> ->.
  - intros -> ->. simpl.
    destruct (split_cons "_" (PyStr.drop (String.length prefix) lora_key))
      as (first & rest & ->).
    destruct (resolve_loop model "" first rest) as [[m mk] name].
    destruct (get_submodule m name) as [leaf|e] eqn:Hg.
    + left. by eexists _, _.
    + right. by apply get_submodule_error in Hg as ->.
Qed.

(** X2: for a key whose tokens behind the prefix are all non-empty, the
    canonical key that [_resolve_lora_key] returns is a path that
    [get_submodule] follows from the root to the very module returned
    with it. *)
Theorem canonical_key_finds_module (model module : Module)
    (lora_key prefix module_key : string) :
  plain_tokens prefix lora_key →
  _resolve_lora_key model lora_key prefix = Ok (module_key, module) →
  get_submodule model module_key = Ok module.
Proof.
  intros Htok Hres.
  destruct (resolve_plain model lora_key prefix module_key module Htok Hres)
    as (path & Hall & Hne & -> & Hwalk).
  unfold get_submodule. rewrite decide_False by (by apply join_nonempty).
  by rewrite split_join.
Qed.

(** X3: a key that is exactly the prefix (nothing behind it) resolves to
    the model itself, with the empty canonical key. *)
Theorem resolve_bare_prefix (model : Module) (prefix : string) :
  PyStr.contains "." prefix = false →
  _resolve_lora_key model prefix prefix = Ok ("", model).
Proof.
  intros Hdot. unfold _resolve_lora_key. rewrite Hdot.
  rewrite <- (app_nil_r prefix) at 2. rewrite startswith_app. simpl.
  rewrite <- (app_nil_r prefix) at 2. by rewrite drop_app.
Qed.

(** X4: the underscore that ends the prefix is optional.  A key that
    starts with [prefix] and an underscore resolves with [prefix] exactly
    as it does with [prefix + "_"]: the empty first token resolves to the
    model itself and the extra leading dot is stripped. *)
Theorem resolve_prefix_underscore_optional (model : Module)
    (lora_key prefix : string) :
  PyStr.startswith (prefix +:+ "_") lora_key = true →
  _resolve_lora_key model lora_key prefix
  = _resolve_lora_key model lora_key (prefix +:+ "_").
Proof.
  intros Hpre. pose proof (startswith_drop _ _ Hpre) as Hkey.
  remember (PyStr.drop (String.length (prefix +:+ "_")) lora_key) as r eqn:Hr.
  rewrite app_assoc in Hkey.
  assert (PyStr.startswith prefix lora_key = true) as Hpre'.
  { rewrite Hkey. apply startswith_app. }
  assert (PyStr.drop (String.length prefix) lora_key = String "_" r) as Hdrop.
  { rewrite Hkey at 1. apply drop_app. }
  unfold _resolve_lora_key.
  destruct (PyStr.contains "." lora_key); [done|].
  rewrite Hpre, Hpre', Hdrop, <- Hr. simpl.
  destruct (split_cons "_" r) as (first & rest & ->). simpl.
  change ("" +:+ "." +:+ "") with ("." +:+ "").
  rewrite (resolve_loop_module_key rest model "." "" first).
  destruct (resolve_loop model "" first rest) as [[m mk] name].
  destruct (get_submodule m name); [|done].
  by rewrite app_assoc.
Qed.

End ExtrasResolver.

Section ExtrasPatch.

Context {R : Type} `{!Scalar R}.

Implicit Types (model : Module) (prefix : string)
  (loras : list (LoRAModelRaw R * R))
  (cached_weights : option (gmap string (Tensor R)))
  (mcw : gset string) (mw : list (string * Tensor R))
  (book : Book R) (s : State R) (e : PyError).

(** X5: prefix filtering (lines 96-97).  Layers whose key does not start
    with the prefix have no effect at all: [_patch_model] gives the same
    result and the same stores as on the LoRAs with those layers removed,
    so such a key is never resolved, never staged and never an error; and
    when no layer key starts with the prefix, [_patch_model] returns empty
    bookkeeping and leaves both stores untouched. *)
Theorem prefix_filtering model prefix loras cached_weights s :
  _patch_model model prefix loras cached_weights s
  = _patch_model model prefix (matching prefix loras) cached_weights s
  ∧ ((∀ lora_model w key layer,
        (lora_model, w) ∈ loras → (key, layer) ∈ layers lora_model →
        PyStr.startswith prefix key = false) →
     _patch_model model prefix loras cached_weights s = (Ok (∅, []), s)).
Proof.
  split.
  - by rewrite !patch_model_plan, plan_matching.
  - intros Hnone. rewrite patch_model_plan.
    assert (plan model prefix loras = []) as ->; [|done].
    unfold plan. induction loras as [|[lora_model w] loras IH]; [done|].
    simpl. rewrite IH; cycle 1.
    { intros lm' w' key layer Hin. apply (Hnone lm' w'). by right. }
    rewrite List.app_nil_r. unfold lora_plan. cbn [fst snd].
    assert (∀ key layer, (key, layer) ∈ layers lora_model →
                         PyStr.startswith prefix key = false) as Hl.
    { intros key layer. apply (Hnone lora_model w). by left. }
    induction (layers lora_model) as [|[key layer] ls IHl]; [done|].
    simpl. rewrite IHl; [|intros k' l' Hin; apply (Hl k' l'); by right].
    unfold layer_plan. cbn [fst snd]. rewrite (Hl key layer); [done|by left].
Qed.

(** X6: [_patch_model] raises nothing but the failed assertion on a
    dotted key, [AttributeError] (an unresolvable key, a module without
    [weight], a missing parameter name) and the shape error of [reshape].
    In particular the invalid-prefix exception of [_resolve_lora_key] is
    unreachable from it, because line 96 skips such keys first. *)
Theorem patch_model_errors model prefix loras cached_weights s e s' :
  _patch_model model prefix loras cached_weights s = (Err e, s') →
  e = AssertionError ∨ e = AttributeError ∨ e = ShapeError.
Proof.
  rewrite patch_model_plan. intros Hrun.
  apply exec_error in Hrun as [Hin| ->]; [|by right; right].
  apply plan_raise_kinds in Hin as [->| ->]; [by left|by right; left].
Qed.

(** X7: the scoped form ends with an exception only in three ways:
    [_patch_model] raised it (nothing is restored then), the [finally]
    block raised [AttributeError] or the shape error of [copy_], or the
    body raised it and restoration went through.  The subscript
    [cached_weights[param_key]] of line 68 never raises, whether the
    caller passed a dict or [None]. *)
Theorem static_patch_model_errors model prefix loras cached_weights
    (body : ScopeBody R) s e s' :
  static_patch_model model prefix loras cached_weights body s = (Err e, s') →
  _patch_model model prefix loras cached_weights s = (Err e, s')
  ∨ (∃ book s1,
       _patch_model model prefix loras cached_weights s = (Ok book, s1)
       ∧ ((restore model cached_weights book.1 book.2 (run_body body s1)
             = (Err e, s')
           ∧ (e = AttributeError ∨ e = ShapeError))
          ∨ (restore model cached_weights book.1 book.2 (run_body body s1)
               = (Ok tt, s')
             ∧ body_exit body s1 = Err e))).
Proof.
  unfold static_patch_model.
  destruct (_patch_model model prefix loras cached_weights s)
    as [[[mcw mw]|e1] s1] eqn:Hrun; [|intros Hexit; left; by simplify_eq].
  intros Hexit. right. exists (mcw, mw), s1. split; [done|]. cbn [fst snd].
  destruct (restore model cached_weights mcw mw (run_body body s1))
    as [[[]|e3] s3] eqn:Hrestore.
  - right. by simplify_eq.
  - left. simplify_eq. split; [done|].
    rewrite restore_copy_loop in Hrestore.
    apply copy_loop_error in Hrestore as [?|[?|[k Hk]]]; [by left|by right|].
    exfalso.
    destruct (patch_model_book _ _ _ _ _ _ _ _ Hrun) as ((Hcached & _) & _).
    apply restore_items_elem in Hk as [[Hin Hsub]|(v & _ & ?)]; [|done].
    destruct (Hcached k Hin) as [t Ht].
    by rewrite (subscript_cached _ _ _ Ht) in Hsub.
Qed.

(** X8: no [cached_weights] is an empty [cached_weights], in the
    [finally] block too: with [None] the set of cached keys stays empty,
    so line 68 is never reached and [None] is never subscripted. *)
Theorem no_cache_is_empty_cache model prefix loras (body : ScopeBody R) s :
  static_patch_model model prefix loras None body s
  = static_patch_model model prefix loras (Some ∅) body s.
Proof.
  unfold static_patch_model.
  change (_patch_model model prefix loras (Some ∅) s)
    with (_patch_model model prefix loras None s).
  destruct (_patch_model model prefix loras None s)
    as [[[mcw mw]|e1] s1] eqn:Hrun; [|done].
  destruct (patch_model_book _ _ _ _ _ _ _ _ Hrun) as ((Hcached & _) & _).
  assert (mcw = ∅) as ->.
  { apply set_eq. intros k. split; [|by intros ?%not_elem_of_empty].
    intros Hk. destruct (Hcached k Hk) as [t Ht]. simpl in Ht.
    by rewrite lookup_empty in Ht. }
  unfold restore. by rewrite elements_empty.
Qed.

(** X9: what [_patch_model] returns.  The keys of
    [modified_cached_weights] are exactly the touched keys that
    [cached_weights] has, and the keys of [modified_weights] are exactly
    the touched keys that it lacks: no touched key is missing from the
    bookkeeping and no other key is in it. *)
Theorem bookkeeping_keys model prefix loras cached_weights s mcw mw s1
    (k : string) :
  _patch_model model prefix loras cached_weights s = (Ok (mcw, mw), s1) →
  (k ∈ mcw ↔ (∃ p, (k, p) ∈ targets model prefix loras)
             ∧ is_Some (default ∅ cached_weights !! k))
  ∧ (is_Some (assoc k mw) ↔ (∃ p, (k, p) ∈ targets model prefix loras)
                            ∧ default ∅ cached_weights !! k = None).
Proof.
  intros Hrun.
  destruct (patch_model_book _ _ _ _ _ _ _ _ Hrun)
    as ((Hcached & Hfresh & _) & Hsaved & Htarget).
  split; split.
  - intros Hk. split; [apply Htarget; by left|by apply Hcached].
  - intros [[p Hp] [t Ht]]. destruct (Hsaved k p Hp) as [?|Hk]; [done|].
    cbn [snd] in Hk. by rewrite (Hfresh k Hk) in Ht.
  - intros Hk. split; [apply Htarget; by right|by apply Hfresh].
  - intros [[p Hp] Hnone]. destruct (Hsaved k p Hp) as [Hk|?]; [|done].
    cbn [fst] in Hk. destruct (Hcached k Hk) as [t Ht]. by rewrite Hnone in Ht.
Qed.

(** X10: the patcher writes no other parameter.  A parameter tensor that
    no targeted key addresses is the same after [_patch_model], on normal
    and on exceptional exit, and a parameter tensor that no saved key
    addresses is the same after the [finally] block. *)
Theorem untouched_parameters model prefix loras cached_weights s (p : loc) :
  (p ∉ (targets model prefix loras).*2 →
   params (_patch_model model prefix loras cached_weights s).2 !!! p
   = params s !!! p)
  ∧ (∀ mcw mw,
       (∀ k, k ∈ mcw ∨ k ∈ mw.*1 → get_parameter model k ≠ Ok p) →
       params (restore model cached_weights mcw mw s).2 !!! p = params s !!! p).
Proof.
  split.
  - intros Hp. rewrite patch_model_plan. by apply exec_frame.
  - intros mcw mw Hp. rewrite restore_copy_loop. apply copy_loop_frame.
    intros k src [[Hin _]|(v & Hin & _)]%restore_items_elem; apply Hp.
    + by left.
    + right. apply list_elem_of_fmap. by exists (k, v).
Qed.

(** X11: sessions compose.  When [_patch_model] succeeds on a first list
    of LoRAs, patching a second list right after it, without restoring in
    between, leaves both stores exactly as one [_patch_model] on the two
    lists together does, and ends the same way: the bookkeeping never
    steers what is written. *)
Theorem sessions_compose model prefix loras loras' cached_weights s book s1 :
  _patch_model model prefix loras cached_weights s = (Ok book, s1) →
  (_patch_model model prefix (loras ++ loras') cached_weights s).2
  = (_patch_model model prefix loras' cached_weights s1).2
  ∧ raised (_patch_model model prefix (loras ++ loras') cached_weights s).1
    = raised (_patch_model model prefix loras' cached_weights s1).1.
Proof.
  rewrite !patch_model_plan, plan_app, for_each_app. intros Hrun.
  unfold bind. rewrite Hrun. apply exec_book_irrelevant.
Qed.

(** X12: no rollback.  When the steps before some step of the loops
    succeed and that step raises, the scoped form raises the same
    exception without entering the body and without restoring anything:
    the stores are left as the failing step found them, with the earlier
    deltas applied. *)
Theorem scoped_form_does_not_roll_back model prefix loras cached_weights
    (body : ScopeBody R) (before after : list (Step R)) (st : Step R)
    s0 s s' book e :
  plan model prefix loras = before ++ st :: after →
  for_each (exec_step (default ∅ cached_weights)) before (∅, []) s0 = (Ok book, s) →
  exec_step (default ∅ cached_weights) st book s = (Err e, s') →
  static_patch_model model prefix loras cached_weights body s0 = (Err e, s).
Proof.
  intros Hplan Hbefore Hst.
  pose proof (exec_step_error _ _ _ _ _ _ Hst) as [-> _].
  unfold static_patch_model.
  rewrite patch_model_plan, Hplan, for_each_app. unfold bind.
  by rewrite Hbefore, for_each_cons, Hst.
Qed.

(** X13: the whole model comes back.  Under the conditions of the round
    trip (plain keys, no tied targets, an accurate [cached_weights]) and
    with a body that does not write parameters itself, every tensor of the
    parameter store, targeted or not, is after the scoped form what it was
    before it. *)
Theorem whole_model_round_trip model prefix loras cached_weights
    (body : ScopeBody R) s0 book s1 :
  plain_keys model prefix loras = true →
  untied (targets model prefix loras) = true →
  snapshot cached_weights (targets model prefix loras) s0 →
  quiet body →
  _patch_model model prefix loras cached_weights s0 = (Ok book, s1) →
  ∃ s3,
    static_patch_model model prefix loras cached_weights body s0
    = (body_exit body s1, s3)
    ∧ ∀ p, params s3 !!! p = params s0 !!! p.
Proof.
  intros Hplain Hunt Hsnap Hquiet Hrun. destruct book as [mcw mw].
  destruct (session_restore model prefix loras cached_weights s0 mcw mw s1
              (run_body body s1) (plain_keys_found_again _ _ _ Hplain)
              Hunt Hsnap Hrun)
    as (s3 & Hrestore & Hparams).
  { intros l. apply run_body_meta. }
  exists s3. split.
  { unfold static_patch_model. by rewrite Hrun, Hrestore. }
  intros p.
  destruct (decide (p ∈ (targets model prefix loras).*2)) as [Hin|Hout].
  { apply list_elem_of_fmap in Hin as ([k p'] & -> & Hin). by apply (Hparams k). }
  destruct (patch_model_book _ _ _ _ _ _ _ _ Hrun) as (_ & _ & Htarget).
  assert (params s3 !!! p = params (run_body body s1) !!! p) as ->.
  { replace s3 with (restore model cached_weights mcw mw (run_body body s1)).2
      by (by rewrite Hrestore).
    rewrite restore_copy_loop. apply copy_loop_frame. intros k src Hitem Hk.
    assert (saved k (mcw, mw)) as Hs.
    { apply restore_items_elem in Hitem as [[? _]|(v & Hv & _)]; [by left|].
      right. by eapply elem_assoc_is_Some. }
    destruct (Htarget k Hs) as [p' Hp'].
    pose proof (targets_coherent model prefix loras k p' Hplain Hp') as Hk'.
    apply Hout. apply list_elem_of_fmap. exists (k, p'). split; [|done].
    simpl. congruence. }
  assert (params (run_body body s1) !!! p = params s1 !!! p) as ->.
  { rewrite run_body_lookup, Hquiet, (lookup_total_alt (params s1)).
    destruct (params s1 !! p) as [t|]; [|done]. by destruct t. }
  replace s1 with (_patch_model model prefix loras cached_weights s0).2
    by (by rewrite Hrun).
  rewrite patch_model_plan. by apply exec_frame.
Qed.

End ExtrasPatch.

Section ExtrasStaging.

Context {R : Type} `{!Scalar R}.

Implicit Types (model : Module) (prefix : string)
  (loras : list (LoRAModelRaw R * R))
  (cached_weights : option (gmap string (Tensor R)))
  (book : Book R) (s : State R) (e : PyError).

(** X14: where the LoRA layers are left (lines 119-120 and 144).  After a
    successful [_patch_model] every tensor of every layer whose key starts
    with the prefix is on the CPU and has dtype float32: the layers are
    moved back, but the cast of line 120 is never undone. *)
Theorem patched_layers_left_on_cpu_float32 model prefix loras cached_weights
    s book s1 (lora_model : LoRAModelRaw R) (lora_weight : R) (key : string)
    (layer : LoRALayer R) (l : loc) :
  _patch_model model prefix loras cached_weights s = (Ok book, s1) →
  (lora_model, lora_weight) ∈ loras →
  (key, layer) ∈ layers lora_model →
  PyStr.startswith prefix key = true →
  l ∈ tensors layer →
  device (lora_tensors s1 !!! l) = CPU ∧ dtype (lora_tensors s1 !!! l) = Float32.
Proof.
  unfold _patch_model. generalize (∅ : gset string, [] : list (string * Tensor R)).
  revert s. induction loras as [|[lm lw] loras IH]; intros s book0 Hrun Hlora;
    [by apply elem_of_nil in Hlora|].
  intros Hlayer Hpre Hl. rewrite for_each_cons in Hrun.
  destruct (patch_lora model prefix (default ∅ cached_weights) (lm, lw) book0 s)
    as [[book1|e1] s'] eqn:Hfirst; [|done].
  apply elem_of_cons in Hlora as [?|Hlora]; [|by apply (IH s' book1)].
  simplify_eq. apply patch_lora_rest in Hfirst as [_ Hnew].
  pose proof (Hnew key layer Hlayer Hpre l Hl) as Hrest.
  clear IH Hnew. revert s' book1 Hrun Hrest.
  induction loras as [|[lm' lw'] loras IH]; intros s' book1 Hrun Hrest.
  { unfold for_each, ret in Hrun. by simplify_eq. }
  rewrite for_each_cons in Hrun.
  destruct (patch_lora model prefix (default ∅ cached_weights) (lm', lw') book1 s')
    as [[book2|e2] s''] eqn:Hnext; [|done].
  apply patch_lora_rest in Hnext as [Hkeep _].
  apply (IH s'' book2 Hrun). by apply Hkeep.
Qed.

(** X15: no clean-up on failure.  When the parameter loop of a layer
    raises (a missing parameter name, a delta that cannot be reshaped),
    line 144 is skipped: the exception leaves [patch_layer] with every
    tensor of that layer on the device of the module's weight, in
    float32. *)
Theorem failed_layer_stays_on_device model prefix
    (cached : gmap string (Tensor R)) (lora_weight : R) (key : string)
    (layer : LoRALayer R) (mk : string) (module : Module) (w : loc)
    book s e s' (l : loc) :
  PyStr.startswith prefix key = true →
  _resolve_lora_key model key prefix = Ok (mk, module) →
  module_weight module = Ok w →
  patch_layer model prefix cached lora_weight (key, layer) book s = (Err e, s') →
  l ∈ tensors layer →
  device (lora_tensors s' !!! l) = device (params s !!! w)
  ∧ dtype (lora_tensors s' !!! l) = Float32.
Proof.
  intros Hpre Hres Hw Hrun Hl.
  rewrite (patch_layer_unfold _ _ _ _ _ _ _ _ _ _ _ Hpre Hres Hw) in Hrun.
  pose proof (param_loop_lora_meta cached mk module (dtype (params s !!! w))
                (py_mul lora_weight (layer_scale layer))
                (get_parameters layer module) l book
                (step_staging (SStage layer module w) s))
    as (_ & Hdt & Hdev & _).
  destruct (for_each _ _ book _) as [[book1|e1] s2]; [done|].
  simplify_eq. cbn [snd] in Hdt, Hdev.
  change (lora_tensors (step_staging (SStage layer module w) s))
    with (lora_tensors (layer_to_dtype layer Float32
                          (layer_to_device layer (device (params s !!! w)) s)))
    in Hdt, Hdev.
  destruct (stage_layer_at layer (device (params s !!! w)) s l Hl) as [Hd Hf].
  split; congruence.
Qed.

End ExtrasStaging.

Section ExtrasUnet.

Context {R : Type} `{!Scalar R}.

Implicit Types (unet : Module) (prefix : string)
  (ctx : InvocationContext R) (fields : list (LoRAField R))
  (cached_weights : option (gmap string (Tensor R)))
  (s : State R) (e : PyError).

(** X16: [patch_unet] is not a scoped patch.  With every LoRA loading,
    the scope ends as [_patch_model] on the loaded (model, weight) pairs
    did when it raised, and else as the body did; and with a body that
    does not write parameters, every tensor of the parameter store is
    after the scope what [_patch_model] left: nothing is copied back. *)
Theorem patch_unet_restores_nothing ctx fields prefix unet cached_weights
    (body : Book R → ScopeBody R) s :
  (∀ field, field ∈ fields →
            ∃ lora_model, models_load ctx (lora field) = Ok lora_model) →
  (∀ book, quiet (body book)) →
  let patched :=
    _patch_model unet prefix (loaded ctx fields) cached_weights s in
  let scope :=
    patch_unet (__init__ ctx fields prefix) unet cached_weights body s in
  (∀ p : loc, params scope.2 !!! p = params patched.2 !!! p)
  ∧ scope.1 = match patched.1 with
              | Ok book => body_exit (body book) patched.2
              | Err e => Err e
              end.
Proof.
  intros Hload Hquiet. simpl. unfold patch_unet.
  rewrite (lora_loader_loaded ctx fields prefix Hload). simpl.
  rewrite patch_model_iter_ok.
  destruct (_patch_model unet prefix (loaded ctx fields) cached_weights s)
    as [[book|e] s1]; [|done].
  split; [|done]. intros p. cbn [fst snd].
  rewrite run_body_lookup, (Hquiet book), (lookup_total_alt (params s1)).
  destruct (params s1 !! p) as [t|]; [|done]. by destruct t.
Qed.

(** X17: the LoRAs are loaded one at a time, as the loop asks for them.
    When the load of one raises after the loads before it succeeded and
    their LoRAs were patched in, [patch_unet] raises that exception: the
    body is not entered, whatever follows in the list plays no part, and
    the stores stay as the earlier LoRAs left them. *)
Theorem patch_unet_load_failure ctx (before after : list (LoRAField R))
    (field : LoRAField R) prefix unet cached_weights
    (body : Book R → ScopeBody R) s (book : Book R) s1 e :
  (∀ f, f ∈ before → ∃ lora_model, models_load ctx (lora f) = Ok lora_model) →
  models_load ctx (lora field) = Err e →
  _patch_model unet prefix (loaded ctx before) cached_weights s = (Ok book, s1) →
  patch_unet (__init__ ctx (before ++ field :: after) prefix) unet
             cached_weights body s
  = (Err e, s1).
Proof.
  intros Hload Hfail Hrun. unfold patch_unet.
  rewrite lora_loader_app, (lora_loader_loaded ctx before prefix Hload).
  change (_lora_loader (__init__ ctx (field :: after) prefix))
    with (match models_load ctx (lora field) with
          | Ok lora_model => Ok (lora_model, weight field)
          | Err e => Err e
          end :: _lora_loader (__init__ ctx after prefix)).
  rewrite Hfail. cbn [_prefix __init__].
  by rewrite patch_model_iter_raise, Hrun.
Qed.

End ExtrasUnet.

(** * Concrete instances *)

Section Instances.

Import Scenario.

Lemma resolve_rejects_dotted_key_witness :
  _resolve_lora_key model "lora_unet_foo.bar_baz" "lora_unet_" = Err AssertionError.
Proof. by apply resolve_rejects_dotted_key. Defined.

Lemma resolve_lora_key_greedy_witness :
  _resolve_lora_key model "lora_unet_foo_bar_baz" "lora_unet_"
  = Ok ("foo.bar_baz", bar_baz).
Proof.
  by rewrite (resolve_lora_key_greedy model "lora_unet_foo_bar_baz" "lora_unet_").
Defined.

(** A dotted key stops at the assertion where the descent of the
    specification would walk the dotted token; a key whose first token is
    empty (the prefix ends before the underscore) loses every leading dot
    where the specification strips one. *)
Lemma resolve_lora_key_greedy_counterexample :
  (PyStr.startswith "lora_unet_" "lora_unet_foo.bar_baz" = true
   ∧ _resolve_lora_key model "lora_unet_foo.bar_baz" "lora_unet_"
     = Err AssertionError
   ∧ spec_resolve model "lora_unet_foo.bar_baz" "lora_unet_"
     = Ok ("foo.bar_baz", bar_baz))
  ∧ (PyStr.startswith "lora_unet" "lora_unet_foo" = true
     ∧ _resolve_lora_key model "lora_unet_foo" "lora_unet" = Ok ("foo", foo)
     ∧ spec_resolve model "lora_unet_foo" "lora_unet" = Ok (".foo", foo)).
Proof. by repeat split. Qed.

Lemma layer_scale_cases_witness :
  layer_scale scaled_layer = 2 ∧ layer_scale zero_alpha_layer = 1.
Proof.
  split.
  - by rewrite (proj1 (layer_scale_cases scaled_layer) 8 4).
  - rewrite (proj2 (layer_scale_cases zero_alpha_layer)); [done|].
    right; right; left. by exists 0.
Defined.

Lemma reshape_or_shape_error_witness :
  (∃ s', patch_tensor ∅ key 0%nat (Stored 0%nat) Float32 3 (∅, []) s_shapes
         = (Ok (save_original ∅ key param28 (∅, [])), s')
         ∧ params s' !!! 0%nat
           = mkTensor [2%nat; 8%nat] Float32 CPU (replicate 16 3) true)
  ∧ patch_tensor ∅ key 0%nat (Stored 1%nat) Float32 5 (∅, []) s_shapes
    = (Err ShapeError, s_shapes)
  ∧ _patch_model model "lora_unet_" [(lora', 5)] None s_shapes
    = (Err ShapeError, s_shapes).
Proof.
  split; [|split].
  - destruct (proj1 (reshape_or_shape_error None key 0%nat (Stored 0%nat)
                       Float32 3 (∅, []) s_shapes ltac:(by vm_compute)))
      as (view & s' & Hview & _ & _ & Hrun & Hadd & _); [by vm_compute|].
    exists s'. split; [exact Hrun|].
    vm_compute in Hview. injection Hview as <-.
    assert (Ok (params s' !!! 0%nat)
            = Ok (mkTensor [2%nat; 8%nat] Float32 CPU (replicate 16 3) true))
      as Hsum; [|by injection Hsum].
    etrans; [symmetry; exact Hadd|]. by vm_compute.
  - apply (proj2 (reshape_or_shape_error None key 0%nat (Stored 1%nat)
                    Float32 5 (∅, []) s_shapes ltac:(by vm_compute))).
    by vm_compute.
  - eapply (proj2 (proj2 (reshape_or_shape_error None key 0%nat (Stored 1%nat)
                            Float32 5 (∅, []) s_shapes ltac:(by vm_compute))
                     ltac:(by vm_compute))
              model "lora_unet_" [(lora', 5)] [SStage layer' bar_baz 0%nat]
              [SUnstage layer'] 0%nat s_shapes).
    + reflexivity.
    + by vm_compute.
Defined.

(** *** Sessions *)






(** *** Deltas *)

(** Two LoRAs with a delta tensor each, and one LoRA given twice whose
    layer makes its delta at every call. *)
Lemma patch_model_additive_witness :
  data (params (_patch_model model "lora_unet_" [(lora, 3); (lora', 5)] None s0).2
          !!! 0%nat)
  = [8; 8; 8; 8]
  ∧ data (params (_patch_model model "lora_unet_"
                    [(product_lora, 3); (product_lora, 5)] None s0).2 !!! 0%nat)
    = [8; 8; 8; 8].
Proof.
  split.
  - destruct (patch_model_additive model "lora_unet_" [(lora, 3); (lora', 5)] None s0
                (∅, [(key, zeros22)])
                (_patch_model model "lora_unet_" [(lora, 3); (lora', 5)] None s0).2
                0%nat ltac:(by vm_compute) ltac:(by vm_compute))
      as (Hsum & _).
    etrans; [exact Hsum|]. by vm_compute.
  - destruct (patch_model_additive model "lora_unet_"
                [(product_lora, 3); (product_lora, 5)] None s0
                (∅, [(key, zeros22)])
                (_patch_model model "lora_unet_"
                   [(product_lora, 3); (product_lora, 5)] None s0).2
                0%nat ltac:(by vm_compute) ltac:(by vm_compute))
      as (Hsum & _).
    etrans; [exact Hsum|]. by vm_compute.
Defined.

(** The sum is rounded: a float16 weight of 2048 stays 2048 when 1 is
    added, where the formula gives 2049.  And a delta is read as an
    earlier step left it: a LoRA whose layer hands out its own tensor,
    given twice with the weights 3 and 5, adds 3 and then 15, where the
    formula gives 3 + 5. *)
Lemma patch_model_additive_counterexample :
  (data (params s_half !!! 0%nat) = [2048; 2048; 2048; 2048]
   ∧ data (lora_tensors s_half !!! 0%nat) = [1; 1; 1; 1]
   ∧ py_mul 1 (layer_scale layer) = 1
   ∧ ∃ book s1,
       _patch_model model "lora_unet_" [(lora, 1)] None s_half = (Ok book, s1)
       ∧ data (params s1 !!! 0%nat) = [2048; 2048; 2048; 2048]
       ∧ data (params s1 !!! 0%nat)
         ≠ zip_with Z.add (data (params s_half !!! 0%nat))
                    (map (Z.mul 1) (data (lora_tensors s_half !!! 0%nat))))
  ∧ (data (params s0 !!! 0%nat) = [0; 0; 0; 0]
     ∧ data (lora_tensors s0 !!! 0%nat) = [1; 1; 1; 1]
     ∧ py_mul 3 (layer_scale layer) = 3
     ∧ py_mul 5 (layer_scale layer) = 5
     ∧ reads_unscaled s0 [] (plan model "lora_unet_" [(lora, 3); (lora, 5)]) = false
     ∧ ∃ book s1,
         _patch_model model "lora_unet_" [(lora, 3); (lora, 5)] None s0
         = (Ok book, s1)
         ∧ data (params s1 !!! 0%nat) = [18; 18; 18; 18]
         ∧ data (params s1 !!! 0%nat)
           ≠ zip_with Z.add
               (zip_with Z.add (data (params s0 !!! 0%nat))
                  (map (Z.mul 3) (data (lora_tensors s0 !!! 0%nat))))
               (map (Z.mul 5) (data (lora_tensors s0 !!! 0%nat)))).
Proof.
  split.
  - do 3 (split; [by vm_compute|]). eexists _, _.
    split; [by vm_compute|]. split; [by vm_compute|].
    vm_compute. intros H. discriminate H.
  - do 5 (split; [by vm_compute|]). eexists _, _.
    split; [by vm_compute|]. split; [by vm_compute|].
    vm_compute. intros H. discriminate H.
Qed.

(** A tensor that a layer hands out itself is not the same after the
    session: its elements are multiplied by the weight; and the cast to
    float32 stays. *)
Lemma layer_frame_counterexample :
  data (lora_tensors s0 !!! 0%nat) = [1; 1; 1; 1]
  ∧ dtype (lora_tensors s0 !!! 0%nat) = Float16
  ∧ data (lora_tensors
            (_patch_model model "lora_unet_" [(lora, 3)] None s0).2 !!! 0%nat)
    = [3; 3; 3; 3]
  ∧ dtype (lora_tensors
             (_patch_model model "lora_unet_" [(lora, 3)] None s0).2 !!! 0%nat)
    = Float32.
Proof. repeat split; by vm_compute. Qed.

(** The tensors of a layer that makes its delta, and a tensor that
    [reshape] copies, keep their elements. *)
Lemma layer_frame_witness :
  data (lora_tensors
          (_patch_model model "lora_unet_" [(product_lora, 3)] None s0).2 !!! 0%nat)
  = [1; 1; 1; 1]
  ∧ data (lora_tensors
            (_patch_model model "lora_unet_" [(copied_lora, 3)] None s_row).2
            !!! 2%nat)
    = [1; 1; 1; 1]
  ∧ data (params (_patch_model model "lora_unet_" [(copied_lora, 3)] None s_row).2
            !!! 0%nat)
    = [3; 3; 3; 3].
Proof.
  split; [|split; [|by vm_compute]].
  - destruct (layer_frame model "lora_unet_" [(product_lora, 3)] None s0 0%nat)
      as (_ & _ & [[_ Hdata]|[_ Hdata]]).
    + assert (plan model "lora_unet_" [(product_lora, 3)]
              = [SStage product_layer bar_baz 0%nat;
                 SParam key 0%nat (Made "weight") 0%nat 3;
                 SUnstage product_layer]) as -> by (by vm_compute).
      intros k p w sc Hin.
      repeat (apply elem_of_cons in Hin as [Hin|Hin]; [discriminate Hin|]).
      by apply elem_of_nil in Hin.
    + etrans; [exact Hdata|]. by vm_compute.
    + etrans; [exact Hdata|]. by vm_compute.
  - destruct (layer_frame model "lora_unet_" [(copied_lora, 3)] None s_row 2%nat)
      as (_ & _ & [[_ Hdata]|[_ Hdata]]).
    + assert (plan model "lora_unet_" [(copied_lora, 3)]
              = [SStage copied_layer bar_baz 0%nat;
                 SParam key 0%nat (Stored 2%nat) 0%nat 3;
                 SUnstage copied_layer]) as -> by (by vm_compute).
      intros k p w sc Hin.
      apply elem_of_cons in Hin as [Hin|Hin]; [discriminate Hin|].
      apply elem_of_cons in Hin as [Hin|Hin].
      { injection Hin as -> -> -> ->. split; [by vm_compute|by vm_compute]. }
      apply elem_of_cons in Hin as [Hin|Hin]; [discriminate Hin|].
      by apply elem_of_nil in Hin.
    + etrans; [exact Hdata|]. by vm_compute.
    + etrans; [exact Hdata|]. by vm_compute.
Defined.

End Instances.

(** * Concrete instances of the further properties *)

Section ExtraInstances.

Import Scenario Deployment.

Lemma resolve_lora_key_outcomes_witness :
  _resolve_lora_key model "lora_unet_foo.bar_baz" "lora_unet_" = Err AssertionError
  ∧ _resolve_lora_key model "lora_te_foo" "lora_unet_" = Err InvalidPrefix
  ∧ ((∃ module_key module,
        _resolve_lora_key model "lora_unet_foo_qux" "lora_unet_"
        = Ok (module_key, module))
     ∨ _resolve_lora_key model "lora_unet_foo_qux" "lora_unet_"
       = Err AttributeError).
Proof.
  split; [|split].
  - by apply (proj1 (resolve_lora_key_outcomes model "lora_unet_foo.bar_baz"
                       "lora_unet_")).
  - by apply (proj1 (proj2 (resolve_lora_key_outcomes model "lora_te_foo"
                              "lora_unet_"))).
  - by apply (proj2 (proj2 (resolve_lora_key_outcomes model "lora_unet_foo_qux"
                              "lora_unet_"))).
Defined.

Lemma canonical_key_finds_module_witness :
  get_submodule model "foo.bar_baz" = Ok bar_baz.
Proof.
  apply (canonical_key_finds_module model bar_baz "lora_unet_foo_bar_baz"
           "lora_unet_" "foo.bar_baz").
  - unfold plain_tokens. vm_compute. by repeat constructor.
  - by vm_compute.
Defined.

Lemma resolve_bare_prefix_witness :
  _resolve_lora_key model "lora_unet" "lora_unet" = Ok ("", model).
Proof. by apply resolve_bare_prefix. Defined.

Lemma resolve_prefix_underscore_optional_witness :
  _resolve_lora_key model "lora_unet_foo_bar_baz" "lora_unet"
  = _resolve_lora_key model "lora_unet_foo_bar_baz" ("lora_unet" +:+ "_").
Proof. by apply resolve_prefix_underscore_optional. Defined.

Lemma prefix_filtering_witness :
  _patch_model model "lora_unet_" [(mixed, 3)] None s0
  = _patch_model model "lora_unet_" [(lora, 3)] None s0
  ∧ _patch_model model "lora_te_" [(lora, 3)] None s0 = (Ok (∅, []), s0).
Proof.
  split.
  - by rewrite (proj1 (prefix_filtering model "lora_unet_" [(mixed, 3)] None s0)).
  - apply (proj2 (prefix_filtering model "lora_te_" [(lora, 3)] None s0)).
    intros lora_model w k ly Hlora%list_elem_of_singleton. simplify_eq.
    by intros Hlayer%list_elem_of_singleton; simplify_eq.
Defined.

Lemma patch_model_errors_witness :
  _patch_model model "lora_unet_" [(lora', 5)] None s_shapes
  = (Err ShapeError, s_shapes)
  ∧ (ShapeError = AssertionError ∨ ShapeError = AttributeError
     ∨ ShapeError = ShapeError).
Proof.
  split; [by vm_compute|].
  apply (patch_model_errors model "lora_unet_" [(lora', 5)] None s_shapes
           ShapeError s_shapes).
  by vm_compute.
Defined.

Lemma static_patch_model_errors_witness :
  ∃ s',
    static_patch_model model "lora_unet_" [(lora_empty_token, 3)] None idle s0
    = (Err AttributeError, s')
    ∧ (_patch_model model "lora_unet_" [(lora_empty_token, 3)] None s0
       = (Err AttributeError, s')
       ∨ ∃ book s1,
           _patch_model model "lora_unet_" [(lora_empty_token, 3)] None s0
           = (Ok book, s1)
           ∧ ((restore model None book.1 book.2 (run_body idle s1)
               = (Err AttributeError, s')
               ∧ (AttributeError = AttributeError ∨ AttributeError = ShapeError))
              ∨ (restore model None book.1 book.2 (run_body idle s1) = (Ok tt, s')
                 ∧ body_exit idle s1 = Err AttributeError))).
Proof.
  eexists. split; [by vm_compute|].
  apply (static_patch_model_errors model "lora_unet_" [(lora_empty_token, 3)]
           None idle s0).
  by vm_compute.
Defined.

Lemma bookkeeping_keys_witness :
  (key ∈ ({[key]} : gset string)
   ↔ (∃ p, (key, p) ∈ targets model "lora_unet_" [(lora, 3); (lora', 5)])
     ∧ is_Some (default ∅ accurate_cache !! key))
  ∧ (is_Some (assoc key ([] : list (string * Tensor Z)))
     ↔ (∃ p, (key, p) ∈ targets model "lora_unet_" [(lora, 3); (lora', 5)])
       ∧ default ∅ accurate_cache !! key = None).
Proof.
  apply (bookkeeping_keys model "lora_unet_" [(lora, 3); (lora', 5)]
           accurate_cache s0 {[key]} []
           (_patch_model model "lora_unet_" [(lora, 3); (lora', 5)]
                         accurate_cache s0).2).
  by vm_compute.
Defined.

Lemma untouched_parameters_witness :
  params (_patch_model wide_model "lora_unet_" [(lora, 3)] None s_wide).2 !!! 5%nat
  = ones22_f32
  ∧ params (restore wide_model None ∅ [(key, zeros22)] s_wide).2 !!! 5%nat
    = ones22_f32.
Proof.
  split.
  - rewrite (proj1 (untouched_parameters wide_model "lora_unet_" [(lora, 3)]
                      None s_wide 5%nat)); [by vm_compute|].
    assert ((targets wide_model "lora_unet_" [(lora, 3)]).*2 = [0%nat]) as ->
      by (by vm_compute).
    by intros ?%list_elem_of_singleton.
  - rewrite (proj2 (untouched_parameters wide_model "lora_unet_" [(lora, 3)]
                      None s_wide 5%nat) ∅ [(key, zeros22)]); [by vm_compute|].
    intros k [Hk|Hk].
    + by apply not_elem_of_empty in Hk.
    + apply list_elem_of_singleton in Hk as ->. by vm_compute.
Defined.

Lemma sessions_compose_witness :
  let s1 := (_patch_model model "lora_unet_" [(lora, 3)] None s0).2 in
  (_patch_model model "lora_unet_" ([(lora, 3)] ++ [(lora', 5)]) None s0).2
  = (_patch_model model "lora_unet_" [(lora', 5)] None s1).2
  ∧ raised (_patch_model model "lora_unet_" ([(lora, 3)] ++ [(lora', 5)]) None s0).1
    = raised (_patch_model model "lora_unet_" [(lora', 5)] None s1).1.
Proof.
  intros s1.
  apply (sessions_compose model "lora_unet_" [(lora, 3)] [(lora', 5)] None s0
           (∅, [(key, zeros22)]) s1).
  by vm_compute.
Defined.

Lemma scoped_form_does_not_roll_back_witness :
  ∃ s,
    static_patch_model model "lora_unet_" [(lora, 3); (lora', 5)] None idle s_shapes
    = (Err ShapeError, s)
    ∧ params s !!! 0%nat
      = mkTensor [2%nat; 8%nat] Float32 CPU (replicate 16 3) true.
Proof.
  eexists. split.
  - apply (scoped_form_does_not_roll_back model "lora_unet_"
             [(lora, 3); (lora', 5)] None idle
             [SStage layer bar_baz 0%nat; SParam key 0%nat (Stored 0%nat) 0%nat 3;
              SUnstage layer; SStage layer' bar_baz 0%nat]
             [SUnstage layer']
             (SParam key 0%nat (Stored 1%nat) 0%nat 5)
             s_shapes _
             (for_each (exec_step ∅)
                [SStage layer bar_baz 0%nat; SParam key 0%nat (Stored 0%nat) 0%nat 3;
                 SUnstage layer; SStage layer' bar_baz 0%nat]
                (∅, [(key, param28)]) s_shapes).2
             (∅, [(key, param28)])).
    + by vm_compute.
    + by vm_compute.
    + by vm_compute.
  - by vm_compute.
Defined.

Lemma whole_model_round_trip_witness :
  ∃ s3,
    static_patch_model wide_model "lora_unet_" [(lora, 3); (lora', 5)]
                       None idle s_wide
    = (Ok tt, s3)
    ∧ params s3 !!! 0%nat = zeros22
    ∧ params s3 !!! 5%nat = ones22_f32.
Proof.
  destruct (whole_model_round_trip wide_model "lora_unet_"
              [(lora, 3); (lora', 5)] None idle s_wide
              (∅, [(key, zeros22)])
              (_patch_model wide_model "lora_unet_" [(lora, 3); (lora', 5)]
                            None s_wide).2)
    as (s3 & Hrun & Hp).
  - by vm_compute.
  - by vm_compute.
  - unfold snapshot. vm_compute. by repeat constructor.
  - by intros s l.
  - by vm_compute.
  - exists s3. split; [exact Hrun|]. by rewrite !Hp.
Defined.

Lemma patched_layers_left_on_cpu_float32_witness :
  dtype (lora_tensors s0 !!! 0%nat) = Float16
  ∧ device (lora_tensors
              (_patch_model model "lora_unet_" [(lora, 3)] None s0).2 !!! 0%nat)
    = CPU
  ∧ dtype (lora_tensors
             (_patch_model model "lora_unet_" [(lora, 3)] None s0).2 !!! 0%nat)
    = Float32.
Proof.
  split; [by vm_compute|].
  apply (patched_layers_left_on_cpu_float32 model "lora_unet_" [(lora, 3)] None
           s0 (∅, [(key, zeros22)]) _ lora 3 "lora_unet_foo_bar_baz" layer).
  - by vm_compute.
  - by apply list_elem_of_singleton.
  - by apply list_elem_of_singleton.
  - by vm_compute.
  - by apply list_elem_of_singleton.
Defined.

Lemma failed_layer_stays_on_device_witness :
  ∃ s',
    patch_layer model "lora_unet_" ∅ 5 ("lora_unet_foo_bar_baz", layer')
                (∅, []) s_cuda
    = (Err ShapeError, s')
    ∧ device (lora_tensors s' !!! 1%nat) = CUDA 0
    ∧ dtype (lora_tensors s' !!! 1%nat) = Float32.
Proof.
  eexists. split; [by vm_compute|].
  apply (failed_layer_stays_on_device model "lora_unet_" ∅ 5
           "lora_unet_foo_bar_baz" layer' "foo.bar_baz" bar_baz 0%nat
           (∅, []) s_cuda ShapeError).
  - by vm_compute.
  - by vm_compute.
  - by vm_compute.
  - by vm_compute.
  - by apply list_elem_of_singleton.
Defined.

Lemma patch_unet_restores_nothing_witness :
  params (patch_unet (__init__ ctx [first_field; second_field] "lora_unet_")
                     model None (λ _, idle) s0).2 !!! 0%nat
  = mkTensor [2%nat; 2%nat] Float32 CPU [8; 8; 8; 8] true.
Proof.
  rewrite (proj1 (patch_unet_restores_nothing ctx [first_field; second_field]
                    "lora_unet_" model None (λ _, idle) s0
                    ltac:(intros f [->|[->|[]%elem_of_nil]%elem_of_cons]%elem_of_cons;
                          by eexists)
                    ltac:(by intros book s l))).
  by vm_compute.
Defined.

Lemma patch_unet_load_failure_witness :
  patch_unet (__init__ ctx ([first_field] ++ missing_field :: [second_field])
                       "lora_unet_")
             model None (λ _, idle) s0
  = (Err KeyError, (_patch_model model "lora_unet_" [(lora, 3)] None s0).2).
Proof.
  apply (patch_unet_load_failure ctx [first_field] [second_field] missing_field
           "lora_unet_" model None (λ _, idle) s0 (∅, [(key, zeros22)])).
  - intros f ->%list_elem_of_singleton. by eexists.
  - by vm_compute.
  - by vm_compute.
Defined.

End ExtraInstances.
